(** * Hitachi venture case: portfolio scraping, enrichment and filtering

    A shallow embedding of the Python sources
    [models/portfolio_models.py], [config/portfolio_config.py],
    [services/llm_client.py], [services/portfolio_filtering.py],
    [services/portfolio_enrichment.py], [services/portfolio_scraper.py],
    [exporters/protfolio_csv_exporter.py] and [hitachi_energy_portfolio.py],
    with the properties of the specification, and further properties of the
    code, stated and proved over it.

    Conventions of the embedding.
    - A Python [str] is a [string]: one [ascii] per character, so the text
      domain is the code points 0..255.  The [str] methods the sources call
      ([lower], [strip], [title], [isupper], [replace], [split], [join],
      [startswith], [in]) are defined on that domain as Python defines them,
      as are [json.dumps] of a list of strings, [hashlib.sha256] and the two
      regular expressions of the scraper.  One method leaves the domain:
      the title forms of the characters 181 and 255 are U+039C and U+0178,
      so what is stated of [title] is stated for texts without these two.
    - The parsers of the standard library are parameters of the functions
      that call them: [json.loads], the event sequence of
      [HTMLParser.feed], [urlparse(_).hostname], [urlparse(_).path], and the
      check [urllib.request.Request] makes of its reference.
    - A [dict] is a [gmap] (an association list where the order counts), a
      [set] a [gset], a [list] a [list]; indexing a list is a lookup whose
      [None] stands for [IndexError].
    - Mutation of a [Company] object is a functional record update; the
      module global [_client] is threaded as state.
    - The outside world (network, file system, hosted model) is an explicit
      environment that the functions read.  Each call into it, and each call
      of a library parser on text it supplies, has the outcomes the sources
      catch and one more for the exceptions they let through.
    - A function that an exception can leave returns an [option], and [None]
      stands for the exception; a function that itself returns [None] or a
      value and can be left by an exception returns an [option] of an
      [option].
    - The CSV file is the list of the rows handed to [csv.writer]; what is
      logged and printed is left out, and the logging set-up and the opening
      of the output file are taken to return. *)

From Stdlib Require Import ZArith Ascii String List Bool Lia.
From stdpp Require Import base option list gmap strings.

Local Open Scope Z_scope.

(** ** models/portfolio_models.py *)

Module Models.

(** [class RoundStage(str, Enum)] *)
Inductive RoundStage : Type :=
  | SEED | SERIES_A | SERIES_B | SERIES_C | SERIES_D | SERIES_E
  | SERIES_F | SERIES_G | IPO | PUBLIC | UNKNOWN.

(** The [str] value of each member. *)
Definition value (r : RoundStage) : string :=
  match r with
  | SEED => "Seed"
  | SERIES_A => "Series A"
  | SERIES_B => "Series B"
  | SERIES_C => "Series C"
  | SERIES_D => "Series D"
  | SERIES_E => "Series E"
  | SERIES_F => "Series F"
  | SERIES_G => "Series G"
  | IPO => "IPO"
  | PUBLIC => "Public"
  | UNKNOWN => "Unknown"
  end.

#[global] Instance RoundStage_eq_dec : EqDecision RoundStage.
Proof. solve_decision. Defined.

Definition RoundStage_to_nat (r : RoundStage) : nat :=
  match r with
  | SEED => 0 | SERIES_A => 1 | SERIES_B => 2 | SERIES_C => 3
  | SERIES_D => 4 | SERIES_E => 5 | SERIES_F => 6 | SERIES_G => 7
  | IPO => 8 | PUBLIC => 9 | UNKNOWN => 10
  end%nat.

Definition RoundStage_of_nat (n : nat) : option RoundStage :=
  match n with
  | 0 => Some SEED | 1 => Some SERIES_A | 2 => Some SERIES_B
  | 3 => Some SERIES_C | 4 => Some SERIES_D | 5 => Some SERIES_E
  | 6 => Some SERIES_F | 7 => Some SERIES_G | 8 => Some IPO
  | 9 => Some PUBLIC | 10 => Some UNKNOWN | _ => None
  end%nat.

#[global] Instance RoundStage_countable : Countable RoundStage.
Proof.
  apply (inj_countable RoundStage_to_nat RoundStage_of_nat).
  intros []; reflexivity.
Defined.

(** Truth value of a Python [str]: non-empty. *)
Definition str_truthy (s : string) : bool :=
  match s with EmptyString => false | String _ _ => true end.

(** Truth value of a member of a [str]-mixin [Enum]: that of its value. *)
Definition round_truthy (r : RoundStage) : bool := str_truthy (value r).

(** [@dataclass class Company] *)
Record Company : Type := mkCompany {
  name : string;
  website : string;
  description : string;
  last_round : RoundStage;
  source : string;
  energy_keywords : option (list string);
  stage : string;
  profile_url : string
}.

(** [company.website = w] *)
Definition set_website (w : string) (c : Company) : Company :=
  mkCompany (name c) w (description c) (last_round c) (source c)
            (energy_keywords c) (stage c) (profile_url c).

(** [company.description = d] *)
Definition set_description (d : string) (c : Company) : Company :=
  mkCompany (name c) (website c) d (last_round c) (source c)
            (energy_keywords c) (stage c) (profile_url c).

(** [company.last_round = r] *)
Definition set_last_round (r : RoundStage) (c : Company) : Company :=
  mkCompany (name c) (website c) (description c) r (source c)
            (energy_keywords c) (stage c) (profile_url c).

End Models.

Export Models.


(** ** Python text primitives used by the sources *)

Module Py.

Definition code (c : ascii) : N := N_of_ascii c.

Definition in_range (lo hi : N) (c : ascii) : bool :=
  (N.leb lo (code c) && N.leb (code c) hi)%bool.

Fixpoint str_map (f : ascii -> ascii) (s : string) : string :=
  match s with
  | EmptyString => EmptyString
  | String c s' => String (f c) (str_map f s')
  end.

(** [c.isupper()]: A-Z and the Latin-1 capitals. *)
Definition is_upper (c : ascii) : bool :=
  in_range 65 90 c || in_range 192 214 c || in_range 216 222 c.

(** [c.lower()]: on code points below 256 the capitals move up by 32. *)
Definition lower_char (c : ascii) : ascii :=
  if is_upper c then ascii_of_N (code c + 32) else c.

(** [s.lower()] *)
Definition lower (s : string) : string := str_map lower_char s.

(** [s.encode("utf-8")]: one byte below 128, two bytes from 128 to 255. *)
Definition encode_char (c : ascii) : list Z :=
  let n := Z.of_N (code c) in
  if n <? 128 then [n]
  else [Z.lor 192 (Z.shiftr n 6); Z.lor 128 (Z.land n 63)].

Fixpoint encode_utf8 (s : string) : list Z :=
  match s with
  | EmptyString => []
  | String c s' => encode_char c ++ encode_utf8 s'
  end.

(** [l[i]] with Python's negative indices; [None] is [IndexError]. *)
Definition index {A} (l : list A) (i : Z) : option A :=
  if 0 <=? i then l !! Z.to_nat i
  else if - Z.of_nat (length l) <=? i then l !! Z.to_nat (Z.of_nat (length l) + i)
  else None.

(** Value of one hexadecimal digit, as [int(_, 16)] reads it. *)
Definition hex_value (c : ascii) : option Z :=
  if in_range 48 57 c then Some (Z.of_N (code c) - 48)
  else if in_range 97 102 c then Some (Z.of_N (code c) - 87)
  else if in_range 65 70 c then Some (Z.of_N (code c) - 55)
  else None.

Fixpoint int16_acc (acc : Z) (s : string) : option Z :=
  match s with
  | EmptyString => Some acc
  | String c s' =>
      match hex_value c with
      | Some d => int16_acc (16 * acc + d) s'
      | None => None
      end
  end.

(** [int(s, 16)] on a string of hexadecimal digits; [None] is [ValueError]
    (raised on the empty string and on any other character; sign, prefix and
    digit separators do not occur in a digest). *)
Definition int16 (s : string) : option Z :=
  match s with
  | EmptyString => None
  | _ => int16_acc 0 s
  end.

(** Lowercase hexadecimal digit of a value below 16. *)
Definition hex_digit (d : Z) : ascii :=
  if d <? 10 then ascii_of_N (Z.to_N (48 + d)) else ascii_of_N (Z.to_N (87 + d)).

(** [c.isspace()], also the class [\s] of [re]. *)
Definition is_space (c : ascii) : bool :=
  in_range 9 13 c || in_range 28 32 c || N.eqb (code c) 133 || N.eqb (code c) 160.

Fixpoint lstrip_by (p : ascii -> bool) (s : string) : string :=
  match s with
  | EmptyString => EmptyString
  | String c s' => if p c then lstrip_by p s' else s
  end.

Fixpoint rstrip_by (p : ascii -> bool) (s : string) : string :=
  match s with
  | EmptyString => EmptyString
  | String c s' =>
      match rstrip_by p s' with
      | EmptyString => if p c then EmptyString else String c EmptyString
      | r => String c r
      end
  end.

(** [s.strip()] *)
Definition strip (s : string) : string := rstrip_by is_space (lstrip_by is_space s).

Fixpoint mem_char (c : ascii) (chars : string) : bool :=
  match chars with
  | EmptyString => false
  | String d chars' => Ascii.eqb c d || mem_char c chars'
  end.

(** [s.strip(chars)] *)
Definition strip_chars (chars s : string) : string :=
  rstrip_by (fun c => mem_char c chars) (lstrip_by (fun c => mem_char c chars) s).

(** [s.startswith(prefix)] *)
Definition startswith (s prefix : string) : bool := String.prefix prefix s.

(** [sub in s] *)
Fixpoint contains (sub s : string) : bool :=
  String.prefix sub s ||
  match s with
  | EmptyString => false
  | String _ s' => contains sub s'
  end.

Fixpoint drop_chars (n : nat) (s : string) : string :=
  match n, s with
  | S n', String _ s' => drop_chars n' s'
  | _, _ => s
  end.

(** [s.replace(old, new, 1)] for a non-empty [old]. *)
Fixpoint replace_first (old new s : string) : string :=
  if String.prefix old s then String.append new (drop_chars (String.length old) s)
  else match s with
       | EmptyString => EmptyString
       | String c s' => String c (replace_first old new s')
       end.

(** [s.replace(old, new)] for a non-empty [old]: [skip] counts the characters
    of a match that are still to be passed over. *)
Fixpoint replace_from (skip : nat) (old new s : string) : string :=
  match s with
  | EmptyString => EmptyString
  | String c s' =>
      match skip with
      | S k => replace_from k old new s'
      | O =>
          if String.prefix old s
          then String.append new (replace_from (String.length old - 1) old new s')
          else String c (replace_from O old new s')
      end
  end.

Definition replace (old new s : string) : string := replace_from O old new s.

(** [s.split(sep)[0]] for a non-empty [sep]. *)
Fixpoint split_head (sep s : string) : string :=
  if String.prefix sep s then EmptyString
  else match s with
       | EmptyString => EmptyString
       | String c s' => String c (split_head sep s')
       end.

(** [sep.join(items)] *)
Definition join (sep : string) (items : list string) : string := String.concat sep items.

Definition hex4 (n : Z) : string :=
  String (hex_digit (n / 4096 mod 16))
    (String (hex_digit (n / 256 mod 16))
       (String (hex_digit (n / 16 mod 16))
          (String (hex_digit (n mod 16)) EmptyString))).

(** One character inside a [json.dumps] string literal ([ensure_ascii]). *)
Definition json_escape_char (c : ascii) : string :=
  let n := code c in
  if N.eqb n 34 then String "092" (String "034" EmptyString)
  else if N.eqb n 92 then "\\"
  else if N.eqb n 10 then "\n"
  else if N.eqb n 13 then "\r"
  else if N.eqb n 9 then "\t"
  else if N.eqb n 8 then "\b"
  else if N.eqb n 12 then "\f"
  else if in_range 32 126 c then String c EmptyString
  else String.append "\u" (hex4 (Z.of_N n)).

Fixpoint json_escape (s : string) : string :=
  match s with
  | EmptyString => EmptyString
  | String c s' => String.append (json_escape_char c) (json_escape s')
  end.

Definition json_dumps_str (s : string) : string :=
  String.append (String "034" (json_escape s)) (String "034" EmptyString).

(** [json.dumps(items)] for a list of [str]. *)
Definition json_dumps (items : list string) : string :=
  String.append "[" (String.append (join ", " (map json_dumps_str items)) "]").

(** [re.sub(r"\s+", " ", s)]: every maximal run of whitespace becomes one
    space; [in_run] tells that the run was already replaced. *)
Fixpoint sub_ws (in_run : bool) (s : string) : string :=
  match s with
  | EmptyString => EmptyString
  | String c s' =>
      if is_space c
      then if in_run then sub_ws true s' else String " " (sub_ws true s')
      else String c (sub_ws false s')
  end.

(** [c.islower()] *)
Definition is_lower (c : ascii) : bool :=
  in_range 97 122 c || N.eqb (code c) 170 || N.eqb (code c) 181 ||
  N.eqb (code c) 186 || in_range 223 246 c || in_range 248 255 c.

(** Cased characters: the lowercase and the uppercase ones. *)
Definition is_cased (c : ascii) : bool := is_lower c || is_upper c.

(** [s.isupper()]: no lowercase character and at least one uppercase one. *)
Fixpoint all_not_lower (s : string) : bool :=
  match s with
  | EmptyString => true
  | String c s' => negb (is_lower c) && all_not_lower s'
  end.

Fixpoint some_upper (s : string) : bool :=
  match s with
  | EmptyString => false
  | String c s' => is_upper c || some_upper s'
  end.

Definition isupper (s : string) : bool := all_not_lower s && some_upper s.



(** Title case of one character of a text that is [title_closed]. *)
Definition title_char (c : ascii) : string :=
  if in_range 97 122 c || in_range 224 246 c || in_range 248 254 c
  then String (ascii_of_N (code c - 32)) EmptyString
  else if N.eqb (code c) 223 then "Ss"
  else String c EmptyString.

(** [s.title()] for a text that is [title_closed]: a character after a
    cased one is lowered, any other one is put in title case. *)
Fixpoint title_from (previous_is_cased : bool) (s : string) : string :=
  match s with
  | EmptyString => EmptyString
  | String c s' =>
      String.append
        (if previous_is_cased then String (lower_char c) EmptyString else title_char c)
        (title_from (is_cased c) s')
  end.

Definition title (s : string) : string := title_from false s.

(** A value returned by [json.loads]. *)
#[warnings="-register-all"]
Inductive PyObj : Type :=
  | PyNone
  | PyBool (b : bool)
  | PyInt (z : Z)
  | PyFloat (repr : string)
  | PyStr (s : string)
  | PyList (items : list PyObj)
  | PyDict (items : list (string * PyObj)).

(** What [json.loads] does with a [str]: it returns a value, or raises
    [JSONDecodeError] when the text is no JSON document, or raises another
    exception: [ValueError] for an integer literal beyond the limit of digits
    for the conversion to [int], [RecursionError] for a document nested too
    deep. *)
Inductive JsonResult : Type :=
  | JsonValue (v : PyObj)
  | JsonDecodeError
  | JsonOtherError.

End Py.

(** ** hashlib.sha256 (FIPS 180-4) on byte lists *)

Module Sha256.

Definition add32 (x y : Z) : Z := (x + y) mod 2 ^ 32.

Definition rotr (n x : Z) : Z :=
  Z.lor (Z.shiftr x n) ((Z.shiftl x (32 - n)) mod 2 ^ 32).

Definition not32 (x : Z) : Z := Z.lxor x 4294967295.

Definition Ch (x y z : Z) : Z := Z.lxor (Z.land x y) (Z.land (not32 x) z).

Definition Maj (x y z : Z) : Z :=
  Z.lxor (Z.lxor (Z.land x y) (Z.land x z)) (Z.land y z).

Definition Sigma0 (x : Z) : Z := Z.lxor (Z.lxor (rotr 2 x) (rotr 13 x)) (rotr 22 x).
Definition Sigma1 (x : Z) : Z := Z.lxor (Z.lxor (rotr 6 x) (rotr 11 x)) (rotr 25 x).
Definition sigma0 (x : Z) : Z := Z.lxor (Z.lxor (rotr 7 x) (rotr 18 x)) (Z.shiftr x 3).
Definition sigma1 (x : Z) : Z := Z.lxor (Z.lxor (rotr 17 x) (rotr 19 x)) (Z.shiftr x 10).

(** The constants of the standard: the first 32 bits of the fractional
    parts of the cube roots ([K]) and of the square roots ([H0]) of the
    first primes. *)
Definition is_prime (n : nat) : bool :=
  forallb (fun d => negb (n mod d =? 0)%nat) (seq 2 (n - 2)).

Definition primes : list Z :=
  map Z.of_nat (List.filter is_prime (seq 2 310)).

(** Integer cube root, one bit at a time from bit [n - 1] down. *)
Fixpoint cube_root_bits (n : nat) (x root : Z) : Z :=
  match n with
  | O => root
  | S n' =>
      let candidate := root + 2 ^ Z.of_nat n' in
      if candidate * candidate * candidate <=? x
      then cube_root_bits n' x candidate
      else cube_root_bits n' x root
  end.

Definition K : list Z :=
  Eval vm_compute in
    map (fun p => cube_root_bits 36 (p * 2 ^ 96) 0 mod 2 ^ 32) (take 64 primes).

Definition H0 : list Z :=
  Eval vm_compute in
    map (fun p => Z.sqrt (p * 2 ^ 64) mod 2 ^ 32) (take 8 primes).

(** Big-endian bytes of [x], [n] of them. *)
Fixpoint be_bytes (n : nat) (x : Z) : list Z :=
  match n with
  | O => []
  | S n' => (Z.shiftr x (8 * Z.of_nat n')) mod 256 :: be_bytes n' x
  end.

(** Big-endian value of a byte list. *)
Definition be_value (bs : list Z) : Z := fold_left (fun acc b => 256 * acc + b) bs 0.

(** Message padding: a 1 bit, zeros up to 56 modulo 64, the bit length. *)
Definition pad (msg : list Z) : list Z :=
  let len := Z.of_nat (length msg) in
  let zeros := Z.to_nat ((55 - len) mod 64) in
  msg ++ [128] ++ replicate zeros 0 ++ be_bytes 8 (8 * len).

Fixpoint words (fuel : nat) (bs : list Z) : list Z :=
  match fuel, bs with
  | S fuel', _ :: _ => be_value (take 4 bs) :: words fuel' (drop 4 bs)
  | _, _ => []
  end.

Fixpoint chunks (fuel : nat) (ws : list Z) : list (list Z) :=
  match fuel, ws with
  | S fuel', _ :: _ => take 16 ws :: chunks fuel' (drop 16 ws)
  | _, _ => []
  end.

Definition nthw (ws : list Z) (i : nat) : Z := nth i ws 0.

(** Message schedule: [w] holds the words computed so far. *)
Fixpoint schedule (n : nat) (w : list Z) : list Z :=
  match n with
  | O => w
  | S n' =>
      let t := length w in
      let x := add32 (add32 (sigma1 (nthw w (t - 2))) (nthw w (t - 7)))
                     (add32 (sigma0 (nthw w (t - 15))) (nthw w (t - 16))) in
      schedule n' (w ++ [x])
  end.

Record regs : Type := mkRegs { ra : Z; rb : Z; rc : Z; rd : Z; re : Z; rf : Z; rg : Z; rh : Z }.

Definition round (s : regs) (kw : Z * Z) : regs :=
  let t1 := add32 (add32 (add32 (rh s) (Sigma1 (re s))) (Ch (re s) (rf s) (rg s)))
                  (add32 (fst kw) (snd kw)) in
  let t2 := add32 (Sigma0 (ra s)) (Maj (ra s) (rb s) (rc s)) in
  mkRegs (add32 t1 t2) (ra s) (rb s) (rc s) (add32 (rd s) t1) (re s) (rf s) (rg s).

Definition compress (h : regs) (block : list Z) : regs :=
  let w := schedule 48 block in
  let s := fold_left round (zip K w) h in
  mkRegs (add32 (ra h) (ra s)) (add32 (rb h) (rb s)) (add32 (rc h) (rc s))
         (add32 (rd h) (rd s)) (add32 (re h) (re s)) (add32 (rf h) (rf s))
         (add32 (rg h) (rg s)) (add32 (rh h) (rh s)).

Definition init : regs :=
  mkRegs (nthw H0 0) (nthw H0 1) (nthw H0 2) (nthw H0 3)
         (nthw H0 4) (nthw H0 5) (nthw H0 6) (nthw H0 7).

Definition regs_words (s : regs) : list Z :=
  [ra s; rb s; rc s; rd s; re s; rf s; rg s; rh s].

(** [hashlib.sha256(msg).digest()]: 32 bytes. *)
Definition digest (msg : list Z) : list Z :=
  let p := pad msg in
  let ws := words (length p) p in
  let h := fold_left compress (chunks (length ws) ws) init in
  flat_map (be_bytes 4) (regs_words h).

Fixpoint hex (bs : list Z) : string :=
  match bs with
  | [] => EmptyString
  | b :: bs' => String (Py.hex_digit (b / 16)) (String (Py.hex_digit (b mod 16)) (hex bs'))
  end.

(** [hashlib.sha256(msg).hexdigest()]: 64 lowercase hexadecimal digits. *)
Definition hexdigest (msg : list Z) : string := hex (digest msg).

(** The value of a byte. *)
Definition is_byte (b : Z) : Prop := 0 <= b < 256.

End Sha256.

(** ** html.parser.HTMLParser: the events a document is fed as *)

Module Html.

(** A call of [handle_starttag], [handle_endtag] or [handle_data].  The
    library hands over tag and attribute names in lower case and attribute
    values unquoted, [None] for an attribute without a value. *)
Inductive Event : Type :=
  | StartTag (tag : string) (attrs : list (string * option string))
  | EndTag (tag : string)
  | Data (data : string).

(** [parser.feed(html)] for a parser given by its three handlers, on the
    events the library reads from the document.  The library can leave
    [feed] by an exception (an [AssertionError] on a marked section whose
    keyword it does not know); no handler of the sources raises.  The
    functions that call [feed] take the events of a document as an
    [option], [None] when [feed] is left by an exception. *)
Definition feed {S : Type}
    (handle_starttag : S -> string -> list (string * option string) -> S)
    (handle_endtag : S -> string -> S)
    (handle_data : S -> string -> S)
    (events : list Event) (init : S) : S :=
  fold_left
    (fun self ev =>
       match ev with
       | StartTag tag attrs => handle_starttag self tag attrs
       | EndTag tag => handle_endtag self tag
       | Data data => handle_data self data
       end)
    events init.

(** [{k.lower(): (v or "") for k, v in attrs}] *)
Definition attr_map (attrs : list (string * option string)) : gmap string string :=
  fold_left (fun m kv => <[Py.lower (fst kv) := default "" (snd kv)]> m) attrs ∅.

(** [attr_map.get(key, "")] *)
Definition get (m : gmap string string) (key : string) : string :=
  default "" (m !! key).

End Html.

(** ** The network and the file system *)

Module Net.

(** Outcome of [urllib.request.urlopen(request, timeout=...)] followed by
    [response.read()], the body decoded with [errors="replace"]: the body,
    [HTTPError], another [URLError], [TimeoutError], or an exception of
    another class ([http.client.InvalidURL] for a reference with a space or
    a control character, [UnicodeEncodeError] for one outside ASCII, a
    connection reset or an incomplete read while the response is read). *)
Inductive UrlOutcome : Type :=
  | UrlBody (body : string)
  | UrlHTTPError
  | UrlURLError
  | UrlTimeout
  | UrlOtherError.

(** Outcome of [Path(p).read_bytes()], the bytes decoded with
    [errors="replace"]: the text, [OSError], or an exception of another
    class ([ValueError] for a path with a null character). *)
Inductive FileOutcome : Type :=
  | FileBody (body : string)
  | FileOSError
  | FileOtherError.

(** [path_exists] is [Path(p).exists()], [None] for the [OSError] it lets
    through (a name that is too long, a directory that may not be searched);
    [read_bytes] is [Path(p).read_bytes()]; [urlopen] is the bounded-timeout
    request for a reference that [urllib.request.Request] accepted. *)
Record World : Type := mkWorld {
  path_exists : string -> option bool;
  read_bytes : string -> FileOutcome;
  urlopen : string -> UrlOutcome
}.

End Net.

(** ** services/portfolio_enrichment.py: reference data and round assignment *)

Module Enrichment.

(** [a == b] on members of the [str]-mixin enum compares their values. *)
Definition round_eq (a b : RoundStage) : bool := String.eqb (value a) (value b).

Definition mock_company (n w d : string) (r : RoundStage) (src : string) : Company :=
  mkCompany n w d r src None "" "".

(** The dict literal, in its insertion order. *)
Definition mock_portfolio_data : list (string * list Company) :=
    [ ("EIP",
       [ mock_company "GridPulse" "https://gridpulse.example.com"
           "Smart grid analytics for utility operators." SERIES_A "EIP";
         mock_company "ThermaLoop" "https://thermaloop.example.com"
           "Industrial efficiency platform reducing heat loss." SERIES_C "EIP";
         mock_company "VoltStor" "https://voltstor.example.com"
           "Long-duration energy storage systems for renewables." SERIES_D "EIP" ]);
      ("SET",
       [ mock_company "FluxCharge" "https://fluxcharge.example.com"
           "Energy management software for commercial buildings." SEED "SET";
         mock_company "AeroGrid" "https://aerogrid.example.com"
           "Smart grid optimization for distributed resources." SERIES_B "SET";
         mock_company "SunPeak" "https://sunpeak.example.com"
           "Residential solar financing platform." SERIES_E "SET" ]) ].

Definition load_enrichment_map : gmap string RoundStage :=
  list_to_map
    [ ("gridpulse", SERIES_A); ("thermaloop", SERIES_C); ("voltstor", SERIES_D);
      ("fluxcharge", SEED); ("aerogrid", SERIES_B); ("sunpeak", SERIES_E) ].

Definition fill_missing_fields (company : Company) (mock_map : gmap string Company)
  : Company :=
  let key := Py.lower (name company) in
  match mock_map !! key with
  | Some mock =>
      let company :=
        if negb (str_truthy (website company))
        then set_website (website mock) company else company in
      if round_eq (last_round company) UNKNOWN
      then set_last_round (last_round mock) company else company
  | None => company
  end.

Definition rounds : list RoundStage :=
  [SEED; SERIES_A; SERIES_B; SERIES_C; SERIES_D].

(** [None] stands for an exception ([ValueError] of [int], [IndexError]). *)
Definition _hash_round_stage (name : string) : option RoundStage :=
  if negb (str_truthy name) then Some SEED
  else
    let digest := Sha256.hexdigest (Py.encode_utf8 (Py.lower name)) in
    n ← Py.int16 digest;
    let index := n mod Z.of_nat (length rounds) in
    Py.index rounds index.

Definition enrich_round (company : Company) (round_map : gmap string RoundStage)
  : option Company :=
  if negb (round_eq (last_round company) UNKNOWN) then Some company
  else
    let enriched := round_map !! Py.lower (name company) in
    match enriched with
    | Some e =>
        if round_truthy e then Some (set_last_round e company)
        else r ← _hash_round_stage (name company); Some (set_last_round r company)
    | None => r ← _hash_round_stage (name company); Some (set_last_round r company)
    end.

(** [class _MetaDescriptionParser(HTMLParser)] *)
Module _MetaDescriptionParser.

Record t : Type := mk {
  meta_description : string;
  og_description : string;
  first_paragraph : string;
  _in_paragraph : bool
}.

Definition init : t := mk "" "" "" false.

Definition handle_starttag (self : t) (tag : string)
    (attrs : list (string * option string)) : t :=
  let self :=
    if String.eqb (Py.lower tag) "meta" then
      let attr_map := Html.attr_map attrs in
      let name := Py.lower (Html.get attr_map "name") in
      let prop := Py.lower (Html.get attr_map "property") in
      let content := Py.strip (Html.get attr_map "content") in
      let self :=
        if String.eqb name "description" && str_truthy content
           && negb (str_truthy (meta_description self))
        then mk content (og_description self) (first_paragraph self) (_in_paragraph self)
        else self in
      if String.eqb prop "og:description" && str_truthy content
         && negb (str_truthy (og_description self))
      then mk (meta_description self) content (first_paragraph self) (_in_paragraph self)
      else self
    else self in
  if String.eqb (Py.lower tag) "p" && negb (str_truthy (first_paragraph self))
  then mk (meta_description self) (og_description self) (first_paragraph self) true
  else self.

Definition handle_endtag (self : t) (tag : string) : t :=
  if String.eqb (Py.lower tag) "p"
  then mk (meta_description self) (og_description self) (first_paragraph self) false
  else self.

Definition handle_data (self : t) (data : string) : t :=
  if _in_paragraph self && negb (str_truthy (first_paragraph self)) then
    let text := Py.strip data in
    if str_truthy text
    then mk (meta_description self) (og_description self) text (_in_paragraph self)
    else self
  else self.

Definition feed (events : list Html.Event) : t :=
  Html.feed handle_starttag handle_endtag handle_data events init.

End _MetaDescriptionParser.

(** [class _ExternalLinkParser(HTMLParser)] *)
Module _ExternalLinkParser.

Record t : Type := mk { first_external_link : string }.

Definition init : t := mk "".

Definition handle_starttag (self : t) (tag : string)
    (attrs : list (string * option string)) : t :=
  if negb (String.eqb (Py.lower tag) "a") then self
  else
    let attr_map := Html.attr_map attrs in
    let href := Html.get attr_map "href" in
    if negb (str_truthy href)
       || negb (Py.startswith href "http://" || Py.startswith href "https://")
    then self
    else if Py.contains "setventures.com" href then self
    else if negb (str_truthy (first_external_link self)) then mk href
    else self.

Definition feed (events : list Html.Event) : t :=
  Html.feed handle_starttag (fun self _ => self) (fun self _ => self) events init.

End _ExternalLinkParser.

(** [a or b] on [str] *)
Definition str_or (a b : string) : string := if str_truthy a then a else b.

Section WithLibrary.

(** The event sequence [HTMLParser.feed] produces for a document, [None]
    when the library raises on it. *)
Variable html_events : string -> option (list Html.Event).

(** Whether [urllib.request.Request(url, headers=...)] returns: it raises
    [ValueError] for a reference in which it finds no URL type, or whose
    host is a malformed IPv6 literal. *)
Variable request_accepts : string -> bool.

(** The request is built before the [try]: its [ValueError] leaves the
    function, as does what [urlopen] raises beside [URLError] (which
    [HTTPError] is a case of) and [TimeoutError]. *)
Definition _fetch_vc_html (w : Net.World) (url : string) : option (option string) :=
  if negb (request_accepts url) then None
  else
    match Net.urlopen w url with
    | Net.UrlBody body => Some (Some body)
    | Net.UrlHTTPError | Net.UrlURLError | Net.UrlTimeout => Some None
    | Net.UrlOtherError => None
    end.

(** [None] stands for the exception that leaves [_fetch_vc_html] or
    [feed]: the first [feed] comes before the record is written to, and the
    second reads the document the first has read. *)
Definition enrich_from_vc_profile (w : Net.World) (company : Company)
  : option Company :=
  if str_truthy (description company) then Some company
  else if negb (str_truthy (profile_url company)) then Some company
  else
    html ← _fetch_vc_html w (profile_url company);
    match html with
    | None => Some company
    | Some html =>
        if negb (str_truthy html) then Some company
        else
          description_parser ← _MetaDescriptionParser.feed <$> html_events html;
          let description :=
            str_or (_MetaDescriptionParser.meta_description description_parser)
              (str_or (_MetaDescriptionParser.og_description description_parser)
                      (_MetaDescriptionParser.first_paragraph description_parser)) in
          let company :=
            if str_truthy description then set_description description company
            else company in
          if negb (str_truthy (website company)) then
            link_parser ← _ExternalLinkParser.feed <$> html_events html;
            if str_truthy (_ExternalLinkParser.first_external_link link_parser)
            then Some (set_website (_ExternalLinkParser.first_external_link link_parser)
                         company)
            else Some company
          else Some company
    end.

End WithLibrary.

End Enrichment.

(** ** config/portfolio_config.py *)

Module Config.

Definition ENERGY_KEYWORDS : list string :=
  ["smart grid"; "energy"; "energy storage"; "industrial efficiency"].

Definition GEMINI_API_KEY_ENV : string := "GEMINI_API_KEY".
Definition GEMINI_MODEL : string := "gemini-3-flash-preview".

End Config.

(** ** services/llm_client.py: the batch relevance check *)

Module LLM.
Import Config.

(** Outcome of [client.models.generate_content]: an exception, or a response
    whose [text] may be [None]. *)
Inductive Reply : Type :=
  | Raised
  | Response (text : option string).

(** The process environment and the hosted model: whether [google.genai]
    imports, the value of [os.environ.get(GEMINI_API_KEY_ENV)], and the reply
    to a request (API key, model, contents). *)
Record Env : Type := mkEnv {
  genai_importable : bool;
  api_key : option string;
  generate_content : string -> string -> string -> Reply
}.

(** [genai.Client(api_key=...)] *)
Record Client : Type := mkClient { client_key : string }.

(** The module global [_client], and the contents sent to the model so far. *)
Record State : Type := mkState {
  _client : option Client;
  sent : list string
}.

Definition M (A : Type) : Type := State -> A * State.

#[global] Instance M_ret : MRet M := fun A (a : A) st => (a, st).
#[global] Instance M_bind : MBind M :=
  fun A B (k : A -> M B) (m : M A) st => let '(a, st') := m st in k a st'.

Definition _get_client (env : Env) : M (option Client) := fun st =>
  match _client st with
  | Some client => (Some client, st)
  | None =>
      if negb (genai_importable env) then (None, st)
      else
        match api_key env with
        | Some key =>
            if negb (str_truthy key) then (None, st)
            else (Some (mkClient key), mkState (Some (mkClient key)) (sent st))
        | None => (None, st)
        end
  end.

(** The call [client.models.generate_content(model=GEMINI_MODEL, contents=...)]. *)
Definition call_model (env : Env) (client : Client) (contents : string) : M Reply :=
  fun st =>
    (generate_content env (client_key client) GEMINI_MODEL contents,
     mkState (_client st) (sent st ++ [contents])).

Definition nl : string := String "010" EmptyString.

Definition bulk_prompt (descriptions keywords : list string) : string :=
  "You will receive a JSON array of company descriptions. " +:+
  "For each description, decide if it is relevant to energy investing. " +:+
  "Keywords: " +:+ Py.join ", " keywords +:+ ". " +:+
  "Return a JSON array of booleans with the same length and order, no extra text." +:+
  nl +:+ nl +:+ "Descriptions:" +:+ nl +:+ Py.json_dumps descriptions.

(** [bool(item) if isinstance(item, bool) else False] *)
Definition bool_item (item : Py.PyObj) : bool :=
  match item with
  | Py.PyBool b => b
  | _ => false
  end.

(** The lines between the call and [json.loads], the same in each request
    function: [(response.text or "").strip()], then the code fence removed. *)
Definition strip_code_fence (text : option string) : string :=
  let raw_text := Py.strip (default "" text) in
  if Py.startswith raw_text "```"
  then Py.strip (Py.replace_first "json" "" (Py.strip_chars "`" raw_text))
  else raw_text.

Section WithJson.

(** [json.loads].  The sources catch [TypeError], which a [str] argument
    does not raise, and [JSONDecodeError]; any other exception leaves the
    calling function. *)
Variable json_loads : string -> Py.JsonResult.

(** [None] stands for the exception of [json.loads] that is not caught. *)
Definition llm_filter_energy_bulk (env : Env) (descriptions keywords : list string)
  : M (option (list bool)) :=
  match descriptions with
  | [] => mret (Some [])
  | _ :: _ =>
      client ← _get_client env;
      match client with
      | None => mret (Some (replicate (length descriptions) false))
      | Some client =>
          let prompt := bulk_prompt descriptions keywords in
          response ← call_model env client prompt;
          match response with
          | Raised => mret (Some (replicate (length descriptions) false))
          | Response text =>
              let raw_text := strip_code_fence text in
              match json_loads raw_text with
              | Py.JsonOtherError => mret None
              | Py.JsonDecodeError => mret (Some (replicate (length descriptions) false))
              | Py.JsonValue (Py.PyList parsed) =>
                  if negb (length parsed =? length descriptions)%nat
                  then mret (Some (replicate (length descriptions) false))
                  else mret (Some (map bool_item parsed))
              | Py.JsonValue _ => mret (Some (replicate (length descriptions) false))
              end
          end
      end
  end.

End WithJson.

End LLM.

(** ** services/portfolio_filtering.py *)

Module Filtering.
Import Config LLM.

Definition EARLY_STAGE_ALLOWED : gset RoundStage :=
  {[ SEED; SERIES_A; SERIES_B; SERIES_C ]}.

Definition LATE_STAGE_BLOCKED : gset RoundStage :=
  {[ SERIES_D; SERIES_E; SERIES_F; SERIES_G; IPO; PUBLIC ]}.

Definition is_round_eligible (round_stage : RoundStage) : bool :=
  if negb (round_truthy round_stage) then false
  else if bool_decide (round_stage ∈ LATE_STAGE_BLOCKED) then false
  else bool_decide (round_stage ∈ EARLY_STAGE_ALLOWED).

(** [enumerate(items)] *)
Definition enumerate {A} (items : list A) : list (nat * A) :=
  zip (seq 0 (length items)) items.

(** First loop of [filter_relevant]: one step on
    [(eligible_indices, descriptions)]. *)
Definition gather_step (acc : list nat * list string) (entry : nat * Company)
  : list nat * list string :=
  let '(eligible_indices, descriptions) := acc in
  let '(index, company) := entry in
  if negb (is_round_eligible (last_round company)) then acc
  else if negb (str_truthy (description company)) then acc
  else (eligible_indices ++ [index], descriptions ++ [description company]).

(** Second loop of [filter_relevant]; [None] stands for [IndexError]. *)
Fixpoint collect (companies : list Company) (pairs : list (nat * bool))
    (relevant : list Company) : option (list Company) :=
  match pairs with
  | [] => Some relevant
  | (idx, is_match) :: pairs' =>
      if is_match
      then company ← companies !! idx; collect companies pairs' (relevant ++ [company])
      else collect companies pairs' relevant
  end.

Section WithJson.

Variable json_loads : string -> Py.JsonResult.

(** [None] stands for an exception: the one that leaves
    [llm_filter_energy_bulk], or [IndexError]. *)
Definition filter_relevant (env : Env) (companies : list Company)
  : M (option (list Company)) :=
  let '(eligible_indices, descriptions) :=
    fold_left gather_step (enumerate companies) ([], []) in
  match descriptions with
  | [] => mret (Some [])
  | _ :: _ =>
      matches ← llm_filter_energy_bulk json_loads env descriptions ENERGY_KEYWORDS;
      match matches with
      | None => mret None
      | Some matches => mret (collect companies (zip eligible_indices matches) [])
      end
  end.

End WithJson.

End Filtering.

(** ** re: backtracking matchers for the two patterns of the scraper *)

Module Re.

(** [\w]: letters, digits and the underscore. *)
Definition is_word (c : ascii) : bool :=
  Py.in_range 48 57 c || Py.in_range 65 90 c || N.eqb (Py.code c) 95 ||
  Py.in_range 97 122 c || N.eqb (Py.code c) 170 || Py.in_range 178 179 c ||
  N.eqb (Py.code c) 181 || Py.in_range 185 186 c || Py.in_range 188 190 c ||
  Py.in_range 192 214 c || Py.in_range 216 246 c || Py.in_range 248 255 c.

(** The character before the position reached after reading [t]. *)
Fixpoint last_char (prev : option ascii) (t : string) : option ascii :=
  match t with
  | EmptyString => prev
  | String c t' => last_char (Some c) t'
  end.

Definition first_char (s : string) : option ascii :=
  match s with
  | EmptyString => None
  | String c _ => Some c
  end.

Definition word_at (c : option ascii) : bool :=
  match c with
  | Some c => is_word c
  | None => false
  end.

(** A matcher starts after the character [prev] with [s] left to read and
    lists every way to match, in the order a backtracking engine tries
    them: the text matched and the text left. *)
Definition Matcher : Type := option ascii -> string -> list (string * string).

(** The empty pattern. *)
Definition eps : Matcher := fun _ s => [(EmptyString, s)].

(** One character of a class. *)
Definition chr (p : ascii -> bool) : Matcher := fun _ s =>
  match s with
  | String c s' => if p c then [(String c EmptyString, s')] else []
  | EmptyString => []
  end.

(** A literal. *)
Definition lit (w : string) : Matcher := fun _ s =>
  if String.prefix w s then [(w, Py.drop_chars (String.length w) s)] else [].

(** [m1 m2] *)
Definition seq (m1 m2 : Matcher) : Matcher := fun prev s =>
  flat_map
    (fun r1 =>
       map (fun r2 => (String.append (fst r1) (fst r2), snd r2))
           (m2 (last_char prev (fst r1)) (snd r1)))
    (m1 prev s).

(** [m1|m2] *)
Definition alt (m1 m2 : Matcher) : Matcher := fun prev s => m1 prev s ++ m2 prev s.

(** [[class]*], greedy: the longest run first, then each shorter one. *)
Fixpoint star_chr (p : ascii -> bool) (s : string) : list (string * string) :=
  match s with
  | String c s' =>
      if p c
      then map (fun r => (String c (fst r), snd r)) (star_chr p s') ++ [(EmptyString, s)]
      else [(EmptyString, s)]
  | EmptyString => [(EmptyString, s)]
  end.

Definition star (p : ascii -> bool) : Matcher := fun _ s => star_chr p s.

(** [[class]+], greedy. *)
Definition plus (p : ascii -> bool) : Matcher := seq (chr p) (star p).

(** [(?:m){0,n}], greedy. *)
Fixpoint upto (n : nat) (m : Matcher) : Matcher :=
  match n with
  | O => eps
  | S n' => alt (seq m (upto n' m)) eps
  end.

(** [\b] *)
Definition word_boundary : Matcher := fun prev s =>
  if xorb (word_at prev) (word_at (first_char s)) then [(EmptyString, s)] else [].

(** Group 1 of the first successful way to match [group] then [tail]. *)
Fixpoint first_group (tail : Matcher) (prev : option ascii)
    (candidates : list (string * string)) : option string :=
  match candidates with
  | [] => None
  | (t, rest) :: candidates' =>
      match tail (last_char prev t) rest with
      | _ :: _ => Some t
      | [] => first_group tail prev candidates'
      end
  end.

(** [re.match(r"(group)tail", s)], giving [match.group(1)]. *)
Definition match_group (group tail : Matcher) (s : string) : option string :=
  first_group tail None (group None s).

(** [re.search(r"guard(group)tail", s)] for a zero-width [guard], giving
    [match.group(1)]: the start positions are tried from left to right. *)
Fixpoint search_from (guard group tail : Matcher) (prev : option ascii) (s : string)
  : option string :=
  let here :=
    match guard prev s with
    | _ :: _ => first_group tail prev (group prev s)
    | [] => None
    end in
  match here with
  | Some t => Some t
  | None =>
      match s with
      | EmptyString => None
      | String c s' => search_from guard group tail (Some c) s'
      end
  end.

Definition search_group (guard group tail : Matcher) (s : string) : option string :=
  search_from guard group tail None s.

End Re.

(** ** services/portfolio_scraper.py *)

Module Scraper.

(** [class AnchorTextParser(HTMLParser)] *)
Module AnchorTextParser.

Record t : Type := mk { in_anchor : bool; anchors : list string }.

Definition init : t := mk false [].

Definition handle_starttag (self : t) (tag : string)
    (attrs : list (string * option string)) : t :=
  if String.eqb (Py.lower tag) "a" then mk true (anchors self) else self.

Definition handle_endtag (self : t) (tag : string) : t :=
  if String.eqb (Py.lower tag) "a" then mk false (anchors self) else self.

Definition handle_data (self : t) (data : string) : t :=
  if in_anchor self then
    let text := Py.strip data in
    if str_truthy text then mk (in_anchor self) (anchors self ++ [text]) else self
  else self.

Definition feed (events : list Html.Event) : t :=
  Html.feed handle_starttag handle_endtag handle_data events init.

End AnchorTextParser.

(** [class AnchorLinkParser(HTMLParser)] *)
Module AnchorLinkParser.

Record t : Type := mk {
  in_anchor : bool;
  current_href : option string;
  links : list (string * string)
}.

Definition init : t := mk false None [].

(** The loop over [attrs] that stops at the first [href] with a value. *)
Fixpoint first_href (attrs : list (string * option string)) : string :=
  match attrs with
  | [] => ""
  | (key, value) :: attrs' =>
      if String.eqb (Py.lower key) "href" && str_truthy (default "" value)
      then default "" value
      else first_href attrs'
  end.

Definition handle_starttag (self : t) (tag : string)
    (attrs : list (string * option string)) : t :=
  if String.eqb (Py.lower tag) "a"
  then mk true (Some (first_href attrs)) (links self)
  else self.

Definition handle_endtag (self : t) (tag : string) : t :=
  if String.eqb (Py.lower tag) "a" then mk false None (links self) else self.

Definition handle_data (self : t) (data : string) : t :=
  if in_anchor self && str_truthy (default "" (current_href self)) then
    let text := Py.strip data in
    if str_truthy text
    then mk (in_anchor self) (current_href self)
            (links self ++ [(text, default "" (current_href self))])
    else self
  else self.

Definition feed (events : list Html.Event) : t :=
  Html.feed handle_starttag handle_endtag handle_data events init.

End AnchorLinkParser.

(** [re.sub(r"\s+", " ", text).strip()] *)
Definition clean (text : string) : string := Py.strip (Py.sub_ws false text).

(** [2 <= len(cleaned) <= 60] *)
Definition length_ok (cleaned : string) : bool :=
  (2 <=? String.length cleaned)%nat && (String.length cleaned <=? 60)%nat.

(** [href.startswith(("http://", "https://"))] *)
Definition is_http (href : string) : bool :=
  Py.startswith href "http://" || Py.startswith href "https://".

(** Loops of [extract_company_names_from_html], one step each. *)
Definition names_step (names : list string) (text : string) : list string :=
  let cleaned := clean text in
  if length_ok cleaned then names ++ [cleaned] else names.

Definition unique_step (acc : gset string * list string) (name : string)
  : gset string * list string :=
  let '(seen, unique) := acc in
  let key := Py.lower name in
  if bool_decide (key ∉ seen) then ({[key]} ∪ seen, unique ++ [name]) else acc.

(** Loop of [extract_company_entries_from_html], one step. *)
Definition entries_step (acc : gset string * list (string * string))
    (link : string * string) : gset string * list (string * string) :=
  let '(seen, entries) := acc in
  let '(text, href) := link in
  let cleaned := clean text in
  if negb (length_ok cleaned) then acc
  else if negb (is_http href) then acc
  else
    let key := Py.lower cleaned in
    if bool_decide (key ∈ seen) then acc
    else ({[key]} ∪ seen, entries ++ [(cleaned, href)]).

Section WithParser.

(** The event sequence [HTMLParser.feed] produces for a document, [None]
    when the library raises on it. *)
Variable html_events : string -> option (list Html.Event).

(** In both functions [None] stands for the exception that leaves [feed]. *)
Definition extract_company_names_from_html (html : string) : option (list string) :=
  parser ← AnchorTextParser.feed <$> html_events html;
  let names := fold_left names_step (AnchorTextParser.anchors parser) [] in
  let '(seen, unique) := fold_left unique_step names (∅, []) in
  Some unique.

Definition extract_company_entries_from_html (html : string)
  : option (list (string * string)) :=
  parser ← AnchorLinkParser.feed <$> html_events html;
  let '(seen, entries) := fold_left entries_step (AnchorLinkParser.links parser) (∅, []) in
  Some entries.

End WithParser.

(** [class EIPPortfolioParser(HTMLParser)] *)
Module EIPPortfolioParser.

Record t : Type := mk {
  _in_overlay : bool;
  _in_text : bool;
  _overlay_div_depth : Z;
  _current_description : list string;
  _current_site : string;
  entries : list (string * string)
}.

Definition init : t := mk false false 0 [] "" [].

Definition handle_starttag (self : t) (tag : string)
    (attrs : list (string * option string)) : t :=
  let attr_map := Html.attr_map attrs in
  let self :=
    if String.eqb (Py.lower tag) "div"
       && Py.contains "portfolio-item-overlay" (Html.get attr_map "class")
    then mk true (_in_text self) 1 [] "" (entries self)
    else if _in_overlay self && String.eqb (Py.lower tag) "div"
    then mk (_in_overlay self) (_in_text self) (_overlay_div_depth self + 1)
            (_current_description self) (_current_site self) (entries self)
    else self in
  let self :=
    if _in_overlay self && String.eqb (Py.lower tag) "div"
       && Py.contains "text" (Html.get attr_map "class")
    then mk (_in_overlay self) true (_overlay_div_depth self)
            (_current_description self) (_current_site self) (entries self)
    else self in
  if _in_overlay self && String.eqb (Py.lower tag) "a"
     && Py.contains "portfolio-site-url" (Html.get attr_map "class")
  then
    let href := Html.get attr_map "href" in
    if str_truthy href
    then mk (_in_overlay self) (_in_text self) (_overlay_div_depth self)
            (_current_description self) href (entries self)
    else self
  else self.

Definition handle_endtag (self : t) (tag : string) : t :=
  let self :=
    if _in_overlay self && String.eqb (Py.lower tag) "div" && _in_text self
    then mk (_in_overlay self) false (_overlay_div_depth self)
            (_current_description self) (_current_site self) (entries self)
    else self in
  if _in_overlay self && String.eqb (Py.lower tag) "div" then
    let depth := _overlay_div_depth self - 1 in
    if 0 <? depth
    then mk (_in_overlay self) (_in_text self) depth
            (_current_description self) (_current_site self) (entries self)
    else
      let description := Py.strip (Py.join " " (_current_description self)) in
      let entries' :=
        if str_truthy description || str_truthy (_current_site self)
        then entries self ++ [(description, _current_site self)]
        else entries self in
      mk false (_in_text self) depth
         (_current_description self) (_current_site self) entries'
  else self.

Definition handle_data (self : t) (data : string) : t :=
  if _in_overlay self && _in_text self then
    let text := Py.strip data in
    if str_truthy text
    then mk (_in_overlay self) (_in_text self) (_overlay_div_depth self)
            (_current_description self ++ [text]) (_current_site self) (entries self)
    else self
  else self.

Definition feed (events : list Html.Event) : t :=
  Html.feed handle_starttag handle_endtag handle_data events init.

End EIPPortfolioParser.

(** [class SetVenturesParser(HTMLParser)] *)
Module SetVenturesParser.

Record t : Type := mk { entries : list (string * string) }.

Definition init : t := mk [].

Definition handle_starttag (self : t) (tag : string)
    (attrs : list (string * option string)) : t :=
  if negb (String.eqb (Py.lower tag) "a") then self
  else
    let attr_map := Html.attr_map attrs in
    if Py.contains "nectar-post-grid-link" (Html.get attr_map "class") then
      let name := Py.strip (Html.get attr_map "aria-label") in
      let href := Py.strip (Html.get attr_map "href") in
      if str_truthy name && str_truthy href
      then mk (entries self ++ [(name, href)])
      else self
    else self.

Definition feed (events : list Html.Event) : t :=
  Html.feed handle_starttag (fun self _ => self) (fun self _ => self) events init.

End SetVenturesParser.

(** The character classes and pieces of the two patterns. *)
Definition upper_AZ (c : ascii) : bool := Py.in_range 65 90 c.

(** [[A-Za-z0-9&.+-]] *)
Definition name_char (c : ascii) : bool :=
  Py.in_range 65 90 c || Py.in_range 97 122 c || Py.in_range 48 57 c ||
  Py.mem_char c "&.+-".

(** The class before the [s], by the code points of its four members:
    U+00E2, U+20AC, U+2122 and the apostrophe. *)
Definition marker_class : list N := [226; 8364; 8482; 39]%N.

Definition marker (c : ascii) : bool :=
  existsb (N.eqb (Py.code c)) marker_class.

(** [[A-Z][A-Za-z0-9&.+-]*] *)
Definition token : Re.Matcher := Re.seq (Re.chr upper_AZ) (Re.star name_char).

(** Group 1 of both patterns: a token, then at most three times
    whitespace and a token, [token(?:\s+token){0,3}]. *)
Definition phrase : Re.Matcher :=
  Re.seq token (Re.upto 3 (Re.seq (Re.plus Py.is_space) token)).

(** [[...']s\b] *)
Definition possessive_tail : Re.Matcher :=
  Re.seq (Re.chr marker) (Re.seq (Re.lit "s") Re.word_boundary).

Definition verbs : list string :=
  ["is"; "are"; "provides"; "develops"; "builds"; "offers"; "delivers"; "enables"].

(** [(is|are|provides|develops|builds|offers|delivers|enables)] *)
Definition verb : Re.Matcher := fun prev s => flat_map (fun w => Re.lit w prev s) verbs.

(** [\s+(is|are|...)\b] *)
Definition verb_tail : Re.Matcher :=
  Re.seq (Re.plus Py.is_space) (Re.seq verb Re.word_boundary).

Section WithLibrary.

Variable html_events : string -> option (list Html.Event).

(** [urlparse(website).hostname or ""], and [""] when [urlparse] raises
    [ValueError]. *)
Variable urlparse_hostname : string -> string.

(** [unquote(urlparse(url).path)] of a [file://] reference; [None] for the
    [ValueError] [urlparse] raises on a malformed authority. *)
Variable file_url_path : string -> option string.

(** Whether [urllib.request.Request(url, headers=...)] returns: it raises
    [ValueError] for a reference in which it finds no URL type, or whose
    host is a malformed IPv6 literal. *)
Variable request_accepts : string -> bool.

(** The outer [None] stands for an exception that leaves the function:
    reading a file is guarded against [OSError] only, the request is built
    before the [try], and only [HTTPError], [URLError] and [TimeoutError]
    are caught after it. *)
Definition fetch_html (w : Net.World) (url : string) : option (option string) :=
  if Py.startswith url "file://" then
    local_path ← file_url_path url;
    match Net.read_bytes w local_path with
    | Net.FileBody body => Some (Some body)
    | Net.FileOSError => Some None
    | Net.FileOtherError => None
    end
  else
    found ← Net.path_exists w url;
    if found : bool then
      match Net.read_bytes w url with
      | Net.FileBody body => Some (Some body)
      | Net.FileOSError => Some None
      | Net.FileOtherError => None
      end
    else if negb (request_accepts url) then None
    else
      match Net.urlopen w url with
      | Net.UrlBody body => Some (Some body)
      | Net.UrlHTTPError => Some None
      | Net.UrlURLError | Net.UrlTimeout => Some None
      | Net.UrlOtherError => None
      end.

Definition infer_company_name (description website : string) : string :=
  let from_description :=
    if str_truthy description then
      match Re.match_group phrase possessive_tail description with
      | Some group1 => Some (Py.strip group1)
      | None =>
          match Re.search_group Re.word_boundary phrase verb_tail description with
          | Some group1 => Some (Py.strip group1)
          | None => None
          end
      end
    else None in
  match from_description with
  | Some name => name
  | None =>
      if str_truthy website then
        let host := urlparse_hostname website in
        let host := Py.replace "www." "" host in
        if str_truthy host then
          let primary := Py.split_head "." host in
          Py.title (Py.replace "_" " " (Py.replace "-" " " primary))
        else "Unknown"
      else "Unknown"
  end.

Definition build_company_from_name (name source website description profile_url : string)
  : Company :=
  mkCompany name website description UNKNOWN source None "" profile_url.

(** [companies or fallback] *)
Definition list_or {A} (l fallback : list A) : list A :=
  match l with
  | [] => fallback
  | _ :: _ => l
  end.

(** [None] stands for the exception that leaves [fetch_html] or [feed]. *)
Definition scrape_portfolio (w : Net.World) (url source : string)
    (fallback : list Company) : option (list Company) :=
  html ← fetch_html w url;
  match html with
  | None => Some fallback
  | Some html =>
      if negb (str_truthy html) then Some fallback
      else if Py.contains "energyimpactpartners.com" url then
        parser ← EIPPortfolioParser.feed <$> html_events html;
        let companies :=
          map (fun entry =>
                 let '(description, website) := entry in
                 let name := infer_company_name description website in
                 build_company_from_name name source website description "")
              (EIPPortfolioParser.entries parser) in
        Some (list_or companies fallback)
      else if Py.contains "setventures.com" url then
        parser ← SetVenturesParser.feed <$> html_events html;
        let companies :=
          map (fun entry =>
                 let '(name, profile_url) := entry in
                 let clean_name := if Py.isupper name then Py.title name else name in
                 build_company_from_name clean_name source "" "" profile_url)
              (SetVenturesParser.entries parser) in
        Some (list_or companies fallback)
      else
        entries ← extract_company_entries_from_html html_events html;
        match entries with
        | _ :: _ =>
            Some (map (fun entry =>
                         build_company_from_name (fst entry) source (snd entry) "" "")
                      entries)
        | [] =>
            names ← extract_company_names_from_html html_events html;
            match names with
            | [] => Some fallback
            | _ :: _ =>
                Some (map (fun name => build_company_from_name name source "" "" "") names)
            end
        end
  end.

End WithLibrary.

End Scraper.

(** ** services/llm_client.py: the single check and the name extraction *)

(** [gemini_healthcheck] is left out: it compares [str(parsed[0])], the
    string form of an arbitrary JSON value. *)

Module LLMRequests.
Import Config LLM.

Definition LLM_HTML_CHAR_LIMIT : N := 120000.

(** [s[:n]] for a count [n] *)
Fixpoint take_chars (n : nat) (s : string) : string :=
  match n, s with
  | S n', String c s' => String c (take_chars n' s')
  | _, _ => EmptyString
  end.

Definition match_prompt (description : string) (keywords : list string) : string :=
  "Decide if the company description is relevant to energy investing. " +:+
  "Keywords: " +:+ Py.join ", " keywords +:+ ". " +:+
  "Return a JSON boolean only." +:+ nl +:+ nl +:+
  "Description:" +:+ nl +:+ description.

Definition extraction_prompt (trimmed_html : string) : string :=
  "Extract company names from the HTML below. " +:+
  "Return a JSON array of unique company names as strings, no extra text." +:+
  nl +:+ nl +:+ "HTML:" +:+ nl +:+ trimmed_html.

(** Loop of [extract_company_names_with_gemini]: one step on
    [(cleaned, seen)]. *)
Definition cleaned_step (acc : list string * gset string) (name : Py.PyObj)
  : list string * gset string :=
  let '(cleaned, seen) := acc in
  match name with
  | Py.PyStr name =>
      let cleaned_name := Scraper.clean name in
      if Scraper.length_ok cleaned_name then
        let key := Py.lower cleaned_name in
        if bool_decide (key ∉ seen) then (cleaned ++ [cleaned_name], {[key]} ∪ seen)
        else acc
      else acc
  | _ => acc
  end.

Section WithJson.

Variable json_loads : string -> Py.JsonResult.

(** In both functions [None] stands for the exception of [json.loads] that
    is not caught. *)
Definition llm_matches_energy (env : Env) (description : string)
    (keywords : list string) : M (option bool) :=
  client ← _get_client env;
  match client with
  | None => mret (Some false)
  | Some client =>
      let prompt := match_prompt description keywords in
      response ← call_model env client prompt;
      match response with
      | Raised => mret (Some false)
      | Response text =>
          let raw_text := strip_code_fence text in
          match json_loads raw_text with
          | Py.JsonOtherError => mret None
          | Py.JsonDecodeError => mret (Some false)
          | Py.JsonValue (Py.PyBool parsed) => mret (Some parsed)
          | Py.JsonValue _ => mret (Some false)
          end
      end
  end.

Definition extract_company_names_with_gemini (env : Env) (html : string)
  : M (option (list string)) :=
  client ← _get_client env;
  match client with
  | None => mret (Some [])
  | Some client =>
      let trimmed_html := take_chars (N.to_nat LLM_HTML_CHAR_LIMIT) html in
      let prompt := extraction_prompt trimmed_html in
      response ← call_model env client prompt;
      match response with
      | Raised => mret (Some [])
      | Response text =>
          let raw_text := strip_code_fence text in
          match json_loads raw_text with
          | Py.JsonOtherError => mret None
          | Py.JsonDecodeError => mret (Some [])
          | Py.JsonValue (Py.PyList names) =>
              let '(cleaned, seen) := fold_left cleaned_step names ([], ∅) in
              mret (Some cleaned)
          | Py.JsonValue _ => mret (Some [])
          end
      end
  end.

End WithJson.

End LLMRequests.

(** ** services/portfolio_filtering.py: the keyword check and the single check *)

Module Relevance.
Import Config LLM Filtering LLMRequests.

Definition matches_energy_keywords (text : string) : bool :=
  let lowered := Py.lower text in
  existsb (fun keyword => Py.contains keyword lowered) ENERGY_KEYWORDS.

Section WithJson.

Variable json_loads : string -> Py.JsonResult.

(** [None] stands for the exception that leaves [llm_matches_energy]. *)
Definition is_relevant (env : Env) (company : Company) : M (option bool) :=
  if negb (is_round_eligible (last_round company)) then mret (Some false)
  else if negb (str_truthy (description company)) then mret (Some false)
  else llm_matches_energy json_loads env (description company) ENERGY_KEYWORDS.

End WithJson.

End Relevance.

(** ** exporters/protfolio_csv_exporter.py *)

Module Exporter.

Definition header : list string :=
  ["company_name"; "website"; "description"; "source"; "last_round"].

(** The fields of one record; [getattr(company.last_round, "value", ...)] is
    the value of the member. *)
Definition row (company : Company) : list string :=
  [name company; website company; description company; source company;
   value (last_round company)].

(** The rows handed to [writer.writerow], in order. *)
Definition protfolio_csv_exporter (companies : list Company) : list (list string) :=
  header :: map row companies.

End Exporter.

(** ** hitachi_energy_portfolio.py: the entry point *)

Module Pipeline.
Import Config LLM Filtering Enrichment Scraper Exporter.

Definition EIP_PORTFOLIO_URLS : list string :=
  ["https://www.energyimpactpartners.com/_portfolio/"].
Definition SET_PORTFOLIO_URLS : list string :=
  ["https://www.setventures.com/portfolio/"].
Definition EIP_LOCAL_HTML : string := "data/energyimpacters.html".
Definition SET_LOCAL_HTML : string := "data/setventures.html".

(** [d[key]] on a dict given by its items; [None] stands for [KeyError]. *)
Fixpoint getitem {V : Type} (d : list (string * V)) (key : string) : option V :=
  match d with
  | [] => None
  | (k, v) :: d' => if String.eqb k key then Some v else getitem d' key
  end.

(** [not l] on a list *)
Definition list_empty {A : Type} (l : list A) : bool :=
  match l with
  | [] => true
  | _ :: _ => false
  end.

Section WithLibrary.

Variable html_events : string -> option (list Html.Event).
Variable urlparse_hostname : string -> string.
Variable file_url_path : string -> option string.
Variable request_accepts : string -> bool.
Variable json_loads : string -> Py.JsonResult.

(** The loop of [scrape_portfolios] from the list [companies] on; [None]
    stands for the exception that leaves [scrape_portfolio]. *)
Fixpoint scrape_each (w : Net.World) (urls : list string) (source : string)
    (companies : list Company) : option (list Company) :=
  match urls with
  | [] => Some companies
  | url :: urls' =>
      found ← scrape_portfolio html_events urlparse_hostname file_url_path
                request_accepts w url source [];
      scrape_each w urls' source (companies ++ found)
  end.

Definition scrape_portfolios (w : Net.World) (urls : list string) (source : string)
    (fallback : list Company) : option (list Company) :=
  companies ← scrape_each w urls source [];
  Some (list_or companies fallback).

(** The body of the enrichment loop of [main]. *)
Definition enrich_company (w : Net.World) (mock_lookup : gmap string Company)
    (enrichment_map : gmap string RoundStage) (company : Company) : option Company :=
  company ← enrich_from_vc_profile html_events request_accepts w company;
  let company := fill_missing_fields company mock_lookup in
  enrich_round company enrichment_map.

(** [main()] with [sys.argv] as [argv]: the rows written to
    [hitachi_relevant_companies.csv], [None] when an exception ends the run.
    The records of the mock data are shared with [mock_lookup]; no step
    writes to them, as they have a description, a website and a round. *)
Definition main (argv : list string) (w : Net.World) (env : Env)
  : M (option (list (list string))) := fun st =>
  let use_mock := bool_decide ("--use-mock" ∈ argv) in
  let no_filter := bool_decide ("--no-filter" ∈ argv) in
  let mock_data := mock_portfolio_data in
  let mock_lookup : gmap string Company :=
    fold_left (fun m c => <[Py.lower (name c) := c]> m)
              (concat (map snd mock_data)) ∅ in
  let enrichment_map := load_enrichment_map in
  let enriched : option (list Company) :=
    eip_companies ←
      (if use_mock then getitem mock_data "EIP"
       else
         eip_companies ← scrape_portfolios w EIP_PORTFOLIO_URLS "EIP" [];
         if list_empty eip_companies && str_truthy EIP_LOCAL_HTML then
           fallback ← getitem mock_data "EIP";
           scrape_portfolios w [EIP_LOCAL_HTML] "EIP" fallback
         else if list_empty eip_companies then getitem mock_data "EIP"
         else Some eip_companies);
    set_companies ←
      (if use_mock then getitem mock_data "SET"
       else
         set_companies ← scrape_portfolios w SET_PORTFOLIO_URLS "SET" [];
         if list_empty set_companies && str_truthy SET_LOCAL_HTML then
           fallback ← getitem mock_data "SET";
           scrape_portfolios w [SET_LOCAL_HTML] "SET" fallback
         else if list_empty set_companies then getitem mock_data "SET"
         else Some set_companies);
    let all_companies := eip_companies ++ set_companies in
    mapM (enrich_company w mock_lookup enrichment_map) all_companies in
  match enriched with
  | None => (None, st)
  | Some enriched =>
      if no_filter then (Some (protfolio_csv_exporter enriched), st)
      else
        let '(relevant, st') := filter_relevant json_loads env enriched st in
        (protfolio_csv_exporter <$> relevant, st')
  end.

End WithLibrary.

End Pipeline.

(** ** Notions used to state the properties of enrichment *)

Module EnrichmentSpec.
Import Enrichment.

(** The value the non-empty branch computes. *)
Definition hashed_round (name : string) : option RoundStage :=
  Py.index [SEED; SERIES_A; SERIES_B; SERIES_C; SERIES_D]
    (Sha256.be_value (Sha256.digest (Py.encode_utf8 (Py.lower name))) mod 5).

(** [mock_lookup] of the entry point: the mock records by lowercased name. *)
Definition mock_lookup : gmap string Company :=
  fold_left (fun m c => <[Py.lower (name c) := c]> m)
            (concat (map snd mock_portfolio_data)) ∅.

(** A world in which every request times out. *)
Definition offline_world : Net.World :=
  Net.mkWorld (fun _ => Some false) (fun _ => Net.FileOSError) (fun _ => Net.UrlTimeout).

(** A record as layout B yields it: a name, a profile page, nothing else. *)
Definition build_profile_stub (url : string) : Company :=
  mkCompany "Fluxcharge" "" "" UNKNOWN "SET" None "" url.

End EnrichmentSpec.

(** ** Notions used to state the properties of the batch filter *)

Module FilteringSpec.
Import Config LLM Filtering.

(** A record passes the round gate and has a description. *)
Definition survivor (c : Company) : bool :=
  is_round_eligible (last_round c) && str_truthy (description c).

(** Positions, counted from [k], of the survivors of a list. *)
Fixpoint positions (k : nat) (cs : list Company) : list nat :=
  match cs with
  | [] => []
  | c :: cs' =>
      if survivor c then k :: positions (S k) cs' else positions (S k) cs'
  end.

(** What the classifier answers to a batch: [None] when there is no client or
    the call raises, else what [json.loads] does with the unfenced text. *)
Definition parsed_reply (json_loads : string -> Py.JsonResult) (env : Env)
    (st : State) (descriptions keywords : list string) : option Py.JsonResult :=
  match fst (_get_client env st) with
  | None => None
  | Some client =>
      match generate_content env (client_key client) GEMINI_MODEL
              (bulk_prompt descriptions keywords) with
      | Raised => None
      | Response text => Some (json_loads (strip_code_fence text))
      end
  end.

(** The text of the batch request before the descriptions. *)
Definition bulk_intro (keywords : list string) : string :=
  "You will receive a JSON array of company descriptions. " +:+
  "For each description, decide if it is relevant to energy investing. " +:+
  "Keywords: " +:+ Py.join ", " keywords +:+ ". " +:+
  "Return a JSON array of booleans with the same length and order, no extra text." +:+
  nl +:+ nl +:+ "Descriptions:" +:+ nl.


(** A run of [n] times the character [c]. *)
Fixpoint run_of (c : ascii) (n : nat) : string :=
  match n with
  | O => EmptyString
  | S n' => String c (run_of c n')
  end.

(** A reply that is a JSON array of one integer of 4301 digits. *)
Definition long_integer_reply : string := "[" +:+ run_of "1" 4301 +:+ "]".

(** A stand-in for [json.loads] on the replies used in the examples.  On
    the array of one integer of 4301 digits [json.loads] raises
    [ValueError]: the conversion of a literal to [int] is limited to 4300
    digits. *)
Definition json_loads_table (s : string) : Py.JsonResult :=
  if String.eqb s "[true, false, true]"
  then Py.JsonValue (Py.PyList [Py.PyBool true; Py.PyBool false; Py.PyBool true])
  else if String.eqb s "[true, 1, null]"
  then Py.JsonValue (Py.PyList [Py.PyBool true; Py.PyInt 1; Py.PyNone])
  else if String.eqb s long_integer_reply then Py.JsonOtherError
  else Py.JsonDecodeError.

(** A model that answers every request with the same text. *)
Definition constant_env (text : string) : Env :=
  mkEnv true (Some "key") (fun _ _ _ => Response (Some text)).

Definition fenced_mixed : string := "```json [true, 1, null] ```".

Definition fresh : State := mkState None [].


End FilteringSpec.

(** ** Notions used to state the properties of the generic extractor *)

Module ScraperSpec.
Import Scraper.

(** Whitespace-normalized text: the only whitespace characters are single
    spaces, each between two other characters.  [after_space] tells that the
    previous character was a space (or that the text starts here). *)
Fixpoint ws_normal_from (after_space : bool) (s : string) : bool :=
  match s with
  | EmptyString => negb after_space
  | String c s' =>
      if Py.is_space c
      then Ascii.eqb c " " && negb after_space && ws_normal_from true s'
      else ws_normal_from false s'
  end.

Definition ws_normal (s : string) : bool :=
  match s with
  | EmptyString => true
  | String _ _ => ws_normal_from true s
  end.

(** The whitespace of a text is made of single spaces; [after_space] as above. *)
Fixpoint inner (after_space : bool) (s : string) : Prop :=
  match s with
  | EmptyString => True
  | String c s' =>
      if Py.is_space c then c = " "%char /\ after_space = false /\ inner true s'
      else inner false s'
  end.

(** The anchor texts once cleaned, those of admissible length. *)
Definition name_candidates (anchors : list string) : list string :=
  List.filter length_ok (map clean anchors).

(** The links once cleaned, those of admissible length with an absolute
    http(s) target. *)
Definition entry_candidates (links : list (string * string))
  : list (string * string) :=
  List.filter (fun e => length_ok (fst e) && is_http (snd e))
              (map (fun link => (clean (fst link), snd link)) links).

(** The items of [l] whose key is neither in [seen] nor the key of an
    earlier item. *)
Fixpoint first_occurrences {A : Type} (key : A -> string) (seen : gset string)
    (l : list A) : list A :=
  match l with
  | [] => []
  | x :: l' =>
      if bool_decide (key x ∈ seen) then first_occurrences key seen l'
      else x :: first_occurrences key ({[key x]} ∪ seen) l'
  end.

(** Number of distinct keys of a list. *)
Definition distinct_keys {A : Type} (key : A -> string) (l : list A) : nat :=
  size (list_to_set (map key l) : gset string).

(** A document with three anchors: two spellings of one name and a
    one-letter text. *)
Definition three_anchor_events : list Html.Event :=
  [ Html.StartTag "a" [("href", Some "https://acme.example.com")];
    Html.Data "  Acme   Grid "; Html.EndTag "a";
    Html.StartTag "a" [("href", Some "https://acme.example.com/about")];
    Html.Data "ACME GRID"; Html.EndTag "a";
    Html.StartTag "a" [("href", Some "https://x.example.com")];
    Html.Data "X"; Html.EndTag "a" ].


(** A world with no local files in which every request times out. *)
Definition offline : Net.World :=
  Net.mkWorld (fun _ => Some false) (fun _ => Net.FileOSError) (fun _ => Net.UrlTimeout).

(** A world that serves one page for every URL. *)
Definition serving (body : string) : Net.World :=
  Net.mkWorld (fun _ => Some false) (fun _ => Net.FileOSError) (fun _ => Net.UrlBody body).

(** A world with no local files in which reading a response ends with an
    exception that is neither [URLError] nor [TimeoutError]. *)
Definition resetting : Net.World :=
  Net.mkWorld (fun _ => Some false) (fun _ => Net.FileOSError)
    (fun _ => Net.UrlOtherError).

End ScraperSpec.

(** ** Notions used to state the properties of name inference *)

Module InferSpec.
Import Scraper.

(** Every character of [s] is in the class [p]. *)
Fixpoint all_chars (p : ascii -> bool) (s : string) : bool :=
  match s with
  | EmptyString => true
  | String c s' => p c && all_chars p s'
  end.














(** [urlparse(url).hostname or ""] for a reference without brackets in its
    authority (no IPv6 literal): the scheme is cut at the first colon when
    what precedes is a scheme name, the authority runs from [//] to the
    first of [/], [?], [#], the host follows the last [@] and stops at the
    first colon, and is lowered up to a percent sign. *)
Definition is_c0_or_space (c : ascii) : bool := N.leb (Py.code c) 32.

Definition is_unsafe (c : ascii) : bool :=
  N.eqb (Py.code c) 9 || N.eqb (Py.code c) 10 || N.eqb (Py.code c) 13.

Fixpoint remove_chars (p : ascii -> bool) (s : string) : string :=
  match s with
  | EmptyString => EmptyString
  | String c s' => if p c then remove_chars p s' else String c (remove_chars p s')
  end.

Definition is_ascii_alpha (c : ascii) : bool :=
  Py.in_range 65 90 c || Py.in_range 97 122 c.

Definition is_scheme_char (c : ascii) : bool :=
  is_ascii_alpha c || Py.in_range 48 57 c || Py.mem_char c "+-.".

(** The text before the first character of the class [p]. *)
Fixpoint take_until (p : ascii -> bool) (s : string) : string :=
  match s with
  | EmptyString => EmptyString
  | String c s' => if p c then EmptyString else String c (take_until p s')
  end.

(** The text after the last occurrence of the character [d], or all of it. *)
Fixpoint after_last (d : ascii) (s : string) : string :=
  match s with
  | EmptyString => EmptyString
  | String c s' =>
      if Ascii.eqb c d && negb (Py.mem_char d s') then s'
      else if Py.mem_char d s then after_last d s'
      else s
  end.

Definition is_char (d : ascii) (c : ascii) : bool := Ascii.eqb c d.

Definition drop_scheme (url : string) : string :=
  let head := take_until (is_char ":") url in
  if Py.mem_char ":" url && str_truthy head
     && is_ascii_alpha (default "000"%char (Re.first_char url))
     && all_chars is_scheme_char head
  then Py.drop_chars (S (String.length head)) url
  else url.

Definition hostname_simple (url : string) : string :=
  let url := Py.lstrip_by is_c0_or_space url in
  let url := remove_chars is_unsafe url in
  let url := drop_scheme url in
  if negb (String.prefix "//" url) then EmptyString
  else
    let netloc :=
      take_until (fun c => Py.mem_char c "/?#") (Py.drop_chars 2 url) in
    if Py.mem_char "[" netloc || Py.mem_char "]" netloc then EmptyString
    else
      let hostinfo := after_last "@" netloc in
      let hostname := take_until (is_char ":") hostinfo in
      let host := take_until (is_char "%") hostname in
      String.append (Py.lower host) (Py.drop_chars (String.length host) hostname).

End InferSpec.

(** ** Event streams used in the runs of the model *)

Module ExampleData.
Import Html.

(** Layout A: one overlay block with nested text and a site link. *)
Definition eip_events : list Event :=
  [ StartTag "div" [("class", Some "portfolio-item-overlay")];
    StartTag "div" [("class", Some "text")];
    Data " AeroGrid provides smart grid "; Data "optimization. ";
    EndTag "div";
    StartTag "a" [("class", Some "portfolio-site-url"); ("href", Some "https://aerogrid.example.com")];
    Data "Visit"; EndTag "a";
    EndTag "div";
    StartTag "div" [("class", Some "portfolio-item-overlay")]; EndTag "div" ].

(** Layout B: labelled anchors; an upper-case label is put in title case. *)
Definition set_events : list Event :=
  [ StartTag "a" [("class", Some "nectar-post-grid-link"); ("aria-label", Some " FLUXCHARGE ");
                  ("href", Some "https://www.setventures.com/portfolio/fluxcharge/")];
    EndTag "a";
    StartTag "a" [("class", Some "nectar-post-grid-link"); ("aria-label", None);
                  ("href", Some "https://www.setventures.com/portfolio/none/")];
    EndTag "a" ].

(** A profile page with a meta description and an outbound link. *)
Definition profile_events : list Event :=
  [ StartTag "meta" [("name", Some "Description"); ("content", Some " Energy management software. ")];
    StartTag "p" []; Data "First paragraph."; EndTag "p";
    StartTag "a" [("href", Some "https://www.setventures.com/team/")]; EndTag "a";
    StartTag "a" [("href", Some "https://fluxcharge.example.com")]; EndTag "a" ].

End ExampleData.

(** ** Notions used to state the properties of the requests *)

Module RequestSpec.
Import Config LLM LLMRequests.

(** What the model answers to one request: [None] when there is no client or
    the call raises, else what [json.loads] does with the unfenced text. *)
Definition reply_to (json_loads : string -> Py.JsonResult) (env : Env)
    (st : State) (prompt : string) : option Py.JsonResult :=
  match fst (_get_client env st) with
  | None => None
  | Some client =>
      match generate_content env (client_key client) GEMINI_MODEL prompt with
      | Raised => None
      | Response text => Some (json_loads (strip_code_fence text))
      end
  end.

(** The text of the extraction request before the document. *)
Definition extraction_intro : string :=
  "Extract company names from the HTML below. " +:+
  "Return a JSON array of unique company names as strings, no extra text." +:+
  nl +:+ nl +:+ "HTML:" +:+ nl.

(** The request a call with a client at hand sends. *)
Definition request_of (env : Env) (st : State) (prompt : string) : list string :=
  match fst (_get_client env st) with
  | Some _ => [prompt]
  | None => []
  end.

(** The [str] items of a list, in order. *)
Fixpoint strings (items : list Py.PyObj) : list string :=
  match items with
  | [] => []
  | Py.PyStr s :: items' => s :: strings items'
  | _ :: items' => strings items'
  end.

(** No character of [s] is [c]. *)
Definition free_of (c : ascii) (s : string) : bool :=
  InferSpec.all_chars (fun x => negb (Ascii.eqb x c)) s.

(** A stand-in for [json.loads] on the replies used in the examples. *)
Definition json_loads_small (s : string) : Py.JsonResult :=
  if String.eqb s "true" then Py.JsonValue (Py.PyBool true)
  else if String.eqb s "false" then Py.JsonValue (Py.PyBool false)
  else if String.eqb s "[1, 2]" then Py.JsonValue (Py.PyList [Py.PyInt 1; Py.PyInt 2])
  else Py.JsonDecodeError.

End RequestSpec.

(** ** Notions used to state the properties of the parsers *)

Module ParserSpec.
Import Enrichment.

(** The first non-empty text of a list, [""] when there is none. *)
Fixpoint first_nonempty (l : list string) : string :=
  match l with
  | [] => ""
  | s :: l' => if str_truthy s then s else first_nonempty l'
  end.

(** What a [meta] start tag offers as a description: its stripped [content]
    when its attribute [key], lowercased, is [wanted]; [""] for any other
    event. *)
Definition meta_content (key wanted : string) (ev : Html.Event) : string :=
  match ev with
  | Html.StartTag tag attrs =>
      if String.eqb (Py.lower tag) "meta"
         && String.eqb (Py.lower (Html.get (Html.attr_map attrs) key)) wanted
      then Py.strip (Html.get (Html.attr_map attrs) "content")
      else ""
  | _ => ""
  end.

(** What an [a] start tag offers as a company site: its [href] when that is
    an absolute http(s) reference outside [setventures.com]; [""] for any
    other event. *)
Definition external_href (ev : Html.Event) : string :=
  match ev with
  | Html.StartTag tag attrs =>
      let href := Html.get (Html.attr_map attrs) "href" in
      if String.eqb (Py.lower tag) "a" && Scraper.is_http href
         && negb (Py.contains "setventures.com" href)
      then href
      else ""
  | _ => ""
  end.

(** One event handed to a parser given by its three handlers. *)
Definition on_event {S : Type}
    (handle_starttag : S -> string -> list (string * option string) -> S)
    (handle_endtag : S -> string -> S)
    (handle_data : S -> string -> S)
    (self : S) (ev : Html.Event) : S :=
  match ev with
  | Html.StartTag tag attrs => handle_starttag self tag attrs
  | Html.EndTag tag => handle_endtag self tag
  | Html.Data data => handle_data self data
  end.

(** What is known of a record [scrape_portfolio] builds from a page of
    [url], by the extractor that [url] selects; [infer] is the name
    inference. *)
Definition scraped_record (infer : string -> string -> string)
    (url source : string) (c : Company) : Prop :=
  last_round c = UNKNOWN /\ Models.source c = source /\
  energy_keywords c = None /\ stage c = "" /\
  if Py.contains "energyimpactpartners.com" url then
    profile_url c = "" /\ (description c <> "" \/ website c <> "") /\
    name c = infer (description c) (website c)
  else if Py.contains "setventures.com" url then
    website c = "" /\ description c = "" /\ profile_url c <> "" /\ name c <> ""
  else
    description c = "" /\ profile_url c = "" /\
    ScraperSpec.ws_normal (name c) = true /\
    (2 <= String.length (name c) <= 60)%nat /\
    (website c = "" \/ Scraper.is_http (website c) = true).

(** A profile page with a description, an internal and an external link. *)
Definition profile_page : list Html.Event :=
  [ Html.StartTag "meta" [("property", Some "og:description");
                          ("content", Some " Grid software. ")];
    Html.StartTag "a" [("href", Some "https://www.setventures.com/team/")];
    Html.StartTag "a" [("href", Some "/contact")];
    Html.StartTag "META" [("NAME", Some "Description");
                          ("content", Some "Flexible grid software.")];
    Html.StartTag "a" [("href", Some "https://fluxcharge.example.com")];
    Html.StartTag "meta" [("name", Some "description"); ("content", Some "Later.")] ].

End ParserSpec.

(** ** Notions used to state the properties of the entry point *)

Module PipelineSpec.
Import Enrichment Pipeline.

(** The records of the mock data, those of layout A first. *)
Definition mock_companies : list Company := concat (map snd mock_portfolio_data).

Section Gathered.

Variable html_events : string -> option (list Html.Event).
Variable urlparse_hostname : string -> string.
Variable file_url_path : string -> option string.
Variable request_accepts : string -> bool.

(** The value of [all_companies] in [main]: the records of the two
    investors, from the mock data or from the scrapes, before the enrichment
    loop; [None] when an exception ends the run before. *)
Definition gathered (argv : list string) (w : Net.World) : option (list Company) :=
  let use_mock := bool_decide ("--use-mock" ∈ argv) in
  let mock_data := mock_portfolio_data in
  let scrape := scrape_portfolios html_events urlparse_hostname file_url_path
                  request_accepts w in
  eip_companies ←
    (if use_mock then getitem mock_data "EIP"
     else
       eip_companies ← scrape EIP_PORTFOLIO_URLS "EIP" [];
       if list_empty eip_companies && Models.str_truthy EIP_LOCAL_HTML then
         fallback ← getitem mock_data "EIP";
         scrape [EIP_LOCAL_HTML] "EIP" fallback
       else if list_empty eip_companies then getitem mock_data "EIP"
       else Some eip_companies);
  set_companies ←
    (if use_mock then getitem mock_data "SET"
     else
       set_companies ← scrape SET_PORTFOLIO_URLS "SET" [];
       if list_empty set_companies && Models.str_truthy SET_LOCAL_HTML then
         fallback ← getitem mock_data "SET";
         scrape [SET_LOCAL_HTML] "SET" fallback
       else if list_empty set_companies then getitem mock_data "SET"
       else Some set_companies);
  Some (eip_companies ++ set_companies).

End Gathered.

(** A row of five fields whose description and round fields satisfy [P]. *)
Definition csv_row (P : string -> string -> Prop) (r : list string) : Prop :=
  exists n w d s rd, r = [n; w; d; s; rd] /\ P d rd.

(** A stand-in for the check [urllib.request.Request] makes, on references
    with no surrounding whitespace, wrapper, fragment or bracket: a URL type
    is a non-empty run of characters other than the slash and the colon,
    followed by a colon. *)
Fixpoint type_then_colon (seen : bool) (s : string) : bool :=
  match s with
  | EmptyString => false
  | String c s' =>
      if Ascii.eqb c ":" then seen
      else if Ascii.eqb c "/" then false
      else type_then_colon true s'
  end.

Definition has_url_type (url : string) : bool := type_then_colon false url.

(** A world with no local file in which every request times out. *)
Definition offline : Net.World :=
  Net.mkWorld (fun _ => Some false) (fun _ => Net.FileOSError) (fun _ => Net.UrlTimeout).

(** A world whose local files exist and cannot be read, and in which every
    request times out. *)
Definition unreadable : Net.World :=
  Net.mkWorld (fun _ => Some true) (fun _ => Net.FileOSError) (fun _ => Net.UrlTimeout).

(** An environment with no API key. *)
Definition no_key : LLM.Env :=
  LLM.mkEnv true None (fun _ _ _ => LLM.Raised).

(** A model that finds every description relevant: it answers a batch of
    four with four times true, anything else with an empty reply. *)
Definition json_loads_four (s : string) : Py.JsonResult :=
  if String.eqb s "[true, true, true, true]"
  then Py.JsonValue
         (Py.PyList [Py.PyBool true; Py.PyBool true; Py.PyBool true; Py.PyBool true])
  else Py.JsonDecodeError.

Definition approving : LLM.Env :=
  LLM.mkEnv true (Some "key")
    (fun _ _ _ => LLM.Response (Some "[true, true, true, true]")).

End PipelineSpec.

(** * Properties *)

Module FilteringTheory.
Import Filtering.

Example is_round_eligible_seed : is_round_eligible SEED = true.
Proof. reflexivity. Qed.

(** C1: the round gate accepts exactly Seed, Series A, Series B and
    Series C; each of Series D..G, IPO, Public and Unknown is rejected. *)
Theorem is_round_eligible_spec :
  (forall r : RoundStage,
      is_round_eligible r = true <->
      r ∈ [SEED; SERIES_A; SERIES_B; SERIES_C]) /\
  Forall (fun r => is_round_eligible r = false)
         [SERIES_D; SERIES_E; SERIES_F; SERIES_G; IPO; PUBLIC; UNKNOWN].
Proof.
  split.
  - intros r; split.
    + destruct r; vm_compute; intros H; try discriminate H;
        repeat (first [apply list_elem_of_here | apply list_elem_of_further]).
    + intros H. repeat (apply elem_of_cons in H as [-> | H]; [reflexivity |]).
      by apply elem_of_nil in H.
  - repeat constructor.
Qed.

End FilteringTheory.



(** ** The digest read back as an integer *)

Module Sha256Theory.
Import Py Sha256.


Lemma hex_value_hex_digit (d : Z) :
  0 <= d < 16 -> hex_value (hex_digit d) = Some d.
Proof.
  intros Hd.
  assert (Hcases : d = 0 \/ d = 1 \/ d = 2 \/ d = 3 \/ d = 4 \/ d = 5 \/ d = 6 \/
                   d = 7 \/ d = 8 \/ d = 9 \/ d = 10 \/ d = 11 \/ d = 12 \/
                   d = 13 \/ d = 14 \/ d = 15) by lia.
  repeat (destruct Hcases as [-> | Hcases]; [reflexivity |]).
  subst d. reflexivity.
Qed.

Lemma int16_acc_hex (bs : list Z) (acc : Z) :
  Forall is_byte bs ->
  int16_acc acc (hex bs) = Some (fold_left (fun a b => 256 * a + b) bs acc).
Proof.
  intros Hbs. revert acc.
  induction Hbs as [| b bs Hb _ IH]; intros acc; [reflexivity |].
  unfold is_byte in Hb.
  cbn [hex int16_acc fold_left].
  rewrite hex_value_hex_digit
    by (split; [apply Z.div_pos; lia | apply Z.div_lt_upper_bound; lia]).
  rewrite hex_value_hex_digit by (apply Z.mod_pos_bound; lia).
  rewrite IH. do 2 f_equal.
  pose proof (Z.div_mod b 16 ltac:(lia)). lia.
Qed.

Lemma be_bytes_are_bytes (n : nat) (x : Z) : Forall is_byte (be_bytes n x).
Proof.
  induction n as [| n IH]; cbn [be_bytes]; constructor; [| exact IH].
  apply Z.mod_pos_bound. lia.
Qed.

Lemma length_be_bytes (n : nat) (x : Z) : length (be_bytes n x) = n.
Proof. induction n as [| n IH]; cbn [be_bytes length]; congruence. Qed.

Lemma digest_bytes (msg : list Z) : Forall is_byte (digest msg).
Proof.
  unfold digest. cbv zeta.
  generalize (regs_words (fold_left compress
    (chunks (length (words (length (pad msg)) (pad msg)))
            (words (length (pad msg)) (pad msg))) init)).
  intros ws. induction ws as [| w ws IH]; cbn [flat_map]; [constructor |].
  apply Forall_app. split; [apply be_bytes_are_bytes | exact IH].
Qed.

Lemma length_digest (msg : list Z) : length (digest msg) = 32%nat.
Proof.
  unfold digest, regs_words. cbv zeta. cbn [flat_map].
  rewrite !length_app, !length_be_bytes. reflexivity.
Qed.

(** [int(hexdigest, 16)] never raises and is the big-endian value of the
    32 digest bytes. *)
Lemma int16_hexdigest (msg : list Z) :
  int16 (hexdigest msg) = Some (be_value (digest msg)).
Proof.
  unfold hexdigest, int16.
  pose proof (length_digest msg) as Hlen.
  destruct (digest msg) as [| b bs] eqn:Hd; [discriminate Hlen |].
  change (int16_acc 0 (hex (b :: bs)) = Some (be_value (b :: bs))).
  apply int16_acc_hex. rewrite <- Hd. apply digest_bytes.
Qed.

End Sha256Theory.

Module EnrichmentTheory.
Import Py Enrichment EnrichmentSpec Sha256Theory.

Lemma str_truthy_false (s : string) : str_truthy s = false <-> s = "".
Proof. destruct s; simpl; split; congruence. Qed.

Lemma lower_empty_iff (s : string) : lower s = "" <-> s = "".
Proof. unfold lower. destruct s; cbn [str_map]; split; congruence. Qed.

Lemma round_eq_spec (a b : RoundStage) : round_eq a b = true <-> a = b.
Proof.
  split.
  - destruct a, b; vm_compute; congruence.
  - intros ->. unfold round_eq. apply String.eqb_refl.
Qed.

Lemma round_eq_unknown_false (r : RoundStage) :
  r <> UNKNOWN -> round_eq r UNKNOWN = false.
Proof.
  intros Hr. destruct (round_eq r UNKNOWN) eqn:E; [| reflexivity].
  apply round_eq_spec in E. contradiction.
Qed.

(** Indexing [rounds] by a residue modulo its length always succeeds. *)
Lemma index_rounds_mod (n : Z) :
  exists r, index rounds (n mod Z.of_nat (length rounds)) = Some r /\ r ∈ rounds.
Proof.
  change (Z.of_nat (length rounds)) with 5.
  pose proof (Z.mod_pos_bound n 5 ltac:(lia)) as Hb.
  assert (Hc : n mod 5 = 0 \/ n mod 5 = 1 \/ n mod 5 = 2 \/ n mod 5 = 3 \/
               n mod 5 = 4) by lia.
  destruct Hc as [-> | [-> | [-> | [-> | ->]]]];
    eexists; (split; [reflexivity |]);
    repeat (first [apply list_elem_of_here | apply list_elem_of_further]).
Qed.


Lemma hash_round_stage_nonempty (name : string) :
  name <> "" -> _hash_round_stage name = hashed_round name.
Proof.
  intros Hne. unfold _hash_round_stage, hashed_round.
  destruct name as [| c name']; [by destruct Hne |].
  cbn [str_truthy negb]. rewrite int16_hexdigest.
  cbn [mbind option_bind]. reflexivity.
Qed.

Lemma hash_round_stage_total (name : string) :
  exists r, _hash_round_stage name = Some r /\ r ∈ rounds.
Proof.
  destruct name as [| c name'].
  - exists SEED. split; [reflexivity | apply list_elem_of_here].
  - rewrite hash_round_stage_nonempty by congruence. apply index_rounds_mod.
Qed.

Lemma hash_round_stage_not_unknown (name : string) (r : RoundStage) :
  _hash_round_stage name = Some r -> r <> UNKNOWN.
Proof.
  intros H. destruct (hash_round_stage_total name) as (r' & Hr' & Hin).
  rewrite H in Hr'. injection Hr' as <-.
  intros ->. unfold rounds in Hin.
  repeat (apply elem_of_cons in Hin as [Hin | Hin]; [discriminate Hin |]).
  by apply elem_of_nil in Hin.
Qed.

(** C2: the fallback assignment is total, lands in the five early rounds,
    is the SHA-256 digest of the lowercased name reduced modulo 5 for a
    non-empty name, agrees on names equal up to case, and maps the empty
    name to Seed. *)
Theorem hash_round_stage_spec :
  (forall name, exists r,
      _hash_round_stage name = Some r /\
      r ∈ [SEED; SERIES_A; SERIES_B; SERIES_C; SERIES_D]) /\
  (forall name, name <> "" ->
      _hash_round_stage name =
      index [SEED; SERIES_A; SERIES_B; SERIES_C; SERIES_D]
        (Sha256.be_value (Sha256.digest (encode_utf8 (lower name))) mod 5)) /\
  (forall n1 n2, lower n1 = lower n2 ->
      _hash_round_stage n1 = _hash_round_stage n2) /\
  _hash_round_stage "" = Some SEED.
Proof.
  repeat split.
  - apply hash_round_stage_total.
  - intros name Hne. rewrite hash_round_stage_nonempty by exact Hne.
    unfold hashed_round. reflexivity.
  - intros n1 n2 Hl.
    destruct n1 as [| c1 n1'], n2 as [| c2 n2'];
      [reflexivity | discriminate Hl | discriminate Hl |].
    rewrite !hash_round_stage_nonempty by discriminate.
    unfold hashed_round. rewrite Hl. reflexivity.
Qed.

(** A use of C2 on concrete names: a name and its capitalised form. *)
Lemma hash_round_stage_spec_witness :
  _hash_round_stage "GridPulse" = _hash_round_stage "gridpulse" /\
  _hash_round_stage "gridpulse" = Some SERIES_C.
Proof.
  split.
  - apply (proj1 (proj2 (proj2 hash_round_stage_spec))). reflexivity.
  - rewrite (proj1 (proj2 hash_round_stage_spec) "gridpulse") by discriminate.
    vm_compute. reflexivity.
Defined.

Lemma fill_missing_fields_last_round (c : Company) (mock_map : gmap string Company) :
  last_round c <> UNKNOWN ->
  last_round (fill_missing_fields c mock_map) = last_round c.
Proof.
  intros Hr. unfold fill_missing_fields. cbv zeta.
  destruct (mock_map !! lower (name c)) as [mock |]; [| reflexivity].
  destruct (negb (str_truthy (website c))); cbn [set_website last_round];
    by rewrite round_eq_unknown_false.
Qed.

Lemma enrich_round_known (c : Company) (round_map : gmap string RoundStage) :
  last_round c <> UNKNOWN -> enrich_round c round_map = Some c.
Proof.
  intros Hr. unfold enrich_round. by rewrite round_eq_unknown_false.
Qed.

(** C5 as stated fails: a round map may itself hold [UNKNOWN], which is a
    truthy member and is copied into the record. *)
Lemma enrich_round_keeps_unknown_from_map :
  let c := mock_company "Acme" "" "" UNKNOWN "EIP" in
  let round_map : gmap string RoundStage := {[ "acme" := UNKNOWN ]} in
  last_round <$> enrich_round c round_map = Some UNKNOWN.
Proof. vm_compute. reflexivity. Qed.

(** C5 (amended): with a round map none of whose values is [UNKNOWN],
    [enrich_round] returns a record whose round is not [UNKNOWN]. *)
Theorem enrich_round_assigns_round
    (c : Company) (round_map : gmap string RoundStage) :
  (forall k r, round_map !! k = Some r -> r <> UNKNOWN) ->
  exists c', enrich_round c round_map = Some c' /\ last_round c' <> UNKNOWN.
Proof.
  intros Hmap. unfold enrich_round.
  destruct (round_eq (last_round c) UNKNOWN) eqn:Heq; cbn [negb].
  - destruct (hash_round_stage_total (name c)) as (r & Hr & _).
    pose proof (hash_round_stage_not_unknown _ _ Hr) as Hne.
    destruct (round_map !! lower (name c)) as [e |] eqn:Hget.
    + destruct (round_truthy e).
      * eexists. split; [reflexivity |]. cbn. by apply (Hmap _ _ Hget).
      * rewrite Hr. eexists. split; [reflexivity | exact Hne].
    + rewrite Hr. eexists. split; [reflexivity | exact Hne].
  - exists c. split; [reflexivity |].
    intros Hu. rewrite Hu in Heq. discriminate Heq.
Qed.

Lemma load_enrichment_map_known (k : string) (r : RoundStage) :
  load_enrichment_map !! k = Some r -> r <> UNKNOWN.
Proof.
  unfold load_enrichment_map. intros H.
  apply elem_of_list_to_map_2 in H.
  repeat (apply elem_of_cons in H as [H | H]; [injection H as _ ->; discriminate |]).
  by apply elem_of_nil in H.
Qed.

Lemma enrich_round_assigns_round_witness :
  exists c', enrich_round (mock_company "Acme" "" "" UNKNOWN "EIP")
               load_enrichment_map = Some c' /\ last_round c' <> UNKNOWN.
Proof.
  apply (enrich_round_assigns_round
           (mock_company "Acme" "" "" UNKNOWN "EIP") load_enrichment_map).
  apply load_enrichment_map_known.
Defined.

Section ProfileEnrichment.

Variable html_events : string -> option (list Html.Event).
Variable request_accepts : string -> bool.

(** The ways [enrich_from_vc_profile] ends: with the record itself, with an
    exception of the fetch or of the parser, or with a record built from the
    page. *)
Lemma enrich_from_vc_profile_cases (w : Net.World) (c : Company) :
  let out := enrich_from_vc_profile html_events request_accepts w c in
  if str_truthy (description c) then out = Some c
  else if negb (str_truthy (profile_url c)) then out = Some c
  else
    match _fetch_vc_html request_accepts w (profile_url c) with
    | None => out = None
    | Some None => out = Some c
    | Some (Some html) =>
        if negb (str_truthy html) then out = Some c
        else
          match html_events html with
          | None => out = None
          | Some events =>
              exists d site,
                out = Some (if negb (str_truthy (website c))
                            then (if str_truthy site then set_website site d else d)
                            else d) /\
                (d = c \/ exists text, d = set_description text c)
          end
    end.
Proof.
  cbv zeta. unfold enrich_from_vc_profile.
  destruct (str_truthy (description c)); [reflexivity |].
  destruct (negb (str_truthy (profile_url c))); [reflexivity |].
  destruct (_fetch_vc_html request_accepts w (profile_url c)) as [[html |] |];
    cbn [mbind option_bind]; try reflexivity.
  destruct (negb (str_truthy html)); [reflexivity |].
  destruct (html_events html) as [events |];
    cbn [fmap option_fmap option_map mbind option_bind]; [| reflexivity].
  match goal with
  | |- context [if str_truthy ?d then set_description ?d c else c] =>
      exists (if str_truthy d then set_description d c else c);
      assert (Hw : website (if str_truthy d then set_description d c else c)
                   = website c) by (by destruct (str_truthy d));
      assert (Hd : (if str_truthy d then set_description d c else c) = c \/
                   exists text, (if str_truthy d then set_description d c else c)
                                = set_description text c)
        by (destruct (str_truthy d); [right; by eexists | by left]);
      revert Hw Hd;
      generalize (if str_truthy d then set_description d c else c)
  end.
  intros c1 Hw Hd. rewrite Hw.
  exists (_ExternalLinkParser.first_external_link (_ExternalLinkParser.feed events)).
  split; [| exact Hd].
  destruct (negb (str_truthy (website c))); [| reflexivity].
  by destruct (str_truthy _).
Qed.

(** The fields [enrich_from_vc_profile] never writes. *)
Lemma enrich_from_vc_profile_fields (w : Net.World) (c c' : Company) :
  enrich_from_vc_profile html_events request_accepts w c = Some c' ->
  name c' = name c /\ last_round c' = last_round c /\ source c' = source c /\
  energy_keywords c' = energy_keywords c /\ stage c' = stage c /\
  profile_url c' = profile_url c.
Proof.
  pose proof (enrich_from_vc_profile_cases w c) as H. cbv zeta in H. revert H.
  destruct (str_truthy (description c)); [intros -> [= <-]; auto 10 |].
  destruct (negb (str_truthy (profile_url c))); [intros -> [= <-]; auto 10 |].
  destruct (_fetch_vc_html request_accepts w (profile_url c)) as [[html |] |];
    [| intros -> [= <-]; auto 10 | intros ->; discriminate].
  destruct (negb (str_truthy html)); [intros -> [= <-]; auto 10 |].
  destruct (html_events html) as [events |]; [| intros ->; discriminate].
  intros (d & site & -> & Hd) [= <-].
  destruct Hd as [-> | [text ->]];
    destruct (negb (str_truthy (website c))); try destruct (str_truthy site);
    cbn; auto 10.
Qed.

(** [enrich_from_vc_profile] is left by an exception exactly when it calls
    [_fetch_vc_html] and that call is, or the page it fetched is not empty
    and the parser is left by one. *)
Lemma enrich_from_vc_profile_raises (w : Net.World) (c : Company) :
  enrich_from_vc_profile html_events request_accepts w c = None <->
  description c = "" /\ profile_url c <> "" /\
  (_fetch_vc_html request_accepts w (profile_url c) = None \/
   exists html, _fetch_vc_html request_accepts w (profile_url c) = Some (Some html) /\
                html <> "" /\ html_events html = None).
Proof.
  pose proof (enrich_from_vc_profile_cases w c) as H. cbv zeta in H. revert H.
  destruct (description c) as [| a d] eqn:Hd; cbn [str_truthy];
    [| intros ->; split; [discriminate | by intros [[=] _]]].
  destruct (profile_url c) as [| b u] eqn:Hu; cbn [str_truthy negb];
    [intros ->; split; [discriminate | by intros (_ & Hne & _)] |].
  destruct (_fetch_vc_html request_accepts w (String b u)) as [[html |] |].
  - destruct html as [| h html']; cbn [str_truthy negb].
    + intros ->. split; [discriminate |].
      intros (_ & _ & [[=] | (html & [= <-] & Hne & _)]). by destruct Hne.
    + destruct (html_events (String h html')) as [events |] eqn:He.
      * intros (d & site & -> & _). split; [discriminate |].
        intros (_ & _ & [[=] | (html & [= <-] & _ & Hev)]). congruence.
      * intros ->. split; [| done]. intros _.
        split; [done |]. split; [done |]. right. by exists (String h html').
  - intros ->. split; [discriminate |].
    by intros (_ & _ & [[=] | (html & [=] & _)]).
  - intros ->. split; [| done]. intros _. split; [done |]. split; [done |]. by left.
Qed.

(** C9: [enrich_from_vc_profile] returns the record unchanged when it has a
    description, or no profile URL, or the profile page cannot be fetched;
    whenever it returns, only [description] and, if it was empty, [website]
    may differ.  It is left by an exception, with nothing written, exactly
    when the fetch it makes is, or the parser is on the page fetched. *)
Theorem enrich_from_vc_profile_frame (w : Net.World) (c : Company) :
  (description c <> "" \/ profile_url c = "" \/
   _fetch_vc_html request_accepts w (profile_url c) = Some None ->
   enrich_from_vc_profile html_events request_accepts w c = Some c) /\
  (forall c',
     enrich_from_vc_profile html_events request_accepts w c = Some c' ->
     (name c' = name c /\ last_round c' = last_round c /\ source c' = source c /\
      profile_url c' = profile_url c /\ energy_keywords c' = energy_keywords c /\
      stage c' = stage c) /\
     (website c <> "" -> website c' = website c)) /\
  (enrich_from_vc_profile html_events request_accepts w c = None <->
   description c = "" /\ profile_url c <> "" /\
   (_fetch_vc_html request_accepts w (profile_url c) = None \/
    exists html, _fetch_vc_html request_accepts w (profile_url c) = Some (Some html) /\
                 html <> "" /\ html_events html = None)).
Proof.
  split; [| split].
  - pose proof (enrich_from_vc_profile_cases w c) as H. cbv zeta in H.
    intros [Hd | [Hp | Hf]].
    + destruct (description c); [by destruct Hd | exact H].
    + rewrite Hp in H. by destruct (str_truthy (description c)).
    + rewrite Hf in H. destruct (str_truthy (description c)); [exact H |].
      by destruct (negb (str_truthy (profile_url c))).
  - intros c' Hc'. split.
    + pose proof (enrich_from_vc_profile_fields w c c' Hc') as H. tauto.
    + intros Hw.
      assert (Ht : str_truthy (website c) = true)
        by (destruct (website c); [by destruct Hw | reflexivity]).
      pose proof (enrich_from_vc_profile_cases w c) as H. cbv zeta in H.
      rewrite Hc', Ht in H. cbn [negb] in H. revert H.
      destruct (str_truthy (description c)); [by intros [= ->] |].
      destruct (negb (str_truthy (profile_url c))); [by intros [= ->] |].
      destruct (_fetch_vc_html request_accepts w (profile_url c)) as [[html |] |];
        [| by intros [= ->] | discriminate].
      destruct (negb (str_truthy html)); [by intros [= ->] |].
      destruct (html_events html) as [events |]; [| discriminate].
      intros (d & site & [= ->] & [-> | [text ->]]); reflexivity.
  - apply enrich_from_vc_profile_raises.
Qed.

End ProfileEnrichment.

Lemma enrich_from_vc_profile_frame_witness :
  let c := mock_company "GridPulse" "" "Smart grid analytics." SERIES_A "EIP" in
  let unfetched := build_profile_stub "https://www.setventures.com/portfolio/x/" in
  enrich_from_vc_profile (fun _ => Some []) (fun _ => true) offline_world c = Some c /\
  enrich_from_vc_profile (fun _ => Some []) (fun _ => true) offline_world unfetched =
    Some unfetched.
Proof.
  cbv zeta. split.
  - apply (proj1 (enrich_from_vc_profile_frame (fun _ => Some []) (fun _ => true)
                    offline_world
                    (mock_company "GridPulse" "" "Smart grid analytics." SERIES_A "EIP"))).
    left. discriminate.
  - apply (proj1 (enrich_from_vc_profile_frame (fun _ => Some []) (fun _ => true)
                    offline_world
                    (build_profile_stub "https://www.setventures.com/portfolio/x/"))).
    right. right. reflexivity.
Defined.

(** C4: a funding round that is already known is left as it is by
    [fill_missing_fields] and by [enrich_round] (which returns the record
    itself), as by the profile step whenever it returns, hence by the three
    steps in sequence. *)
Theorem known_round_never_overwritten
    (html_events : string -> option (list Html.Event)) (request_accepts : string -> bool)
    (w : Net.World) (c : Company) (mock_map : gmap string Company)
    (round_map : gmap string RoundStage) :
  last_round c <> UNKNOWN ->
  last_round (fill_missing_fields c mock_map) = last_round c /\
  enrich_round c round_map = Some c /\
  (forall c1,
      enrich_from_vc_profile html_events request_accepts w c = Some c1 ->
      last_round c1 = last_round c /\
      exists c',
        enrich_round (fill_missing_fields c1 mock_map) round_map = Some c' /\
        last_round c' = last_round c).
Proof.
  intros Hr.
  split; [by apply fill_missing_fields_last_round |].
  split; [by apply enrich_round_known |].
  intros c1 Hc1.
  pose proof (enrich_from_vc_profile_fields html_events request_accepts w c c1 Hc1)
    as (_ & Hp & _).
  split; [exact Hp |].
  assert (H1 : last_round c1 <> UNKNOWN) by (by rewrite Hp).
  pose proof (fill_missing_fields_last_round c1 mock_map H1) as Hf.
  exists (fill_missing_fields c1 mock_map). split.
  - apply enrich_round_known. by rewrite Hf.
  - by rewrite Hf, Hp.
Qed.

Lemma known_round_never_overwritten_witness :
  let c := mock_company "SunPeak" "" "" SERIES_B "SET" in
  last_round (fill_missing_fields c mock_lookup) = SERIES_B /\
  enrich_round c load_enrichment_map = Some c.
Proof.
  cbv zeta.
  pose proof (known_round_never_overwritten (fun _ => Some []) (fun _ => true) offline_world
                (mock_company "SunPeak" "" "" SERIES_B "SET")
                mock_lookup load_enrichment_map) as H.
  destruct H as (H1 & H2 & _); [discriminate |].
  split; [exact H1 | exact H2].
Defined.

End EnrichmentTheory.

(** ** Facts on texts *)

Module StringFacts.
Import Py InferSpec.

Lemma append_cons (c : ascii) (s t : string) :
  String.append (String c s) t = String c (String.append s t).
Proof. reflexivity. Qed.

Lemma append_nil_l (s : string) : String.append EmptyString s = s.
Proof. reflexivity. Qed.

Ltac str_simpl :=
  repeat first [rewrite append_cons | rewrite append_nil_l].
Ltac str_simpl_in H :=
  repeat first [rewrite append_cons in H | rewrite append_nil_l in H].

Lemma append_nil_r (s : string) : String.append s EmptyString = s.
Proof. induction s as [| c s IH]; str_simpl; congruence. Qed.

Lemma append_assoc (a b c : string) :
  String.append (String.append a b) c = String.append a (String.append b c).
Proof. induction a as [| x a IH]; str_simpl; congruence. Qed.


Lemma length_append (a b : string) :
  String.length (String.append a b) = (String.length a + String.length b)%nat.
Proof. induction a as [| x a IH]; str_simpl; cbn [String.length plus]; congruence. Qed.

Lemma prefix_append (w s : string) :
  String.prefix w s = true <-> exists r, s = String.append w r.
Proof.
  revert s. induction w as [| c w IH]; intros s.
  - destruct s; cbn; split; eauto.
  - destruct s as [| d s]; cbn [String.prefix].
    + split; [discriminate | by intros [r [=]]].
    + destruct (ascii_dec c d) as [-> | Hne].
      * rewrite (IH s). split; intros [r Hr]; exists r.
        -- str_simpl. congruence.
        -- str_simpl_in Hr. congruence.
      * split; [discriminate |]. intros [r Hr]. str_simpl_in Hr. congruence.
Qed.

Lemma drop_chars_append (w r : string) :
  drop_chars (String.length w) (String.append w r) = r.
Proof.
  induction w as [| c w IH]; str_simpl; cbn [String.length drop_chars];
    [by destruct r | exact IH].
Qed.

Lemma all_chars_append (p : ascii -> bool) (a b : string) :
  all_chars p (String.append a b) = all_chars p a && all_chars p b.
Proof.
  induction a as [| c a IH]; str_simpl; cbn [all_chars andb]; [reflexivity |].
  rewrite IH. by rewrite andb_assoc.
Qed.

Lemma last_char_append (prev : option ascii) (a b : string) :
  Re.last_char prev (String.append a b) = Re.last_char (Re.last_char prev a) b.
Proof.
  revert prev. induction a as [| c a IH]; intros prev; str_simpl;
    cbn [Re.last_char]; [reflexivity | apply IH].
Qed.




Lemma lstrip_keep (q : ascii -> bool) (c : ascii) (s : string) :
  q c = false -> lstrip_by q (String c s) = String c s.
Proof. intros H. cbn. by rewrite H. Qed.

Lemma rstrip_keep (q : ascii -> bool) (s : string) (prev : option ascii) :
  s <> EmptyString ->
  (forall c, Re.last_char prev s = Some c -> q c = false) ->
  rstrip_by q s = s.
Proof.
  revert prev. induction s as [| c s IH]; intros prev Hne Hlast; [done |].
  cbn [rstrip_by]. destruct s as [| d s].
  - cbn. by rewrite (Hlast c).
  - rewrite (IH (Some c)); [reflexivity | done | exact Hlast].
Qed.

End StringFacts.

(** ** [json.dumps] of a list of strings can be read back *)

Module JsonTheory.
Import Py FilteringSpec StringFacts.







End JsonTheory.

Module BatchTheory.
Import Config LLM Filtering FilteringSpec StringFacts.

Lemma gather_step_survivor (idxs : list nat) (descs : list string)
    (k : nat) (c : Company) :
  gather_step (idxs, descs) (k, c) =
  if survivor c then (idxs ++ [k], descs ++ [description c]) else (idxs, descs).
Proof.
  unfold gather_step, survivor.
  destruct (is_round_eligible (last_round c)); [| reflexivity].
  by destruct (str_truthy (description c)).
Qed.

Lemma gather_fold (cs : list Company) (k : nat) (idxs : list nat) (descs : list string) :
  fold_left gather_step (zip (seq k (length cs)) cs) (idxs, descs) =
  (idxs ++ positions k cs, descs ++ map description (List.filter survivor cs)).
Proof.
  revert k idxs descs.
  induction cs as [| c cs IH]; intros k idxs descs.
  - cbn. by rewrite !app_nil_r.
  - cbn [length seq zip zip_with fold_left positions List.filter].
    rewrite gather_step_survivor.
    destruct (survivor c); [| apply IH].
    rewrite IH. cbn [map]. by rewrite <- !app_assoc.
Qed.

Lemma gather_enumerate (cs : list Company) :
  fold_left gather_step (enumerate cs) ([], []) =
  (positions 0 cs, map description (List.filter survivor cs)).
Proof. unfold enumerate. apply gather_fold. Qed.

Lemma positions_lookup (pre cs : list Company) :
  Forall2 (fun i c => (pre ++ cs) !! i = Some c)
          (positions (length pre) cs) (List.filter survivor cs).
Proof.
  revert pre. induction cs as [| c cs IH]; intros pre; [constructor |].
  specialize (IH (pre ++ [c])).
  rewrite length_app, <- app_assoc in IH. cbn [length app] in IH.
  replace (length pre + 1)%nat with (S (length pre)) in IH by lia.
  cbn [positions List.filter]. destruct (survivor c); [| exact IH].
  constructor; [| exact IH].
  rewrite lookup_app_r by lia. by rewrite Nat.sub_diag.
Qed.

Lemma collect_matches (companies : list Company) (idxs : list nat)
    (sv : list Company) (bs : list bool) (acc : list Company) :
  Forall2 (fun i c => companies !! i = Some c) idxs sv ->
  collect companies (zip idxs bs) acc =
  Some (acc ++ map fst (List.filter snd (zip sv bs))).
Proof.
  intros H. revert bs acc.
  induction H as [| i c idxs sv Hi _ IH]; intros bs acc.
  - cbn. by rewrite app_nil_r.
  - destruct bs as [| b bs]; [cbn; by rewrite app_nil_r |].
    cbn [zip zip_with collect List.filter snd].
    destruct b.
    + rewrite Hi. cbn [mbind option_bind]. rewrite IH. cbn [map fst].
      by rewrite <- app_assoc.
    + apply IH.
Qed.

Lemma collect_all_false (companies : list Company) (idxs : list nat) (n : nat)
    (acc : list Company) :
  collect companies (zip idxs (replicate n false)) acc = Some acc.
Proof.
  revert n. induction idxs as [| i idxs IH]; intros n; [reflexivity |].
  destruct n as [| n]; [reflexivity |]. cbn. apply IH.
Qed.

Section WithJson.

Variable json_loads : string -> Py.JsonResult.

(** The ways [llm_filter_energy_bulk] ends, for a non-empty batch. *)
Lemma bulk_result (env : Env) (st : State) (descriptions keywords : list string) :
  descriptions <> [] ->
  fst (llm_filter_energy_bulk json_loads env descriptions keywords st) =
  match parsed_reply json_loads env st descriptions keywords with
  | Some Py.JsonOtherError => None
  | Some (Py.JsonValue (Py.PyList parsed)) =>
      if (length parsed =? length descriptions)%nat then Some (map bool_item parsed)
      else Some (replicate (length descriptions) false)
  | _ => Some (replicate (length descriptions) false)
  end.
Proof.
  intros Hne. destruct descriptions as [| d ds]; [congruence |].
  unfold llm_filter_energy_bulk, parsed_reply.
  set (descs := d :: ds).
  unfold mbind, M_bind, mret, M_ret.
  destruct (_get_client env st) as [[client |] st1]; cbn [fst]; [| reflexivity].
  unfold call_model.
  destruct (generate_content env (client_key client) GEMINI_MODEL
              (bulk_prompt descs keywords)) as [| text]; [reflexivity |].
  destruct (json_loads (strip_code_fence text)) as [[| | | | | parsed |] | |];
    try reflexivity.
  by destruct (length parsed =? length descs)%nat.
Qed.

Lemma bulk_prompt_intro (descriptions keywords : list string) :
  bulk_prompt descriptions keywords =
  bulk_intro keywords +:+ Py.json_dumps descriptions.
Proof. unfold bulk_prompt, bulk_intro. by rewrite !append_assoc. Qed.

Lemma bulk_sent (env : Env) (st : State) (descriptions keywords : list string) :
  sent (snd (llm_filter_energy_bulk json_loads env descriptions keywords st)) =
  sent st ++
  match descriptions, fst (_get_client env st) with
  | _ :: _, Some _ => [bulk_intro keywords +:+ Py.json_dumps descriptions]
  | _, _ => []
  end.
Proof.
  rewrite <- bulk_prompt_intro.
  destruct descriptions as [| d ds]; [cbn; by rewrite app_nil_r |].
  unfold llm_filter_energy_bulk.
  set (descs := d :: ds).
  unfold mbind, M_bind, mret, M_ret.
  assert (Hs : sent (snd (_get_client env st)) = sent st).
  { unfold _get_client. destruct (_client st); [reflexivity |].
    destruct (genai_importable env); [| reflexivity].
    destruct (api_key env) as [key |]; [| reflexivity].
    by destruct (str_truthy key). }
  destruct (_get_client env st) as [[client |] st1]; cbn [fst snd] in *.
  - unfold call_model.
    destruct (generate_content env (client_key client) GEMINI_MODEL
                (bulk_prompt descs keywords)) as [| text]; cbn [snd sent].
    + by rewrite Hs.
    + destruct (json_loads (strip_code_fence text)) as [[| | | | | parsed |] | |];
        cbn [snd sent]; try by rewrite Hs.
      destruct (length parsed =? length descs)%nat; cbn [snd sent negb]; by rewrite Hs.
  - by rewrite Hs, app_nil_r.
Qed.

Lemma length_bulk_result (env : Env) (st : State) (descriptions keywords : list string)
    (results : list bool) :
  fst (llm_filter_energy_bulk json_loads env descriptions keywords st) = Some results ->
  length results = length descriptions.
Proof.
  destruct descriptions as [| d ds]; [by intros [= <-] |].
  rewrite bulk_result by discriminate.
  destruct (parsed_reply json_loads env st (d :: ds) keywords)
    as [[[| | | | | parsed |] | |] |];
    try (intros [= <-]; exact (length_replicate (length (d :: ds)) false));
    try discriminate.
  destruct (length parsed =? length (d :: ds))%nat eqn:E; intros [= <-].
  - apply Nat.eqb_eq in E. by rewrite length_map.
  - exact (length_replicate (length (d :: ds)) false).
Qed.

(** [filter_relevant] is the join of the survivors with the batch result. *)
Lemma filter_relevant_join (env : Env) (st : State) (companies : list Company) :
  let sv := List.filter survivor companies in
  let res := llm_filter_energy_bulk json_loads env (map description sv)
               ENERGY_KEYWORDS st in
  filter_relevant json_loads env companies st =
  ((fun matches => map fst (List.filter snd (zip sv matches))) <$> fst res, snd res).
Proof.
  cbv zeta. unfold filter_relevant. rewrite gather_enumerate.
  destruct (map description (List.filter survivor companies)) as [| d ds] eqn:Hd.
  - apply map_eq_nil in Hd. rewrite Hd. reflexivity.
  - unfold mbind, M_bind, mret, M_ret.
    destruct (llm_filter_energy_bulk json_loads env (d :: ds) ENERGY_KEYWORDS st)
      as [[matches |] st1]; cbn [fst snd fmap option_fmap option_map]; [| reflexivity].
    f_equal.
    rewrite (collect_matches companies _ (List.filter survivor companies)).
    + reflexivity.
    + apply (positions_lookup [] companies).
Qed.


Lemma none_selected (sv : list Company) (n : nat) :
  map fst (List.filter snd (zip sv (replicate n false))) = [].
Proof.
  revert n. induction sv as [| c sv IH]; intros [| n]; cbn; try reflexivity.
  apply IH.
Qed.


(** C10: in a reply that is a list of the batch's length, every item that
    is not a boolean counts as false at its own position and every boolean
    keeps its value. *)
Theorem bulk_nonboolean_items_false
    (env : Env) (st : State) (descriptions keywords : list string)
    (parsed : list Py.PyObj) :
  parsed_reply json_loads env st descriptions keywords =
    Some (Py.JsonValue (Py.PyList parsed)) ->
  length parsed = length descriptions ->
  exists results,
    fst (llm_filter_energy_bulk json_loads env descriptions keywords st) =
      Some results /\
    length results = length parsed /\
    (forall (i : nat) (b : bool),
        parsed !! i = Some (Py.PyBool b) -> results !! i = Some b) /\
    (forall (i : nat) (item : Py.PyObj),
        parsed !! i = Some item -> (forall b, item <> Py.PyBool b) ->
        results !! i = Some false).
Proof.
  intros Hreply Hlen. exists (map bool_item parsed). split.
  { destruct descriptions as [| d ds].
    - by destruct parsed.
    - rewrite bulk_result by discriminate.
      by rewrite Hreply, Hlen, Nat.eqb_refl. }
  split; [by rewrite length_map | split].
  - intros i b Hi. by rewrite list_lookup_fmap, Hi.
  - intros i item Hi Hnb. rewrite list_lookup_fmap, Hi. cbn.
    destruct item; try reflexivity. by destruct (Hnb b).
Qed.

End WithJson.



Lemma bulk_nonboolean_items_false_witness :
  exists results,
    fst (llm_filter_energy_bulk json_loads_table (constant_env fenced_mixed)
           ["a"; "b"; "c"] ENERGY_KEYWORDS fresh) = Some results /\
    results !! 1%nat = Some false /\ results !! 0%nat = Some true.
Proof.
  pose proof (bulk_nonboolean_items_false json_loads_table
                (constant_env fenced_mixed) fresh ["a"; "b"; "c"] ENERGY_KEYWORDS
                [Py.PyBool true; Py.PyInt 1; Py.PyNone]) as H.
  destruct H as (results & Hres & _ & Hbool & Hother).
  - vm_compute. reflexivity.
  - reflexivity.
  - exists results. split; [exact Hres |]. split.
    + apply (Hother 1%nat (Py.PyInt 1)); [reflexivity | discriminate].
    + apply (Hbool 0%nat true). reflexivity.
Defined.

End BatchTheory.


Module ScraperTheory.
Import Py Scraper ScraperSpec.

(** *** Whitespace normalisation *)


Lemma sub_ws_inner (b : bool) (s : string) : inner b (sub_ws b s).
Proof.
  revert b. induction s as [| c s IH]; intros b; [exact I |].
  cbn [sub_ws]. destruct (is_space c) eqn:Hc.
  - destruct b; [apply IH |].
    cbn [inner]. change (is_space " ") with true. cbv iota. auto.
  - cbn [inner]. rewrite Hc. apply IH.
Qed.

Lemma lstrip_inner (b : bool) (s : string) :
  inner b s -> inner true (lstrip_by is_space s).
Proof.
  revert b. induction s as [| c s IH]; intros b H; [exact I |].
  cbn [lstrip_by]. cbn [inner] in H. destruct (is_space c) eqn:Hc.
  - destruct H as (_ & _ & H). by apply (IH true).
  - cbn [inner]. by rewrite Hc.
Qed.

Lemma ws_normal_from_cons (b : bool) (c : ascii) (s : string) :
  ws_normal_from b (String c s) =
  if is_space c then Ascii.eqb c " " && negb b && ws_normal_from true s
  else ws_normal_from false s.
Proof. reflexivity. Qed.

Lemma rstrip_normal (b : bool) (s : string) :
  inner b s ->
  match rstrip_by is_space s with
  | EmptyString => True
  | String _ _ as r => ws_normal_from b r = true
  end.
Proof.
  revert b. induction s as [| c s IH]; intros b H; [exact I |].
  cbn [rstrip_by]. cbn [inner] in H. destruct (is_space c) eqn:Hc.
  - destruct H as (-> & -> & H). specialize (IH true H).
    destruct (rstrip_by is_space s) as [| c' r]; [exact I |].
    rewrite ws_normal_from_cons, IH. reflexivity.
  - specialize (IH false H).
    destruct (rstrip_by is_space s) as [| c' r].
    + rewrite ws_normal_from_cons, Hc. reflexivity.
    + rewrite ws_normal_from_cons, Hc. exact IH.
Qed.

Lemma clean_ws_normal (text : string) : ws_normal (clean text) = true.
Proof.
  unfold clean, strip, ws_normal.
  pose proof (rstrip_normal true _
                (lstrip_inner false _ (sub_ws_inner false text))) as H.
  by destruct (rstrip_by is_space (lstrip_by is_space (sub_ws false text))).
Qed.

Lemma length_ok_bounds (s : string) :
  length_ok s = true <-> (2 <= String.length s <= 60)%nat.
Proof.
  unfold length_ok. rewrite andb_true_iff, !Nat.leb_le. tauto.
Qed.

(** *** The loops as list functions *)

Lemma names_fold (anchors names : list string) :
  fold_left names_step anchors names = names ++ name_candidates anchors.
Proof.
  revert names. induction anchors as [| a anchors IH]; intros names.
  - cbn. by rewrite app_nil_r.
  - cbn [fold_left]. rewrite IH. unfold names_step, name_candidates.
    cbn [map List.filter]. destruct (length_ok (clean a)); [| reflexivity].
    by rewrite <- app_assoc.
Qed.

Lemma unique_fold (names : list string) (seen : gset string) (unique : list string) :
  snd (fold_left unique_step names (seen, unique)) =
  unique ++ first_occurrences lower seen names.
Proof.
  revert seen unique. induction names as [| n names IH]; intros seen unique.
  - cbn. by rewrite app_nil_r.
  - cbn [fold_left first_occurrences]. unfold unique_step at 2.
    destruct (decide (lower n ∈ seen)) as [Hin | Hnin].
    + rewrite (bool_decide_eq_false_2 (lower n ∉ seen)) by tauto.
      rewrite (bool_decide_eq_true_2 _ Hin). apply IH.
    + rewrite (bool_decide_eq_true_2 (lower n ∉ seen)) by exact Hnin.
      rewrite (bool_decide_eq_false_2 _ Hnin). rewrite IH.
      by rewrite <- app_assoc.
Qed.

Lemma entries_fold (links : list (string * string)) (seen : gset string)
    (entries : list (string * string)) :
  snd (fold_left entries_step links (seen, entries)) =
  entries ++ first_occurrences (fun e => lower (fst e)) seen (entry_candidates links).
Proof.
  revert seen entries. induction links as [| [text href] links IH]; intros seen entries.
  - cbn. by rewrite app_nil_r.
  - cbn [fold_left]. unfold entries_step at 2, entry_candidates.
    cbn [map List.filter fst snd].
    fold (entry_candidates links).
    destruct (length_ok (clean text)); cbn [negb andb]; [| apply IH].
    destruct (is_http href); cbn [negb]; [| apply IH].
    cbn [first_occurrences fst].
    destruct (bool_decide (lower (clean text) ∈ seen)); [apply IH |].
    rewrite IH. by rewrite <- app_assoc.
Qed.

(** *** First occurrences by key *)

Section FirstOccurrences.

Context {A : Type} (key : A -> string).

Lemma fo_sublist (seen : gset string) (l : list A) :
  sublist (first_occurrences key seen l) l.
Proof.
  revert seen. induction l as [| x l IH]; intros seen; [constructor |].
  cbn [first_occurrences]. destruct (bool_decide (key x ∈ seen)).
  - apply sublist_cons, IH.
  - apply sublist_skip, IH.
Qed.

Lemma fo_fresh (seen : gset string) (l : list A) (x : A) :
  x ∈ first_occurrences key seen l -> key x ∉ seen.
Proof.
  revert seen. induction l as [| y l IH]; intros seen; [by intros ?%elem_of_nil |].
  cbn [first_occurrences]. destruct (bool_decide_reflect (key y ∈ seen)) as [Hy | Hy].
  - apply IH.
  - intros [-> | Hx]%elem_of_cons; [exact Hy |].
    apply IH in Hx. set_solver.
Qed.

Lemma fo_NoDup (seen : gset string) (l : list A) :
  NoDup (map key (first_occurrences key seen l)).
Proof.
  revert seen. induction l as [| y l IH]; intros seen; [constructor |].
  cbn [first_occurrences]. destruct (bool_decide (key y ∈ seen)); [apply IH |].
  cbn [map]. constructor; [| apply IH].
  intros (x & Hk & Hx)%list_elem_of_fmap.
  apply fo_fresh in Hx. set_solver.
Qed.

Lemma fo_cover (seen : gset string) (l : list A) (x : A) :
  x ∈ l -> key x ∈ seen \/ key x ∈ map key (first_occurrences key seen l).
Proof.
  revert seen. induction l as [| y l IH]; intros seen; [by intros ?%elem_of_nil |].
  cbn [first_occurrences].
  destruct (bool_decide_reflect (key y ∈ seen)) as [Hy | Hy].
  - intros [-> | Hx]%elem_of_cons; [by left | by apply IH].
  - cbn [map]. intros [-> | Hx]%elem_of_cons; [right; apply list_elem_of_here |].
    destruct (IH ({[key y]} ∪ seen) Hx) as [Hs | Hf].
    + apply elem_of_union in Hs as [Hs | Hs]; [| by left].
      apply elem_of_singleton in Hs. right. rewrite Hs. apply list_elem_of_here.
    + right. by apply list_elem_of_further.
Qed.

Lemma fo_first (seen : gset string) (l1 l2 : list A) (x : A) :
  key x ∉ seen -> key x ∉ map key l1 ->
  x ∈ first_occurrences key seen (l1 ++ x :: l2).
Proof.
  revert seen. induction l1 as [| y l1 IH]; intros seen Hs Hl.
  - cbn [app first_occurrences]. rewrite bool_decide_eq_false_2 by exact Hs.
    apply list_elem_of_here.
  - cbn [app first_occurrences]. cbn [map] in Hl.
    apply not_elem_of_cons in Hl as [Hne Hl].
    destruct (bool_decide (key y ∈ seen)).
    + by apply IH.
    + apply list_elem_of_further. apply IH; [| exact Hl].
      rewrite elem_of_union, elem_of_singleton. tauto.
Qed.

Lemma fo_length (seen : gset string) (l : list A) :
  length (first_occurrences key seen l) =
  size ((list_to_set (map key l) : gset string) ∖ seen).
Proof.
  revert seen. induction l as [| y l IH]; intros seen.
  - cbn. by rewrite difference_disjoint_L, size_empty by set_solver.
  - cbn [first_occurrences map list_to_set].
    destruct (bool_decide_reflect (key y ∈ seen)) as [Hy | Hy].
    + rewrite IH. f_equal. apply set_eq. intros k.
      rewrite !elem_of_difference, elem_of_union, elem_of_singleton.
      destruct (decide (k = key y)) as [-> | Hk]; tauto.
    + cbn [length]. rewrite IH.
      generalize (list_to_set (map key l) : gset string). intros ks.
      assert (Hsplit : ({[key y]} ∪ ks) ∖ seen = {[key y]} ∪ ks ∖ ({[key y]} ∪ seen)).
      { apply set_eq. intros k.
        rewrite !elem_of_difference, !elem_of_union, elem_of_difference,
          elem_of_union, elem_of_singleton.
        destruct (decide (k = key y)) as [-> | Hk]; tauto. }
      rewrite Hsplit.
      rewrite (size_union {[key y]} (ks ∖ ({[key y]} ∪ seen))).
      * by rewrite size_singleton.
      * apply disjoint_singleton_l.
        rewrite elem_of_difference, elem_of_union, elem_of_singleton. tauto.
Qed.

Lemma fo_length_distinct (l : list A) :
  length (first_occurrences key ∅ l) = distinct_keys key l.
Proof.
  rewrite fo_length. unfold distinct_keys. f_equal. apply difference_empty_L.
Qed.

End FirstOccurrences.

Lemma Forall_of_sublist {A : Type} (P : A -> Prop) (l1 l2 : list A) :
  sublist l1 l2 -> Forall P l2 -> Forall P l1.
Proof.
  intros Hsub Hall. apply Forall_forall. intros x Hx.
  apply (proj1 (Forall_forall P l2) Hall). by apply (elem_of_sublist l1).
Qed.

(** What the loop keeps of a list of candidates. *)
Lemma first_occurrences_spec {A : Type} (key : A -> string) (cands : list A) :
  let out := first_occurrences key ∅ cands in
  NoDup (map key out) /\
  sublist out cands /\
  (forall l1 x l2, cands = l1 ++ x :: l2 -> key x ∉ map key l1 -> x ∈ out) /\
  length out = distinct_keys key cands.
Proof.
  cbv zeta. split; [apply fo_NoDup |]. split; [apply fo_sublist |].
  split; [| apply fo_length_distinct].
  intros l1 x l2 -> Hl1. apply fo_first; [set_solver | exact Hl1].
Qed.

Lemma name_candidates_ok (anchors : list string) :
  Forall (fun n => ws_normal n = true /\ (2 <= String.length n <= 60)%nat)
         (name_candidates anchors).
Proof.
  unfold name_candidates. apply Forall_forall. intros n Hn.
  apply list_elem_of_In, filter_In in Hn as [Hin Hok].
  apply in_map_iff in Hin as (a & <- & _).
  split; [apply clean_ws_normal | by apply length_ok_bounds].
Qed.

Lemma entry_candidates_ok (links : list (string * string)) :
  Forall (fun e => ws_normal (fst e) = true /\
                   (2 <= String.length (fst e) <= 60)%nat /\
                   is_http (snd e) = true)
         (entry_candidates links).
Proof.
  unfold entry_candidates. apply Forall_forall. intros e He.
  apply list_elem_of_In, filter_In in He as [Hin Hok].
  apply andb_true_iff in Hok as [Hlen Hhttp].
  apply in_map_iff in Hin as (link & <- & _). cbn [fst snd] in *.
  split; [apply clean_ws_normal |]. split; [by apply length_ok_bounds | exact Hhttp].
Qed.

Section WithParser.

Variable html_events : string -> option (list Html.Event).

Lemma extract_names_eq (html : string) :
  extract_company_names_from_html html_events html =
  (fun events =>
     first_occurrences lower ∅
       (name_candidates (AnchorTextParser.anchors (AnchorTextParser.feed events))))
  <$> html_events html.
Proof.
  unfold extract_company_names_from_html.
  destruct (html_events html) as [events |];
    cbn [fmap option_fmap option_map mbind option_bind]; [| reflexivity].
  rewrite names_fold. cbn [app].
  pose proof (unique_fold
                (name_candidates (AnchorTextParser.anchors (AnchorTextParser.feed events)))
                ∅ []) as H.
  destruct (fold_left unique_step _ _) as [seen unique]. cbn [snd app] in H.
  by rewrite H.
Qed.

Lemma extract_entries_eq (html : string) :
  extract_company_entries_from_html html_events html =
  (fun events =>
     first_occurrences (fun e => lower (fst e)) ∅
       (entry_candidates (AnchorLinkParser.links (AnchorLinkParser.feed events))))
  <$> html_events html.
Proof.
  unfold extract_company_entries_from_html.
  destruct (html_events html) as [events |];
    cbn [fmap option_fmap option_map mbind option_bind]; [| reflexivity].
  pose proof (entries_fold (AnchorLinkParser.links (AnchorLinkParser.feed events))
                ∅ []) as H.
  destruct (fold_left entries_step _ _) as [seen entries]. cbn [snd app] in H.
  by rewrite H.
Qed.

(** C7 (amended): the names of both passes of the generic extractor are
    whitespace-normalized, of length 2 to 60, unique up to case, in the
    order of the candidates with the first occurrence of each kept; their
    number is the number of distinct lowercased forms of the candidates,
    which are the cleaned anchor texts that pass the length filter (and,
    in the first pass, have an absolute http(s) target).  Both passes
    return for every document the parser reads, and only for those. *)
Theorem generic_extractor_names (html : string) :
  match html_events html with
  | None =>
      extract_company_names_from_html html_events html = None /\
      extract_company_entries_from_html html_events html = None
  | Some events =>
      let anchors := AnchorTextParser.anchors (AnchorTextParser.feed events) in
      let links := AnchorLinkParser.links (AnchorLinkParser.feed events) in
      exists names entries,
        extract_company_names_from_html html_events html = Some names /\
        extract_company_entries_from_html html_events html = Some entries /\
        (Forall (fun n => ws_normal n = true /\ (2 <= String.length n <= 60)%nat) names /\
         NoDup (map lower names) /\
         sublist names (name_candidates anchors) /\
         (forall l1 x l2, name_candidates anchors = l1 ++ x :: l2 ->
                          lower x ∉ map lower l1 -> x ∈ names) /\
         length names = distinct_keys lower (name_candidates anchors)) /\
        (Forall (fun e => ws_normal (fst e) = true /\
                          (2 <= String.length (fst e) <= 60)%nat /\
                          is_http (snd e) = true) entries /\
         NoDup (map (fun e => lower (fst e)) entries) /\
         sublist entries (entry_candidates links) /\
         (forall l1 x l2, entry_candidates links = l1 ++ x :: l2 ->
                          lower (fst x) ∉ map (fun e => lower (fst e)) l1 ->
                          x ∈ entries) /\
         length entries = distinct_keys (fun e => lower (fst e)) (entry_candidates links))
  end.
Proof.
  rewrite extract_names_eq, extract_entries_eq.
  destruct (html_events html) as [events |];
    cbn [fmap option_fmap option_map]; [| done].
  cbv zeta. eexists _, _. split; [reflexivity |]. split; [reflexivity |].
  split.
  - pose proof (first_occurrences_spec lower
      (name_candidates (AnchorTextParser.anchors (AnchorTextParser.feed events)))) as H.
    cbv zeta in H. destruct H as (Hnd & Hsub & Hfirst & Hlen).
    split; [| done].
    apply (Forall_of_sublist _ _ _ Hsub), name_candidates_ok.
  - pose proof (first_occurrences_spec (fun e : string * string => lower (fst e))
      (entry_candidates (AnchorLinkParser.links (AnchorLinkParser.feed events)))) as H.
    cbv zeta in H. destruct H as (Hnd & Hsub & Hfirst & Hlen).
    split; [| done].
    apply (Forall_of_sublist _ _ _ Hsub), entry_candidates_ok.
Qed.

End WithParser.

(** C7 as stated fails on the count: the one-letter anchor text is an
    anchor text with its own lowercased form, and it is filtered out. *)
Lemma anchor_count_counterexample :
  let anchors :=
    AnchorTextParser.anchors (AnchorTextParser.feed three_anchor_events) in
  anchors = ["Acme   Grid"; "ACME GRID"; "X"] /\
  extract_company_names_from_html (fun _ => Some three_anchor_events) "" =
    Some ["Acme Grid"] /\
  distinct_keys lower anchors = 3%nat /\
  distinct_keys lower (map clean anchors) = 2%nat.
Proof. vm_compute. repeat split. Qed.

Lemma generic_extractor_names_witness :
  exists names entries,
    extract_company_names_from_html (fun _ => Some three_anchor_events) "" = Some names /\
    extract_company_entries_from_html (fun _ => Some three_anchor_events) "" =
      Some entries /\
    "Acme Grid" ∈ names /\ length entries = 1%nat.
Proof.
  pose proof (generic_extractor_names (fun _ => Some three_anchor_events) "") as H.
  cbv beta iota zeta in H.
  destruct H as (names & entries & Hn & He &
                 (_ & _ & _ & Hfirst & _) & (_ & _ & _ & _ & Hlen)).
  exists names, entries. split; [exact Hn |]. split; [exact He |]. split.
  - apply (Hfirst [] "Acme Grid" ["ACME GRID"]); [reflexivity |].
    apply not_elem_of_nil.
  - rewrite Hlen. vm_compute. reflexivity.
Defined.

Section Scrape.

Variable html_events : string -> option (list Html.Event).
Variable urlparse_hostname : string -> string.
Variable file_url_path : string -> option string.
Variable request_accepts : string -> bool.

Lemma list_or_length {A : Type} (l fallback : list A) :
  l <> [] -> list_or l fallback = l.
Proof. by destruct l. Qed.






End Scrape.



End ScraperTheory.




Module ReTheory.
Import Py Re InferSpec StringFacts.










End ReTheory.

Module PatternTheory.
Import Py Re Scraper InferSpec StringFacts ReTheory.










(** *** The first successful candidate *)




End PatternTheory.

Module InferTheory.
Import Py Re Scraper InferSpec StringFacts ReTheory PatternTheory.

(** *** Character classes *)










(** *** A phrase has no whitespace at its ends *)






(** *** The possessive pattern *)






(** *** The verb pattern *)

Section Search.

Variables guard group tail : Matcher.



End Search.




(** *** One phrase per start *)













(** *** The website *)




Section WithHostname.

Variable urlparse_hostname : string -> string.





End WithHostname.




End InferTheory.

(** * Runs of the model on small inputs *)

(** ** Further properties of the enrichment steps *)

Module EnrichmentLaws.
Import Py Enrichment EnrichmentTheory.

Lemma str_truthy_true (s : string) : str_truthy s = true <-> s <> "".
Proof. destruct s; simpl; split; congruence. Qed.

Lemma round_truthy_all (r : RoundStage) : round_truthy r = true.
Proof. by destruct r. Qed.

Lemma set_website_same (c : Company) : set_website (website c) c = c.
Proof. by destruct c. Qed.

Lemma set_last_round_same (c : Company) : set_last_round (last_round c) c = c.
Proof. by destruct c. Qed.

Lemma hash_round_stage_lower (n1 n2 : string) :
  lower n1 = lower n2 -> _hash_round_stage n1 = _hash_round_stage n2.
Proof.
  intros Hl.
  destruct n1 as [| c1 n1'], n2 as [| c2 n2'];
    [reflexivity | discriminate Hl | discriminate Hl |].
  rewrite !hash_round_stage_nonempty by discriminate.
  unfold EnrichmentSpec.hashed_round. rewrite Hl. reflexivity.
Qed.

(** The round [enrich_round] writes into a record whose round is unknown:
    the entry of the map when the lowercased name is a key, the hashed round
    when it is not. *)
Lemma enrich_round_unknown (c : Company) (round_map : gmap string RoundStage) :
  last_round c = UNKNOWN ->
  enrich_round c round_map =
  match round_map !! lower (name c) with
  | Some e => Some (set_last_round e c)
  | None => r ← _hash_round_stage (name c); Some (set_last_round r c)
  end.
Proof.
  intros Hu. unfold enrich_round. rewrite Hu. cbn [negb].
  change (round_eq UNKNOWN UNKNOWN) with true. cbn [negb].
  destruct (round_map !! lower (name c)) as [e |]; [| reflexivity].
  by rewrite round_truthy_all.
Qed.

Lemma round_known_dec (r : RoundStage) : r = UNKNOWN \/ r <> UNKNOWN.
Proof. destruct r; (by left) || (right; discriminate). Qed.

(** X1: [fill_missing_fields] writes [website] and [last_round] only, and
    each of them only when it is missing: an empty website is replaced by
    the one of the mock record, an unknown round by its round; a record
    whose lowercased name is no key of the map is returned as it is. *)
Theorem fill_missing_fields_frame (c : Company) (mock_map : gmap string Company) :
  let c' := fill_missing_fields c mock_map in
  (name c' = name c /\ description c' = description c /\ source c' = source c /\
   energy_keywords c' = energy_keywords c /\ stage c' = stage c /\
   profile_url c' = profile_url c) /\
  (website c <> "" -> website c' = website c) /\
  (last_round c <> UNKNOWN -> last_round c' = last_round c) /\
  (mock_map !! lower (name c) = None -> c' = c) /\
  (forall mock, mock_map !! lower (name c) = Some mock ->
     (website c = "" -> website c' = website mock) /\
     (last_round c = UNKNOWN -> last_round c' = last_round mock)).
Proof.
  cbv zeta. unfold fill_missing_fields. cbv zeta.
  destruct (mock_map !! lower (name c)) as [mock |] eqn:Hm.
  - destruct (str_truthy (website c)) eqn:Hw; cbn [negb];
      destruct (round_eq (last_round _) UNKNOWN) eqn:Hr;
      cbn [set_website set_last_round name website description last_round
           source energy_keywords stage profile_url] in *;
      (split; [auto 10 |]);
      (split; [intros Hne; try reflexivity;
               apply str_truthy_true in Hne; congruence |]);
      (split; [intros Hne; try reflexivity;
               apply round_eq_unknown_false in Hne; congruence |]);
      (split; [discriminate |]);
      intros mock' Heq; injection Heq as <-;
      (split; [intros He; try reflexivity;
               rewrite He in Hw; discriminate Hw |]);
      intros Hu; try reflexivity; rewrite Hu in Hr; discriminate Hr.
  - split; [auto 10 |]. do 3 (split; [reflexivity |]). discriminate.
Qed.

(** X2: [fill_missing_fields] is idempotent: a second pass with the same map
    changes nothing. *)
Theorem fill_missing_fields_idempotent (c : Company) (mock_map : gmap string Company) :
  fill_missing_fields (fill_missing_fields c mock_map) mock_map =
  fill_missing_fields c mock_map.
Proof.
  unfold fill_missing_fields. cbv zeta.
  destruct (mock_map !! lower (name c)) as [mock |] eqn:Hm; [| by rewrite Hm].
  destruct c as [n w d r s k st p], mock as [n' w' d' r' s' k' st' p'].
  cbn [name website last_round] in *.
  destruct w as [| a w], w' as [| a' w'], r, r';
    cbn -[lookup lower]; rewrite ?Hm; cbn -[lookup lower]; reflexivity.
Qed.

(** X3: [enrich_round] always returns a record, which differs from its
    argument in [last_round] at most; a record with an unknown round gets the
    round the map holds for its lowercased name, and the hashed round exactly
    when the map has no such key. *)
Theorem enrich_round_total_frame (c : Company) (round_map : gmap string RoundStage) :
  exists c', enrich_round c round_map = Some c' /\
    (name c' = name c /\ website c' = website c /\ description c' = description c /\
     source c' = source c /\ energy_keywords c' = energy_keywords c /\
     stage c' = stage c /\ profile_url c' = profile_url c) /\
    (last_round c <> UNKNOWN -> c' = c) /\
    (last_round c = UNKNOWN ->
       match round_map !! lower (name c) with
       | Some e => last_round c' = e
       | None => _hash_round_stage (name c) = Some (last_round c')
       end).
Proof.
  destruct (round_known_dec (last_round c)) as [Hu | Hk].
  - rewrite (enrich_round_unknown c round_map Hu).
    destruct (round_map !! lower (name c)) as [e |].
    + eexists. split; [reflexivity |]. cbn. split; [auto 10 |].
      split; [congruence | reflexivity].
    + destruct (hash_round_stage_total (name c)) as (r & Hr & _). rewrite Hr.
      eexists. split; [reflexivity |]. cbn. split; [auto 10 |].
      split; [congruence | reflexivity].
  - rewrite (enrich_round_known c round_map Hk). exists c.
    split; [reflexivity |]. split; [auto 10 |]. split; [reflexivity | congruence].
Qed.

(** X4: [enrich_round] is idempotent: applied to its own result, with the
    same map, it returns that result. *)
Theorem enrich_round_idempotent (c c' : Company) (round_map : gmap string RoundStage) :
  enrich_round c round_map = Some c' -> enrich_round c' round_map = Some c'.
Proof.
  intros H.
  destruct (round_known_dec (last_round c)) as [Hu | Hk].
  - rewrite (enrich_round_unknown c round_map Hu) in H.
    destruct (round_known_dec (last_round c')) as [Hu' | Hk'];
      [| by apply enrich_round_known].
    rewrite (enrich_round_unknown c' round_map Hu').
    destruct (round_map !! lower (name c)) as [e |] eqn:Hm.
    + injection H as <-. cbn [set_last_round name] in *. rewrite Hm.
      by destruct c.
    + destruct (_hash_round_stage (name c)) as [r |] eqn:Hr; [| discriminate H].
      injection H as <-. cbn [set_last_round last_round] in Hu'.
      apply hash_round_stage_not_unknown in Hr. contradiction.
  - rewrite (enrich_round_known c round_map Hk) in H. injection H as <-.
    by apply enrich_round_known.
Qed.

(** X5: round assignment does not look at letter case: two records with an
    unknown round whose names are equal once lowercased get the same round
    from the same map. *)
Theorem enrich_round_case_insensitive
    (c1 c2 c1' c2' : Company) (round_map : gmap string RoundStage) :
  lower (name c1) = lower (name c2) ->
  last_round c1 = UNKNOWN -> last_round c2 = UNKNOWN ->
  enrich_round c1 round_map = Some c1' ->
  enrich_round c2 round_map = Some c2' ->
  last_round c1' = last_round c2'.
Proof.
  intros Hl H1 H2 E1 E2.
  rewrite (enrich_round_unknown c1 round_map H1) in E1.
  rewrite (enrich_round_unknown c2 round_map H2) in E2.
  rewrite <- Hl in E2.
  rewrite <- (hash_round_stage_lower _ _ Hl) in E2.
  destruct (round_map !! lower (name c1)) as [e |].
  - injection E1 as <-. injection E2 as <-. reflexivity.
  - destruct (_hash_round_stage (name c1)) as [r |]; [| discriminate E1].
    injection E1 as <-. injection E2 as <-. reflexivity.
Qed.

Lemma enrich_round_idempotent_witness :
  let c := mock_company "Acme" "" "" UNKNOWN "EIP" in
  let c' := mock_company "Acme" "" "" SERIES_D "EIP" in
  enrich_round c load_enrichment_map = Some c' /\
  enrich_round c' load_enrichment_map = Some c'.
Proof.
  cbv zeta. split; [vm_compute; reflexivity |].
  apply (enrich_round_idempotent (mock_company "Acme" "" "" UNKNOWN "EIP")).
  vm_compute. reflexivity.
Defined.

Lemma enrich_round_case_insensitive_witness :
  last_round (mock_company "Acme" "" "" SERIES_D "EIP") =
  last_round (mock_company "ACME" "https://acme.example.com" "" SERIES_D "SET").
Proof.
  apply (enrich_round_case_insensitive
           (mock_company "Acme" "" "" UNKNOWN "EIP")
           (mock_company "ACME" "https://acme.example.com" "" UNKNOWN "SET")
           _ _ load_enrichment_map);
    vm_compute; reflexivity.
Defined.

End EnrichmentLaws.

(** ** Further properties of the requests and of the filter *)

Module TextFacts.
Import Py InferSpec StringFacts.

Lemma contains_here (sub s : string) :
  String.prefix sub s = true -> contains sub s = true.
Proof. intros H. destruct s; cbn [contains]; by rewrite H. Qed.

Lemma contains_cons (sub : string) (c : ascii) (s : string) :
  contains sub s = true -> contains sub (String c s) = true.
Proof. intros H. cbn [contains]. rewrite H. apply orb_true_r. Qed.

(** [sub in s] holds exactly when [s] is some text, [sub], some text. *)
Lemma contains_spec (sub s : string) :
  contains sub s = true <->
  exists pre post, s = String.append pre (String.append sub post).
Proof.
  split.
  - induction s as [| c s IH]; cbn [contains]; intros H.
    + rewrite orb_false_r in H. apply prefix_append in H as [r Hr].
      exists EmptyString, r. by str_simpl.
    + apply orb_true_iff in H as [H | H].
      * apply prefix_append in H as [r Hr]. exists EmptyString, r. by str_simpl.
      * destruct (IH H) as (pre & post & ->). exists (String c pre), post.
        by str_simpl.
  - intros (pre & post & ->). induction pre as [| c pre IH]; str_simpl.
    + apply contains_here, prefix_append. by exists post.
    + by apply contains_cons.
Qed.

Lemma contains_trans (a b c : string) :
  contains a b = true -> contains b c = true -> contains a c = true.
Proof.
  intros (p1 & q1 & ->)%contains_spec (p2 & q2 & ->)%contains_spec.
  apply contains_spec. exists (String.append p2 p1), (String.append q1 q2).
  by rewrite !append_assoc.
Qed.

Lemma lower_append (a b : string) :
  lower (String.append a b) = String.append (lower a) (lower b).
Proof.
  unfold lower. induction a as [| c a IH]; str_simpl; cbn [str_map]; str_simpl;
    congruence.
Qed.

Lemma lstrip_all (q : ascii -> bool) (a s : string) :
  all_chars q a = true -> lstrip_by q (String.append a s) = lstrip_by q s.
Proof.
  induction a as [| c a IH]; str_simpl; [done |].
  cbn [all_chars lstrip_by]. intros [-> H]%andb_true_iff. by apply IH.
Qed.

Lemma rstrip_all (q : ascii -> bool) (s a : string) :
  all_chars q a = true -> rstrip_by q (String.append s a) = rstrip_by q s.
Proof.
  intros Ha. induction s as [| c s IH]; str_simpl.
  - induction a as [| d a IHa]; [reflexivity |].
    cbn [all_chars] in Ha. apply andb_true_iff in Ha as [Hd Ha].
    cbn [rstrip_by]. rewrite (IHa Ha). cbn [rstrip_by]. by rewrite Hd.
  - cbn [rstrip_by]. by rewrite IH.
Qed.

Lemma lstrip_none (q : ascii -> bool) (s : string) :
  all_chars (fun c => negb (q c)) s = true -> lstrip_by q s = s.
Proof.
  destruct s as [| c s]; [done |]. cbn [all_chars lstrip_by].
  intros [Hc _]%andb_true_iff. apply negb_true_iff in Hc. by rewrite Hc.
Qed.

Lemma rstrip_none (q : ascii -> bool) (s : string) :
  all_chars (fun c => negb (q c)) s = true -> rstrip_by q s = s.
Proof.
  induction s as [| c s IH]; [done |]. cbn [all_chars rstrip_by].
  intros [Hc Hs]%andb_true_iff. apply negb_true_iff in Hc. rewrite (IH Hs).
  destruct s; [by rewrite Hc | reflexivity].
Qed.

Lemma replace_first_here (old new s : string) :
  String.prefix old s = true ->
  replace_first old new s = String.append new (drop_chars (String.length old) s).
Proof. intros H. destruct s; cbn [replace_first]; by rewrite H. Qed.

Lemma length_take_chars (n : nat) (s : string) :
  String.length (LLMRequests.take_chars n s) = Nat.min n (String.length s).
Proof.
  revert s. induction n as [| n IH]; intros [| c s]; cbn; try reflexivity.
  by rewrite IH.
Qed.

Lemma take_chars_all (n : nat) (s : string) :
  (String.length s <= n)%nat -> LLMRequests.take_chars n s = s.
Proof.
  revert s. induction n as [| n IH]; intros [| c s]; cbn; try done; [lia |].
  intros H. f_equal. apply IH. lia.
Qed.

Lemma take_chars_prefix (n : nat) (s : string) :
  String.prefix (LLMRequests.take_chars n s) s = true.
Proof.
  revert s. induction n as [| n IH]; intros [| c s]; cbn; try reflexivity.
  destruct (ascii_dec c c); [apply IH | done].
Qed.

End TextFacts.

Module RequestTheory.
Import Py Config LLM LLMRequests Filtering Relevance RequestSpec FilteringSpec.
Import Scraper ScraperSpec InferSpec StringFacts TextFacts.
Import EnrichmentTheory EnrichmentLaws BatchTheory ScraperTheory.

Lemma get_client_sent (env : Env) (st : State) :
  sent (snd (_get_client env st)) = sent st.
Proof.
  unfold _get_client. destruct (_client st); [reflexivity |].
  destruct (genai_importable env); [| reflexivity].
  destruct (api_key env) as [key |]; [| reflexivity].
  by destruct (str_truthy key).
Qed.

Lemma round_eligible_early (r : RoundStage) :
  is_round_eligible r = true -> r ∈ [SEED; SERIES_A; SERIES_B; SERIES_C].
Proof.
  destruct r; vm_compute; intros H; try discriminate H;
    repeat (first [apply list_elem_of_here | apply list_elem_of_further]).
Qed.

Lemma survivor_spec (c : Company) :
  survivor c = true ->
  last_round c ∈ [SEED; SERIES_A; SERIES_B; SERIES_C] /\ description c <> "".
Proof.
  unfold survivor. intros [Hr Hd]%andb_true_iff.
  split; [by apply round_eligible_early | by apply str_truthy_true].
Qed.

Lemma get_client_state (env : Env) (st : State) :
  match fst (_get_client env st) with
  | Some c => _client (snd (_get_client env st)) = Some c
  | None => snd (_get_client env st) = st
  end.
Proof.
  unfold _get_client. destruct (_client st) eqn:Hc; [exact Hc |].
  destruct (genai_importable env); [| reflexivity].
  destruct (api_key env) as [key |]; [| reflexivity].
  by destruct (str_truthy key).
Qed.

(** X6: [_get_client] makes the client once.  When it returns a client, the
    global holds it from then on and every later call returns that same
    client, whatever the environment has become; when it returns none, it
    leaves the state as it was, so the next call tries again.  A new client
    carries the non-empty key of the environment. *)
Theorem get_client_cached (env : Env) (st : State) :
  let client := fst (_get_client env st) in
  let st' := snd (_get_client env st) in
  sent st' = sent st /\
  match client with
  | Some c =>
      _client st' = Some c /\
      (forall env', _get_client env' st' = (Some c, st')) /\
      (_client st = Some c \/
       (_client st = None /\ genai_importable env = true /\
        api_key env = Some (client_key c) /\ client_key c <> ""))
  | None =>
      st' = st /\ _client st = None /\
      (genai_importable env = false \/ api_key env = None \/ api_key env = Some "")
  end.
Proof.
  cbv zeta. split; [apply get_client_sent |].
  unfold _get_client. destruct st as [[c |] log]; cbn [_client sent fst snd].
  - split; [reflexivity |]. split; [reflexivity | by left].
  - destruct (genai_importable env); cbn [negb fst snd]; [| by auto].
    destruct (api_key env) as [key |]; cbn [fst snd]; [| by auto].
    destruct key as [| a key]; cbn [str_truthy negb fst snd _client]; [by auto |].
    split; [reflexivity |]. split; [reflexivity |]. right. by auto.
Qed.

Section WithJson.

Variable json_loads : string -> Py.JsonResult.

Lemma matches_energy_run (env : Env) (st : State) (description : string)
    (keywords : list string) :
  llm_matches_energy json_loads env description keywords st =
  (match reply_to json_loads env st (match_prompt description keywords) with
   | Some JsonOtherError => None
   | Some (JsonValue (PyBool b)) => Some b
   | _ => Some false
   end,
   match fst (_get_client env st) with
   | Some c => mkState (Some c) (sent st ++ [match_prompt description keywords])
   | None => st
   end).
Proof.
  unfold llm_matches_energy, reply_to.
  unfold mbind, M_bind, mret, M_ret.
  pose proof (get_client_sent env st) as Hs.
  pose proof (get_client_state env st) as Hg.
  destruct (_get_client env st) as [[client |] st1]; cbn [fst snd] in *.
  - unfold call_model. rewrite Hs, Hg.
    destruct (generate_content env (client_key client) GEMINI_MODEL
                (match_prompt description keywords)) as [| text]; [reflexivity |].
    by destruct (json_loads (strip_code_fence text)) as [[| | | | | |] | |].
  - by rewrite Hg.
Qed.

(** X7: [llm_matches_energy] answers true exactly when the reply to its one
    request, unfenced, parses to the JSON value true, and is left by an
    exception exactly when [json.loads] raises one that is no
    [JSONDecodeError] on that text; in every other case (no client, a call
    that raises, a text that is no JSON, any other value) it answers false.
    It sends its prompt, which ends with the description, when a client is
    at hand and nothing otherwise. *)
Theorem llm_matches_energy_spec (env : Env) (st : State) (description : string)
    (keywords : list string) :
  let prompt := match_prompt description keywords in
  let r := llm_matches_energy json_loads env description keywords st in
  (fst r = Some true <->
   reply_to json_loads env st prompt = Some (JsonValue (PyBool true))) /\
  (fst r = None <-> reply_to json_loads env st prompt = Some JsonOtherError) /\
  (fst r = Some false <->
   reply_to json_loads env st prompt <> Some (JsonValue (PyBool true)) /\
   reply_to json_loads env st prompt <> Some JsonOtherError) /\
  sent (snd r) = sent st ++ request_of env st prompt /\
  (exists intro, prompt = intro +:+ description).
Proof.
  cbv zeta. rewrite matches_energy_run. cbn [fst snd].
  split; [| split; [| split; [| split]]].
  - destruct (reply_to json_loads env st (match_prompt description keywords))
      as [[[| [|] | | | | |] | |] |]; split; congruence.
  - destruct (reply_to json_loads env st (match_prompt description keywords))
      as [[[| [|] | | | | |] | |] |]; split; congruence.
  - destruct (reply_to json_loads env st (match_prompt description keywords))
      as [[[| [|] | | | | |] | |] |]; split;
      first [done | by intros [H1 H2] | split; congruence].
  - unfold request_of. destruct (fst (_get_client env st)); cbn [sent].
    + reflexivity.
    + by rewrite app_nil_r.
  - unfold match_prompt. eexists.
    rewrite <- !append_assoc. reflexivity.
Qed.

(** X8: [is_relevant] asks the model only about a record that passes the
    round gate and has a description: for any other record it answers false,
    sends nothing and leaves the state as it is.  When it answers true the
    round is Seed, Series A, B or C, the description is not empty, and the
    reply to the request for that description parsed to true. *)
Theorem is_relevant_gate (env : Env) (st : State) (c : Company) :
  let r := is_relevant json_loads env c st in
  (is_round_eligible (last_round c) = false \/ description c = "" ->
   r = (Some false, st)) /\
  (fst r = Some true ->
   last_round c ∈ [SEED; SERIES_A; SERIES_B; SERIES_C] /\ description c <> "" /\
   reply_to json_loads env st (match_prompt (description c) ENERGY_KEYWORDS) =
     Some (JsonValue (PyBool true))).
Proof.
  cbv zeta. unfold is_relevant. split.
  - intros [-> | ->]; [reflexivity |].
    by destruct (is_round_eligible (last_round c)).
  - destruct (is_round_eligible (last_round c)) eqn:Hr; cbn [negb];
      [| discriminate].
    destruct (str_truthy (description c)) eqn:Hd; cbn [negb]; [| discriminate].
    intros H. split; [by apply round_eligible_early |].
    split; [by apply str_truthy_true |].
    rewrite matches_energy_run in H. cbn [fst] in H.
    by destruct (reply_to json_loads env st _) as [[[| [|] | | | | |] | |] |].
Qed.

(** X9: when [llm_filter_energy_bulk] returns, it returns one boolean for
    each description; it is left by an exception exactly when the batch is
    not empty and [json.loads] raises one that is no [JSONDecodeError] on
    the unfenced reply.  For an empty list it returns the empty list and
    touches neither the client nor the model; with no client every boolean
    is false and nothing is sent. *)
Theorem bulk_filter_length (env : Env) (st : State)
    (descriptions keywords : list string) :
  let r := llm_filter_energy_bulk json_loads env descriptions keywords st in
  (forall results, fst r = Some results -> length results = length descriptions) /\
  (fst r = None <->
   descriptions <> [] /\
   parsed_reply json_loads env st descriptions keywords = Some JsonOtherError) /\
  (descriptions = [] -> r = (Some [], st)) /\
  (fst (_get_client env st) = None ->
   r = (Some (replicate (length descriptions) false), st)).
Proof.
  cbv zeta. split; [apply length_bulk_result |]. split; [| split].
  - destruct descriptions as [| d ds].
    + split; [discriminate | by intros [H _]].
    + rewrite bulk_result by discriminate.
      destruct (parsed_reply json_loads env st (d :: ds) keywords)
        as [[[| | | | | parsed |] | |] |];
        try (split; [discriminate | by intros [_ [=]]]).
      * destruct (length parsed =? length (d :: ds))%nat;
          (split; [discriminate | by intros [_ [=]]]).
      * by split.
  - intros ->. reflexivity.
  - intros Hn. destruct descriptions as [| d ds]; [reflexivity |].
    unfold llm_filter_energy_bulk. unfold mbind, M_bind, mret, M_ret.
    pose proof (get_client_state env st) as Hg.
    destruct (_get_client env st) as [[client |] st1]; cbn [fst snd] in *;
      [discriminate Hn |].
    by rewrite Hg.
Qed.

Lemma selected_sublist {A : Type} (sv : list A) (bs : list bool) :
  sublist (map fst (List.filter snd (zip sv bs))) sv.
Proof.
  revert bs. induction sv as [| c sv IH]; intros [| b bs]; cbn;
    try apply sublist_nil_l.
  destruct b; cbn [map fst].
  - apply sublist_skip, IH.
  - apply sublist_cons, IH.
Qed.

Lemma filter_sublist {A : Type} (p : A -> bool) (l : list A) :
  sublist (List.filter p l) l.
Proof.
  induction l as [| x l IH]; cbn; [constructor |].
  destruct (p x); [by apply sublist_skip | by apply sublist_cons].
Qed.

Lemma filter_all {A : Type} (p : A -> bool) (l : list A) :
  Forall (fun x => p x = true) (List.filter p l).
Proof.
  apply Forall_forall. intros x Hx.
  by apply list_elem_of_In, filter_In in Hx as [_ Hx].
Qed.

(** [filter_relevant] is left by an exception exactly when
    [llm_filter_energy_bulk] is. *)
Lemma filter_relevant_raises (env : Env) (st : State) (companies : list Company) :
  let batch := map description (List.filter survivor companies) in
  fst (filter_relevant json_loads env companies st) = None <->
  batch <> [] /\
  parsed_reply json_loads env st batch ENERGY_KEYWORDS = Some JsonOtherError.
Proof.
  cbv zeta. rewrite filter_relevant_join. cbn [fst].
  set (sv := List.filter survivor companies).
  destruct (map description sv) as [| d ds] eqn:Hb.
  { cbn. split; [discriminate | by intros [H _]]. }
  rewrite bulk_result by discriminate.
  destruct (parsed_reply json_loads env st (d :: ds) ENERGY_KEYWORDS)
    as [[[| | | | | parsed |] | |] |]; cbn [fmap option_fmap option_map];
    try (split; [discriminate | by intros [_ [=]]]).
  - destruct (length parsed =? length (d :: ds))%nat;
      (split; [discriminate | by intros [_ [=]]]).
  - by split.
Qed.

(** X10: a list [filter_relevant] returns is a sublist of its argument (same
    records, same order, none added), and every record in it has a round
    among Seed, Series A, B and C and a description.  [filter_relevant]
    returns a list unless [json.loads] raises an exception that is no
    [JSONDecodeError] on the reply to a batch that is not empty, and it
    sends at most one request. *)
Theorem filter_relevant_sound (env : Env) (st : State) (companies : list Company) :
  let batch := map description (List.filter survivor companies) in
  let r := filter_relevant json_loads env companies st in
  (forall out,
     fst r = Some out ->
     sublist out companies /\
     Forall (fun c => last_round c ∈ [SEED; SERIES_A; SERIES_B; SERIES_C] /\
                      description c <> "") out) /\
  (fst r = None <->
   batch <> [] /\
   parsed_reply json_loads env st batch ENERGY_KEYWORDS = Some JsonOtherError) /\
  (length (sent (snd r)) <= length (sent st) + 1)%nat.
Proof.
  cbv zeta. split; [| split; [apply filter_relevant_raises |]].
  - rewrite filter_relevant_join. cbn [fst snd].
    set (sv := List.filter survivor companies).
    destruct (fst (llm_filter_energy_bulk json_loads env (map description sv)
                     ENERGY_KEYWORDS st)) as [matches |];
      cbn [fmap option_fmap option_map]; [| discriminate].
    intros out [= <-].
    pose proof (selected_sublist sv matches) as Hsub.
    split.
    + etrans; [exact Hsub | apply filter_sublist].
    + apply (Forall_of_sublist _ _ _ Hsub).
      apply (Forall_impl _ _ _ (filter_all survivor companies)).
      intros c. apply survivor_spec.
  - rewrite filter_relevant_join. cbn [snd]. rewrite bulk_sent. rewrite length_app.
    destruct (map description _), (fst (_get_client env st)); cbn; lia.
Qed.

Lemma cleaned_fold (items : list Py.PyObj) (cleaned : list string)
    (seen : gset string) :
  fst (fold_left cleaned_step items (cleaned, seen)) =
  cleaned ++ first_occurrences lower seen (name_candidates (strings items)).
Proof.
  revert cleaned seen. induction items as [| item items IH]; intros cleaned seen.
  - cbn. by rewrite app_nil_r.
  - cbn [fold_left].
    destruct item as [| b | z | f | s | l | d]; cbn [cleaned_step strings];
      try apply IH.
    unfold name_candidates. cbn [map List.filter]. fold (name_candidates (strings items)).
    destruct (length_ok (clean s)); [| apply IH].
    cbn [first_occurrences].
    destruct (decide (lower (clean s) ∈ seen)) as [Hin | Hnin].
    + rewrite (bool_decide_eq_false_2 (lower (clean s) ∉ seen)) by tauto.
      rewrite (bool_decide_eq_true_2 _ Hin). apply IH.
    + rewrite (bool_decide_eq_true_2 (lower (clean s) ∉ seen)) by exact Hnin.
      rewrite (bool_decide_eq_false_2 _ Hnin). rewrite IH.
      by rewrite <- app_assoc.
Qed.

Lemma extract_names_run (env : Env) (st : State) (html : string) :
  let prompt := extraction_prompt (take_chars (N.to_nat LLM_HTML_CHAR_LIMIT) html) in
  extract_company_names_with_gemini json_loads env html st =
  (match reply_to json_loads env st prompt with
   | Some JsonOtherError => None
   | Some (JsonValue (PyList items)) =>
       Some (first_occurrences lower ∅ (name_candidates (strings items)))
   | _ => Some []
   end,
   match fst (_get_client env st) with
   | Some c => mkState (Some c) (sent st ++ [prompt])
   | None => st
   end).
Proof.
  cbv zeta. unfold extract_company_names_with_gemini, reply_to.
  unfold mbind, M_bind, mret, M_ret.
  pose proof (get_client_sent env st) as Hs.
  pose proof (get_client_state env st) as Hg.
  destruct (_get_client env st) as [[client |] st1]; cbn [fst snd] in *.
  - unfold call_model. rewrite Hs, Hg.
    destruct (generate_content env (client_key client) GEMINI_MODEL _)
      as [| text]; [reflexivity |].
    destruct (json_loads (strip_code_fence text)) as [[| | | | | items |] | |];
      try reflexivity.
    pose proof (cleaned_fold items [] ∅) as Hf. cbn [app] in Hf.
    destruct (fold_left cleaned_step items ([], ∅)) as [cleaned seen].
    cbn [fst] in Hf. by rewrite Hf.
  - by rewrite Hg.
Qed.

(** X11: the names [extract_company_names_with_gemini] returns are the [str]
    items of the reply, cleaned, those of length 2 to 60, the first
    occurrence of each lowercased form kept in order; so they are
    whitespace-normalized, of length 2 to 60 and unique up to case.  There
    are none when no client is at hand, the call raises, or the reply is no
    JSON or no list; when [json.loads] raises an exception that is no
    [JSONDecodeError] on the reply, the function is left by it.  The one
    request is a fixed text followed by the document, cut after
    [LLM_HTML_CHAR_LIMIT] characters (a shorter document goes whole). *)
Theorem extract_names_with_gemini_spec (env : Env) (st : State) (html : string) :
  let trimmed := take_chars (N.to_nat LLM_HTML_CHAR_LIMIT) html in
  let prompt := extraction_intro +:+ trimmed in
  let r := extract_company_names_with_gemini json_loads env html st in
  fst r = match reply_to json_loads env st prompt with
          | Some JsonOtherError => None
          | Some (JsonValue (PyList items)) =>
              Some (first_occurrences lower ∅ (name_candidates (strings items)))
          | _ => Some []
          end /\
  (forall names,
     fst r = Some names ->
     Forall (fun n => ws_normal n = true /\ (2 <= String.length n <= 60)%nat) names /\
     NoDup (map lower names)) /\
  sent (snd r) = sent st ++ request_of env st prompt /\
  (N.of_nat (String.length trimmed) <= LLM_HTML_CHAR_LIMIT)%N /\
  String.prefix trimmed html = true /\
  ((N.of_nat (String.length html) <= LLM_HTML_CHAR_LIMIT)%N -> trimmed = html).
Proof.
  cbv zeta.
  assert (Hp : extraction_intro +:+ take_chars (N.to_nat LLM_HTML_CHAR_LIMIT) html =
               extraction_prompt (take_chars (N.to_nat LLM_HTML_CHAR_LIMIT) html)).
  { unfold extraction_prompt, extraction_intro. by rewrite !append_assoc. }
  rewrite Hp.
  pose proof (extract_names_run env st html) as Hrun. cbv zeta in Hrun.
  rewrite Hrun. cbn [fst snd].
  split; [reflexivity |]. split; [| split; [| split; [| split]]].
  - destruct (reply_to json_loads env st _) as [[[| | | | | items |] | |] |];
      try (intros names [= <-]; split; [apply Forall_nil_2 | apply NoDup_nil_2]);
      try discriminate.
    intros names [= <-]. split.
    + pose proof (first_occurrences_spec lower (name_candidates (strings items))) as H.
      cbv zeta in H. destruct H as (_ & Hsub & _).
      apply (Forall_of_sublist _ _ _ Hsub), name_candidates_ok.
    + apply fo_NoDup.
  - unfold request_of. destruct (fst (_get_client env st)); cbn [sent].
    + reflexivity.
    + by rewrite app_nil_r.
  - rewrite length_take_chars.
    pose proof (Nat.le_min_l (N.to_nat LLM_HTML_CHAR_LIMIT) (String.length html)) as Hle.
    apply N.le_trans with (N.of_nat (N.to_nat LLM_HTML_CHAR_LIMIT)).
    + generalize dependent (N.to_nat LLM_HTML_CHAR_LIMIT). intros n _ _ Hle. lia.
    + rewrite N2Nat.id. reflexivity.
  - apply take_chars_prefix.
  - intros Hshort. apply take_chars_all.
    rewrite <- (N2Nat.id LLM_HTML_CHAR_LIMIT) in Hshort.
    generalize dependent (N.to_nat LLM_HTML_CHAR_LIMIT). intros n _ _ Hshort. lia.
Qed.

End WithJson.

(** *** The code fence *)

Lemma mem_tick (c : ascii) : mem_char c "`" = Ascii.eqb c "`".
Proof. cbn. apply orb_false_r. Qed.

Lemma free_of_ticks (body : string) :
  free_of "`" body = true ->
  all_chars (fun c => negb (mem_char c "`")) body = true.
Proof.
  unfold free_of. induction body as [| c body IH]; [done |].
  cbn [all_chars]. intros [Hc Hb]%andb_true_iff.
  by rewrite mem_tick, Hc, IH.
Qed.

Lemma strip_ticks (body : string) :
  free_of "`" body = true ->
  strip_chars "`" ("```" +:+ body +:+ "```") = body.
Proof.
  intros Hb%free_of_ticks. unfold strip_chars.
  rewrite (lstrip_all (fun c => mem_char c "`") "```" (body +:+ "```")) by reflexivity.
  destruct body as [| c body]; [reflexivity |].
  str_simpl. rewrite lstrip_keep.
  - rewrite <- append_cons. rewrite rstrip_all by reflexivity. by apply rstrip_none.
  - cbn [all_chars] in Hb. apply andb_true_iff in Hb as [Hc _].
    by apply negb_true_iff in Hc.
Qed.

Lemma fenced_text_stripped (body : string) :
  strip ("```" +:+ body +:+ "```") = "```" +:+ body +:+ "```".
Proof.
  change ("```" +:+ body +:+ "```") with (String "`" ("``" +:+ body +:+ "```")).
  unfold strip. rewrite lstrip_keep by reflexivity.
  apply (rstrip_keep _ _ None); [discriminate |].
  intros c. change (String "`" ("``" +:+ body +:+ "```"))
    with ("```" +:+ (body +:+ "```")).
  rewrite !last_char_append. cbn [Re.last_char]. by intros [= <-].
Qed.

(** X12: for a reply between two fences of three backticks whose body holds
    no backtick, the text handed to [json.loads] is the body without its
    first occurrence of the letters json, stripped.  So the tag of a fence
    opened with the tag json is removed and the body comes out stripped; in
    a fence opened without a tag, the first json inside the body is removed
    from the payload itself. *)
Theorem strip_code_fence_body (body : string) :
  free_of "`" body = true ->
  strip_code_fence (Some ("```" +:+ body +:+ "```")) =
    strip (replace_first "json" "" body) /\
  strip_code_fence (Some ("```json" +:+ body +:+ "```")) = strip body.
Proof.
  intros Hb.
  assert (Hgen : forall b, free_of "`" b = true ->
            strip_code_fence (Some ("```" +:+ b +:+ "```")) =
            strip (replace_first "json" "" b)).
  { intros b Hfree. unfold strip_code_fence. cbn [from_option id].
    rewrite fenced_text_stripped.
    assert (Hs : startswith ("```" +:+ b +:+ "```") "```" = true).
    { unfold startswith. apply prefix_append. by eexists. }
    rewrite Hs. by rewrite strip_ticks. }
  split; [by apply Hgen |].
  change ("```json" +:+ body +:+ "```") with ("```" +:+ ("json" +:+ body) +:+ "```").
  rewrite Hgen.
  - f_equal. rewrite replace_first_here by (apply prefix_append; by eexists).
    str_simpl. apply (drop_chars_append "json" body).
  - unfold free_of in *. rewrite all_chars_append. by rewrite Hb.
Qed.

Lemma strip_code_fence_body_witness :
  strip_code_fence (Some "``` [1, json, 2] ```") = "[1, , 2]" /\
  strip_code_fence (Some "```json [true, false] ```") = "[true, false]".
Proof.
  split.
  - exact (proj1 (strip_code_fence_body " [1, json, 2] " eq_refl)).
  - exact (proj2 (strip_code_fence_body " [true, false] " eq_refl)).
Defined.

(** *** The keyword check *)

Lemma existsb_keywords (lowered : string) :
  existsb (fun keyword => contains keyword lowered) ENERGY_KEYWORDS =
  contains "smart grid" lowered || contains "energy" lowered ||
  contains "industrial efficiency" lowered.
Proof.
  unfold ENERGY_KEYWORDS. cbn [existsb]. rewrite orb_false_r.
  destruct (contains "energy storage" lowered) eqn:Hs.
  - assert (He : contains "energy" lowered = true).
    { apply (contains_trans _ "energy storage"); [reflexivity | exact Hs]. }
    rewrite He. by destruct (contains "smart grid" lowered).
  - cbn [orb]. by rewrite !orb_assoc.
Qed.

(** X13: [matches_energy_keywords] is true exactly when the lowercased text
    contains smart grid, energy or industrial efficiency; the fourth
    keyword, energy storage, never changes the answer, as a text that
    contains it contains energy. *)
Theorem matches_energy_keywords_iff (text : string) :
  matches_energy_keywords text = true <->
  exists keyword pre post,
    keyword ∈ ["smart grid"; "energy"; "industrial efficiency"] /\
    lower text = pre +:+ keyword +:+ post.
Proof.
  unfold matches_energy_keywords. cbv zeta. rewrite existsb_keywords.
  rewrite !orb_true_iff, !contains_spec. split.
  - intros [[(pre & post & H) | (pre & post & H)] | (pre & post & H)];
      eexists _, pre, post; (split; [| exact H]);
      repeat (first [apply list_elem_of_here | apply list_elem_of_further]).
  - intros (keyword & pre & post & Hk & H).
    repeat (apply elem_of_cons in Hk as [-> | Hk]; [by eauto 6 |]).
    by apply elem_of_nil in Hk.
Qed.

(** X14: the keyword check looks at the text up to letter case and only for
    the presence of a keyword: a text that matches still matches with any
    text put before and after it, and two texts equal once lowercased get
    the same answer. *)
Theorem matches_energy_keywords_embedding (pre text post other : string) :
  (matches_energy_keywords text = true ->
   matches_energy_keywords (pre +:+ text +:+ post) = true) /\
  (lower text = lower other ->
   matches_energy_keywords text = matches_energy_keywords other).
Proof.
  split.
  - unfold matches_energy_keywords. cbv zeta.
    rewrite !lower_append. intros H.
    apply existsb_exists in H as (k & Hk & Hc). apply existsb_exists.
    exists k. split; [exact Hk |].
    apply (contains_trans _ (lower text)); [exact Hc |].
    apply contains_spec. by eexists _, _.
  - unfold matches_energy_keywords. cbv zeta. by intros ->.
Qed.

End RequestTheory.

(** ** Properties of the parsers *)

Module ParserTheory.
Import Py Html Enrichment Scraper ScraperSpec ParserSpec.
Import StringFacts TextFacts EnrichmentTheory EnrichmentLaws ScraperTheory.

Lemma first_nonempty_cons (s : string) (l : list string) :
  first_nonempty (s :: l) = str_or s (first_nonempty l).
Proof. reflexivity. Qed.

Lemma str_or_truthy (a b : string) : str_truthy a = true -> str_or a b = a.
Proof. unfold str_or. by intros ->. Qed.

Lemma str_or_empty (b : string) : str_or "" b = b.
Proof. reflexivity. Qed.

Lemma str_or_assoc (a b c : string) : str_or (str_or a b) c = str_or a (str_or b c).
Proof. unfold str_or. destruct (str_truthy a) eqn:Ha; [by rewrite Ha | reflexivity]. Qed.

Lemma str_or_empty_r (a : string) : str_or a "" = a.
Proof. by destruct a. Qed.

Lemma feed_fold {S : Type}
    (h1 : S -> string -> list (string * option string) -> S)
    (h2 h3 : S -> string -> S) (events : list Event) (init : S) :
  Html.feed h1 h2 h3 events init = fold_left (on_event h1 h2 h3) events init.
Proof. reflexivity. Qed.

Ltac case_ifs :=
  repeat match goal with
         | |- context [if ?b then _ else _] => destruct b
         end.

(** *** [_MetaDescriptionParser] *)

Section MetaDescription.
Import _MetaDescriptionParser.

Abbreviation meta_step := (on_event handle_starttag handle_endtag handle_data).

Lemma meta_step_meta (self : t) (ev : Event) :
  meta_description (meta_step self ev) =
  str_or (meta_description self) (meta_content "name" "description" ev).
Proof.
  destruct ev as [tag attrs | tag | data]; cbn [on_event meta_content].
  - unfold handle_starttag. cbv zeta.
    destruct (String.eqb (lower tag) "meta"); cbn [andb];
      [| rewrite str_or_empty_r; by case_ifs].
    destruct (String.eqb (lower (get (attr_map attrs) "name")) "description");
      cbn [andb]; [| rewrite str_or_empty_r; by case_ifs].
    destruct (str_truthy (strip (get (attr_map attrs) "content"))) eqn:Hc;
      cbn [andb].
    + destruct (str_truthy (meta_description self)) eqn:Hm; cbn [negb].
      * rewrite (str_or_truthy _ _ Hm). by case_ifs.
      * apply str_truthy_false in Hm. rewrite Hm, str_or_empty. by case_ifs.
    + apply str_truthy_false in Hc. rewrite Hc, str_or_empty_r. by case_ifs.
  - rewrite str_or_empty_r. unfold handle_endtag. by case_ifs.
  - rewrite str_or_empty_r. unfold handle_data. by case_ifs.
Qed.

Lemma meta_step_og (self : t) (ev : Event) :
  og_description (meta_step self ev) =
  str_or (og_description self) (meta_content "property" "og:description" ev).
Proof.
  destruct ev as [tag attrs | tag | data]; cbn [on_event meta_content].
  - unfold handle_starttag. cbv zeta.
    destruct (String.eqb (lower tag) "meta"); cbn [andb];
      [| rewrite str_or_empty_r; by case_ifs].
    match goal with
    | |- context [if ?b then mk ?c ?o ?f ?p else self] =>
        assert (Ho : og_description (if b then mk c o f p else self) =
                     og_description self) by (by destruct b);
        generalize dependent (if b then mk c o f p else self)
    end.
    intros self' Ho.
    destruct (String.eqb (lower (get (attr_map attrs) "property")) "og:description");
      cbn [andb]; [| rewrite str_or_empty_r, <- Ho; by case_ifs].
    destruct (str_truthy (strip (get (attr_map attrs) "content"))) eqn:Hc;
      cbn [andb].
    + destruct (str_truthy (og_description self')) eqn:Hm; cbn [negb].
      * rewrite <- Ho, (str_or_truthy _ _ Hm). by case_ifs.
      * rewrite Ho in Hm. apply str_truthy_false in Hm.
        rewrite Hm, str_or_empty. by case_ifs.
    + apply str_truthy_false in Hc. rewrite Hc, str_or_empty_r, <- Ho. by case_ifs.
  - rewrite str_or_empty_r. unfold handle_endtag. by case_ifs.
  - rewrite str_or_empty_r. unfold handle_data. by case_ifs.
Qed.

Lemma meta_run (events : list Event) (self : t) :
  let self' := fold_left meta_step events self in
  meta_description self' =
    str_or (meta_description self)
           (first_nonempty (map (meta_content "name" "description") events)) /\
  og_description self' =
    str_or (og_description self)
           (first_nonempty (map (meta_content "property" "og:description") events)).
Proof.
  cbv zeta. revert self. induction events as [| ev events IH]; intros self.
  - cbn. by rewrite !str_or_empty_r.
  - cbn [fold_left map]. destruct (IH (meta_step self ev)) as [-> ->].
    rewrite meta_step_meta, meta_step_og, !first_nonempty_cons, !str_or_assoc.
    done.
Qed.

End MetaDescription.

(** *** [_ExternalLinkParser] *)

Section ExternalLink.
Import _ExternalLinkParser.

Abbreviation link_step :=
  (on_event handle_starttag (fun self _ => self) (fun self _ => self)).

Lemma link_step_first (self : t) (ev : Event) :
  first_external_link (link_step self ev) =
  str_or (first_external_link self) (external_href ev).
Proof.
  destruct ev as [tag attrs | tag | data]; cbn [on_event external_href];
    try by rewrite str_or_empty_r.
  unfold handle_starttag, is_http. cbv zeta.
  destruct (String.eqb (lower tag) "a"); cbn [negb andb];
    [| by rewrite str_or_empty_r].
  set (href := get (attr_map attrs) "href").
  destruct (startswith href "http://" || startswith href "https://") eqn:Hh;
    cbn [negb andb orb].
  - destruct (str_truthy href) eqn:Ht; cbn [negb orb].
    + destruct (contains "setventures.com" href); cbn [negb];
        [by rewrite str_or_empty_r |].
      destruct (str_truthy (first_external_link self)) eqn:Hf; cbn [negb].
      * by rewrite (str_or_truthy _ _ Hf).
      * apply str_truthy_false in Hf. by rewrite Hf.
    + apply str_truthy_false in Ht. rewrite Ht in Hh. discriminate Hh.
  - rewrite orb_true_r. by rewrite str_or_empty_r.
Qed.

Lemma link_run (events : list Event) (self : t) :
  first_external_link (fold_left link_step events self) =
  str_or (first_external_link self) (first_nonempty (map external_href events)).
Proof.
  revert self. induction events as [| ev events IH]; intros self.
  - cbn. by rewrite str_or_empty_r.
  - cbn [fold_left map]. rewrite IH, link_step_first, first_nonempty_cons.
    apply str_or_assoc.
Qed.

End ExternalLink.

Lemma first_nonempty_elem (l : list string) :
  first_nonempty l = "" \/ first_nonempty l ∈ l.
Proof.
  induction l as [| s l IH]; [by left |].
  cbn [first_nonempty]. destruct (str_truthy s).
  - right. apply list_elem_of_here.
  - destruct IH as [IH | IH]; [by left | right; by apply list_elem_of_further].
Qed.

Lemma external_href_ok (ev : Event) :
  external_href ev = "" \/
  (is_http (external_href ev) = true /\
   contains "setventures.com" (external_href ev) = false).
Proof.
  destruct ev as [tag attrs | tag | data]; try by left.
  unfold external_href. cbv zeta.
  destruct (String.eqb (lower tag) "a"); cbn [andb]; [| by left].
  destruct (is_http _) eqn:Hh; cbn [andb]; [| by left].
  destruct (contains "setventures.com" _) eqn:Hc; cbn [negb]; [by left |].
  right. by rewrite Hh, Hc.
Qed.

Section ProfilePage.

Variable html_events : string -> option (list Event).
Variable request_accepts : string -> bool.

(** What [enrich_from_vc_profile] returns for a record without description
    whose profile page was fetched and read by the parser. *)
Lemma enrich_fetched (w : Net.World) (c : Company) (html : string)
    (events : list Event) :
  description c = "" -> profile_url c <> "" ->
  _fetch_vc_html request_accepts w (profile_url c) = Some (Some html) -> html <> "" ->
  html_events html = Some events ->
  enrich_from_vc_profile html_events request_accepts w c =
  Some
    (let description_parser := _MetaDescriptionParser.feed events in
     let description :=
       str_or (_MetaDescriptionParser.meta_description description_parser)
         (str_or (_MetaDescriptionParser.og_description description_parser)
                 (_MetaDescriptionParser.first_paragraph description_parser)) in
     let company :=
       if str_truthy description then set_description description c else c in
     if negb (str_truthy (website company)) then
       let link_parser := _ExternalLinkParser.feed events in
       if str_truthy (_ExternalLinkParser.first_external_link link_parser)
       then set_website (_ExternalLinkParser.first_external_link link_parser) company
       else company
     else company).
Proof.
  intros Hd Hp Hf Hh He. unfold enrich_from_vc_profile.
  rewrite Hd. cbn [str_truthy].
  apply str_truthy_true in Hp, Hh. rewrite Hp, Hf.
  cbn [negb mbind option_bind]. rewrite Hh, He.
  cbn [negb fmap option_fmap option_map mbind option_bind]. cbv zeta. by case_ifs.
Qed.

(** X15: what [enrich_from_vc_profile] writes as the description of a record
    whose profile page was fetched and read by the parser: the stripped
    content of the first [meta] tag named description that has one, else of
    the first [meta] tag of property og:description that has one, else the
    first paragraph text the parser found; with none of them the description
    stays empty. *)
Theorem profile_description_priority (w : Net.World) (c : Company) (html : string)
    (events : list Event) :
  description c = "" -> profile_url c <> "" ->
  _fetch_vc_html request_accepts w (profile_url c) = Some (Some html) -> html <> "" ->
  html_events html = Some events ->
  exists c',
    enrich_from_vc_profile html_events request_accepts w c = Some c' /\
    description c' =
    first_nonempty
      [ first_nonempty (map (meta_content "name" "description") events);
        first_nonempty (map (meta_content "property" "og:description") events);
        _MetaDescriptionParser.first_paragraph (_MetaDescriptionParser.feed events) ].
Proof.
  intros Hd Hp Hf Hh He. rewrite (enrich_fetched w c html events Hd Hp Hf Hh He).
  eexists. split; [reflexivity |]. cbv zeta.
  unfold _MetaDescriptionParser.feed. rewrite feed_fold.
  destruct (meta_run events _MetaDescriptionParser.init) as [Hm Ho].
  cbv zeta in Hm, Ho. rewrite Hm, Ho.
  cbn [_MetaDescriptionParser.meta_description _MetaDescriptionParser.og_description
       _MetaDescriptionParser.init].
  rewrite !str_or_empty.
  rewrite !first_nonempty_cons. cbn [first_nonempty]. rewrite str_or_empty_r.
  match goal with
  | |- description (if ?b then _ else _) = ?d =>
      set (d0 := d);
      assert (Hc : description (if str_truthy d0 then set_description d0 c else c) = d0)
  end.
  { destruct (str_truthy d0) eqn:Ht; [reflexivity |].
    apply str_truthy_false in Ht. by rewrite Ht, Hd. }
  revert Hc. generalize (if str_truthy d0 then set_description d0 c else c).
  intros c1 Hc. by case_ifs.
Qed.

(** X16: the website [enrich_from_vc_profile] gives a record that had none is
    the target of the first link of the fetched profile page that is an
    absolute http(s) reference and does not contain setventures.com; so a
    website it writes is never a relative link nor a link to the investor's
    own site. *)
Theorem profile_website_external (w : Net.World) (c : Company) :
  (forall c',
     enrich_from_vc_profile html_events request_accepts w c = Some c' ->
     website c = "" ->
     website c' = "" \/
     (is_http (website c') = true /\
      contains "setventures.com" (website c') = false)) /\
  (forall html events,
     website c = "" -> description c = "" -> profile_url c <> "" ->
     _fetch_vc_html request_accepts w (profile_url c) = Some (Some html) ->
     html <> "" -> html_events html = Some events ->
     exists c',
       enrich_from_vc_profile html_events request_accepts w c = Some c' /\
       website c' = first_nonempty (map external_href events)).
Proof.
  assert (Hsite : forall html events,
    website c = "" -> description c = "" -> profile_url c <> "" ->
    _fetch_vc_html request_accepts w (profile_url c) = Some (Some html) ->
    html <> "" -> html_events html = Some events ->
    exists c',
      enrich_from_vc_profile html_events request_accepts w c = Some c' /\
      website c' = first_nonempty (map external_href events)).
  { intros html events Hw Hd Hp Hf Hh He.
    rewrite (enrich_fetched w c html events Hd Hp Hf Hh He).
    eexists. split; [reflexivity |]. cbv zeta.
    match goal with
    | |- context [if str_truthy ?d then set_description ?d c else c] =>
        assert (Hc : website (if str_truthy d then set_description d c else c) = "")
          by (by destruct (str_truthy d));
        generalize dependent (if str_truthy d then set_description d c else c)
    end.
    intros c1 Hc. rewrite Hc. cbn [str_truthy negb].
    unfold _ExternalLinkParser.feed. rewrite feed_fold, link_run.
    cbn [_ExternalLinkParser.first_external_link _ExternalLinkParser.init].
    rewrite str_or_empty.
    destruct (str_truthy (first_nonempty (map external_href events)))
      eqn:Ht; [reflexivity |].
    apply str_truthy_false in Ht. by rewrite Ht. }
  split; [| exact Hsite].
  intros c' Hc' Hw.
  pose proof (enrich_from_vc_profile_cases html_events request_accepts w c) as H.
  cbv zeta in H. rewrite Hc' in H.
  destruct (str_truthy (description c)) eqn:Hd.
  { left. by injection H as ->. }
  destruct (str_truthy (profile_url c)) eqn:Hp; cbn [negb] in H.
  2: { left. by injection H as ->. }
  destruct (_fetch_vc_html request_accepts w (profile_url c)) as [[html |] |] eqn:Hf;
    [| left; by injection H as -> | discriminate H].
  destruct (str_truthy html) eqn:Hh; cbn [negb] in H.
  2: { left. by injection H as ->. }
  destruct (html_events html) as [events |] eqn:He; [| discriminate H].
  clear H.
  destruct (Hsite html events Hw) as (c2 & Hc2 & Hweb).
  - by apply str_truthy_false.
  - by apply str_truthy_true.
  - reflexivity.
  - by apply str_truthy_true.
  - exact He.
  - rewrite Hc' in Hc2. injection Hc2 as <-. rewrite Hweb.
    destruct (first_nonempty_elem (map external_href events))
      as [He' | He']; [by left |].
    apply list_elem_of_fmap in He' as (ev & -> & _).
    apply external_href_ok.
Qed.

End ProfilePage.

Lemma profile_description_priority_witness :
  exists c',
    enrich_from_vc_profile (fun _ => Some profile_page) (fun _ => true)
      (serving "<html></html>")
      (EnrichmentSpec.build_profile_stub "https://www.setventures.com/portfolio/x/") =
      Some c' /\
    description c' = "Flexible grid software.".
Proof.
  exact (profile_description_priority (fun _ => Some profile_page) (fun _ => true)
           (serving "<html></html>")
           (EnrichmentSpec.build_profile_stub "https://www.setventures.com/portfolio/x/")
           "<html></html>" profile_page eq_refl ltac:(discriminate) eq_refl
           ltac:(discriminate) eq_refl).
Defined.

(** *** The two anchor parsers *)

Lemma anchor_steps (sl : AnchorLinkParser.t) (st : AnchorTextParser.t) (ev : Event) :
  AnchorLinkParser.in_anchor sl = AnchorTextParser.in_anchor st ->
  sublist (map fst (AnchorLinkParser.links sl)) (AnchorTextParser.anchors st) ->
  let sl' := on_event AnchorLinkParser.handle_starttag AnchorLinkParser.handle_endtag
               AnchorLinkParser.handle_data sl ev in
  let st' := on_event AnchorTextParser.handle_starttag AnchorTextParser.handle_endtag
               AnchorTextParser.handle_data st ev in
  AnchorLinkParser.in_anchor sl' = AnchorTextParser.in_anchor st' /\
  sublist (map fst (AnchorLinkParser.links sl')) (AnchorTextParser.anchors st').
Proof.
  intros Hin Hsub. cbv zeta.
  destruct ev as [tag attrs | tag | data]; cbn [on_event].
  - unfold AnchorLinkParser.handle_starttag, AnchorTextParser.handle_starttag.
    by destruct (String.eqb (lower tag) "a").
  - unfold AnchorLinkParser.handle_endtag, AnchorTextParser.handle_endtag.
    by destruct (String.eqb (lower tag) "a").
  - unfold AnchorLinkParser.handle_data, AnchorTextParser.handle_data.
    destruct sl as [ia href links], st as [ia' anchors].
    cbn [AnchorLinkParser.in_anchor AnchorTextParser.in_anchor
         AnchorLinkParser.links AnchorTextParser.anchors
         AnchorLinkParser.current_href] in *.
    subst ia'. destruct ia; cbn [andb]; [| done].
    destruct (str_truthy (strip data)); [| by case_ifs].
    destruct (str_truthy (default "" href));
      cbn [AnchorLinkParser.in_anchor AnchorTextParser.in_anchor
           AnchorLinkParser.links AnchorTextParser.anchors].
    + split; [done |]. rewrite map_app. cbn [map fst].
      by apply sublist_app.
    + split; [done |]. by apply sublist_inserts_r.
Qed.

Lemma anchor_runs (events : list Event) (sl : AnchorLinkParser.t)
    (st : AnchorTextParser.t) :
  AnchorLinkParser.in_anchor sl = AnchorTextParser.in_anchor st ->
  sublist (map fst (AnchorLinkParser.links sl)) (AnchorTextParser.anchors st) ->
  sublist
    (map fst (AnchorLinkParser.links
       (fold_left (on_event AnchorLinkParser.handle_starttag
                     AnchorLinkParser.handle_endtag AnchorLinkParser.handle_data)
                  events sl)))
    (AnchorTextParser.anchors
       (fold_left (on_event AnchorTextParser.handle_starttag
                     AnchorTextParser.handle_endtag AnchorTextParser.handle_data)
                  events st)).
Proof.
  revert sl st. induction events as [| ev events IH]; intros sl st Hin Hsub;
    [exact Hsub |].
  cbn [fold_left]. destruct (anchor_steps sl st ev Hin Hsub) as [Hin' Hsub'].
  by apply IH.
Qed.

Lemma link_texts_among_anchors (events : list Event) :
  sublist (map fst (AnchorLinkParser.links (AnchorLinkParser.feed events)))
          (AnchorTextParser.anchors (AnchorTextParser.feed events)).
Proof.
  unfold AnchorLinkParser.feed, AnchorTextParser.feed. rewrite !feed_fold.
  apply anchor_runs; [reflexivity | constructor].
Qed.

Section Generic.

Variable html_events : string -> option (list Event).

(** X17: the two passes of the generic extractor agree: every text the link
    parser records is a text the anchor parser records, in the same order,
    so each name of [extract_company_entries_from_html] is, up to case, a
    name of [extract_company_names_from_html], and the second pass finds a
    name whenever the first finds an entry.  Both passes return for every
    document the parser reads, and only for those. *)
Theorem generic_passes_agree (html : string) :
  match html_events html with
  | None =>
      extract_company_entries_from_html html_events html = None /\
      extract_company_names_from_html html_events html = None
  | Some events =>
      let links := AnchorLinkParser.links (AnchorLinkParser.feed events) in
      let anchors := AnchorTextParser.anchors (AnchorTextParser.feed events) in
      exists entries names,
        extract_company_entries_from_html html_events html = Some entries /\
        extract_company_names_from_html html_events html = Some names /\
        sublist (map fst links) anchors /\
        (forall e, e ∈ entries -> lower (fst e) ∈ map lower names) /\
        (entries <> [] -> names <> [])
  end.
Proof.
  rewrite extract_entries_eq, extract_names_eq.
  destruct (html_events html) as [events |];
    cbn [fmap option_fmap option_map]; [| done].
  cbv zeta. eexists _, _. split; [reflexivity |]. split; [reflexivity |].
  pose proof (link_texts_among_anchors events) as Hsub.
  assert (Hkeys : forall e,
    e ∈ first_occurrences (fun e => lower (fst e)) ∅
          (entry_candidates (AnchorLinkParser.links (AnchorLinkParser.feed events))) ->
    lower (fst e) ∈
      map lower (first_occurrences lower ∅
                   (name_candidates
                      (AnchorTextParser.anchors (AnchorTextParser.feed events))))).
  { intros e He.
    pose proof (elem_of_sublist _ _ _ He (fo_sublist _ _ _)) as He'.
    clear He. unfold entry_candidates in He'.
    apply list_elem_of_In, filter_In in He' as [Hin Hok].
    apply andb_true_iff in Hok as [Hlen _].
    apply in_map_iff in Hin as ([text href] & <- & Hl). cbn [fst snd] in *.
    assert (Ha : text ∈ AnchorTextParser.anchors (AnchorTextParser.feed events)).
    { refine (elem_of_sublist _ _ text _ Hsub).
      apply list_elem_of_In, in_map_iff. by exists (text, href). }
    assert (Hc : clean text ∈ name_candidates
                   (AnchorTextParser.anchors (AnchorTextParser.feed events))).
    { unfold name_candidates. apply list_elem_of_In, filter_In.
      split; [| exact Hlen]. apply in_map. by apply list_elem_of_In. }
    destruct (fo_cover lower ∅ _ _ Hc) as [Hs | Hf]; [| exact Hf].
    by apply elem_of_empty in Hs. }
  split; [exact Hsub |]. split; [exact Hkeys |].
  intros Hne Hnames.
  destruct (first_occurrences (fun e => lower (fst e)) ∅ _) as [| e es];
    [done |].
  specialize (Hkeys e (list_elem_of_here _ _)). rewrite Hnames in Hkeys.
  by apply elem_of_nil in Hkeys.
Qed.

End Generic.

(** *** The parsers of the two layouts *)

Lemma eip_entries (events : list Event) (self : EIPPortfolioParser.t) :
  Forall (fun e => fst e <> "" \/ snd e <> "") (EIPPortfolioParser.entries self) ->
  Forall (fun e => fst e <> "" \/ snd e <> "")
    (EIPPortfolioParser.entries
       (fold_left (on_event EIPPortfolioParser.handle_starttag
                     EIPPortfolioParser.handle_endtag EIPPortfolioParser.handle_data)
                  events self)).
Proof.
  revert self. induction events as [| ev events IH]; intros self H; [exact H |].
  cbn [fold_left]. apply IH.
  destruct ev as [tag attrs | tag | data]; cbn [on_event].
  - unfold EIPPortfolioParser.handle_starttag. cbv zeta.
    by case_ifs.
  - unfold EIPPortfolioParser.handle_endtag. cbv zeta.
    repeat match goal with
           | |- context [if ?b then _ else _] =>
               lazymatch b with
               | orb _ _ => fail
               | _ => destruct b
               end
           end; cbn [EIPPortfolioParser.entries EIPPortfolioParser._in_overlay
                     EIPPortfolioParser._in_text EIPPortfolioParser._overlay_div_depth
                     EIPPortfolioParser._current_description
                     EIPPortfolioParser._current_site] in *;
      try exact H;
      match goal with
      | |- context [if ?a || ?b then _ else _] =>
          destruct a eqn:Ha; destruct b eqn:Hb; cbn [orb]; try exact H;
          apply Forall_app; (split; [exact H |]); apply Forall_singleton;
          cbn [fst snd];
          first [left; by apply str_truthy_true | right; by apply str_truthy_true]
      end.
  - unfold EIPPortfolioParser.handle_data. by case_ifs.
Qed.

Lemma set_entries (events : list Event) (self : SetVenturesParser.t) :
  Forall (fun e => fst e <> "" /\ snd e <> "") (SetVenturesParser.entries self) ->
  Forall (fun e => fst e <> "" /\ snd e <> "")
    (SetVenturesParser.entries
       (fold_left (on_event SetVenturesParser.handle_starttag
                     (fun self _ => self) (fun self _ => self))
                  events self)).
Proof.
  revert self. induction events as [| ev events IH]; intros self H; [exact H |].
  cbn [fold_left]. apply IH.
  destruct ev as [tag attrs | tag | data]; cbn [on_event]; try exact H.
  unfold SetVenturesParser.handle_starttag. cbv zeta.
  destruct (negb (String.eqb (lower tag) "a")); [exact H |].
  destruct (contains "nectar-post-grid-link" _); [| exact H].
  destruct (str_truthy (strip (get (attr_map attrs) "aria-label"))) eqn:Hn;
    cbn [andb]; [| exact H].
  destruct (str_truthy (strip (get (attr_map attrs) "href"))) eqn:Hh; [| exact H].
  cbn [SetVenturesParser.entries]. apply Forall_app. split; [exact H |].
  apply Forall_singleton. cbn [fst snd].
  split; by apply str_truthy_true.
Qed.

Lemma title_from_nonempty (b : bool) (s : string) :
  s <> "" -> title_from b s <> "".
Proof.
  destruct s as [| c s]; [done |]. intros _. cbn [title_from].
  destruct b; [by str_simpl |].
  unfold title_char. by case_ifs; str_simpl.
Qed.

Section Scrape.

Variable html_events : string -> option (list Event).
Variable urlparse_hostname : string -> string.
Variable file_url_path : string -> option string.
Variable request_accepts : string -> bool.

(** X18: a list [scrape_portfolio] returns is either its fallback or a
    non-empty list of records built from the page, each with the round
    Unknown, the given source, no keywords and no stage.  A record of layout
    A has a description or a website, its name inferred from the two, and no
    profile URL; a record of layout B has a name and a profile URL and
    neither website nor description; a record of the generic extractor has a
    whitespace-normalized name of 2 to 60 characters, no description, and a
    website that is empty or an absolute http(s) reference. *)
Theorem scrape_portfolio_records (w : Net.World) (url source : string)
    (fallback out : list Company) :
  scrape_portfolio html_events urlparse_hostname file_url_path request_accepts
    w url source fallback = Some out ->
  out = fallback \/
  (out <> [] /\
   Forall (scraped_record (infer_company_name urlparse_hostname) url source) out).
Proof.
  unfold scrape_portfolio, scraped_record.
  destruct (fetch_html file_url_path request_accepts w url) as [[html |] |];
    cbn [mbind option_bind]; [| by intros <-%(inj Some); left | discriminate].
  destruct (negb (str_truthy html)); [by intros <-%(inj Some); left |].
  destruct (contains "energyimpactpartners.com" url).
  { destruct (html_events html) as [events |];
      cbn [fmap option_fmap option_map mbind option_bind]; [| discriminate].
    unfold EIPPortfolioParser.feed. rewrite feed_fold.
    pose proof (eip_entries events EIPPortfolioParser.init
                  (Forall_nil_2 _)) as He.
    destruct (EIPPortfolioParser.entries _) as [| e es]; [by intros <-%(inj Some); left |].
    intros <-%(inj Some). right. split; [done |]. cbn [list_or].
    apply Forall_fmap. apply (Forall_impl _ _ _ He).
    intros [description website] Hne. cbn [fst snd] in Hne. cbn.
    repeat (split; [reflexivity |]). split; [exact Hne | reflexivity]. }
  destruct (contains "setventures.com" url).
  { destruct (html_events html) as [events |];
      cbn [fmap option_fmap option_map mbind option_bind]; [| discriminate].
    unfold SetVenturesParser.feed. rewrite feed_fold.
    pose proof (set_entries events SetVenturesParser.init
                  (Forall_nil_2 _)) as He.
    destruct (SetVenturesParser.entries _) as [| e es]; [by intros <-%(inj Some); left |].
    intros <-%(inj Some). right. split; [done |]. cbn [list_or].
    apply Forall_fmap. apply (Forall_impl _ _ _ He).
    intros [n profile] [Hn Hp]. cbn [fst snd] in Hn, Hp. cbn.
    repeat (split; [reflexivity |]). split; [exact Hp |].
    destruct (isupper n); [by apply title_from_nonempty | exact Hn]. }
  pose proof (extract_entries_eq html_events html) as He.
  pose proof (extract_names_eq html_events html) as Hn.
  destruct (html_events html) as [events |];
    cbn [fmap option_fmap option_map] in He, Hn;
    rewrite He; cbn [mbind option_bind]; [| discriminate].
  clear He.
  destruct (first_occurrences (fun e => lower (fst e)) ∅ _) as [| e es] eqn:He.
  - rewrite Hn. cbn [mbind option_bind]. clear Hn.
    destruct (first_occurrences lower ∅ _) as [| n ns] eqn:Hn;
      [by intros <-%(inj Some); left |].
    intros <-%(inj Some). right. split; [done |]. apply Forall_fmap. rewrite <- Hn.
    apply (Forall_of_sublist _ _ _ (fo_sublist _ _ _)).
    apply (Forall_impl _ _ _ (name_candidates_ok _)).
    intros x [Hws Hlen]. cbn. repeat (split; [reflexivity |]).
    split; [exact Hws |]. split; [exact Hlen | by left].
  - intros <-%(inj Some). right. split; [done |]. apply Forall_fmap. rewrite <- He.
    apply (Forall_of_sublist _ _ _ (fo_sublist _ _ _)).
    apply (Forall_impl _ _ _ (entry_candidates_ok _)).
    intros x (Hws & Hlen & Hhttp). cbn. repeat (split; [reflexivity |]).
    split; [exact Hws |]. split; [exact Hlen | by right].
Qed.

End Scrape.

(** A layout B page read through [scrape_portfolio]. *)
Lemma scrape_portfolio_records_witness :
  let out := [build_company_from_name "Fluxcharge" "SET" "" ""
                "https://www.setventures.com/portfolio/fluxcharge/"] in
  out = [] \/
  (out <> [] /\
   Forall (scraped_record (infer_company_name (fun h => h))
             "https://www.setventures.com/portfolio/" "SET") out).
Proof.
  cbv zeta.
  apply (scrape_portfolio_records (fun _ => Some ExampleData.set_events) (fun h => h) Some
           (fun _ => true) (serving "<html>")
           "https://www.setventures.com/portfolio/" "SET" []).
  vm_compute. reflexivity.
Defined.

End ParserTheory.

(** ** Properties of the entry point *)

Module PipelineTheory.
Import Py Config LLM Filtering Enrichment Scraper Exporter Pipeline.
Import EnrichmentSpec FilteringSpec ParserSpec PipelineSpec.
Import EnrichmentTheory EnrichmentLaws BatchTheory ScraperTheory RequestTheory.
Import ParserTheory.

Lemma value_inj (a b : RoundStage) : value a = value b -> a = b.
Proof. destruct a, b; cbn; congruence. Qed.

Lemma fill_complete (c : Company) (mock_map : gmap string Company) :
  website c <> "" -> last_round c <> UNKNOWN -> fill_missing_fields c mock_map = c.
Proof.
  intros Hw%str_truthy_true Hr%round_eq_unknown_false. unfold fill_missing_fields.
  cbv zeta. destruct (mock_map !! lower (name c)); [| reflexivity].
  rewrite Hw. cbn [negb]. by rewrite Hr.
Qed.

Lemma enrich_round_not_unknown (c c' : Company) (round_map : gmap string RoundStage) :
  (forall k r, round_map !! k = Some r -> r <> UNKNOWN) ->
  enrich_round c round_map = Some c' -> last_round c' <> UNKNOWN.
Proof.
  intros Hmap H.
  destruct (round_known_dec (last_round c)) as [Hu | Hk].
  - rewrite (enrich_round_unknown c round_map Hu) in H.
    destruct (round_map !! lower (name c)) as [e |] eqn:Hm.
    + injection H as <-. cbn. by apply (Hmap _ _ Hm).
    + destruct (_hash_round_stage (name c)) as [r |] eqn:Hr; [| discriminate H].
      injection H as <-. cbn. by apply (hash_round_stage_not_unknown _ _ Hr).
  - rewrite (enrich_round_known c round_map Hk) in H. by injection H as <-.
Qed.

Lemma enrich_round_total_cases (c : Company) (round_map : gmap string RoundStage) :
  exists c', enrich_round c round_map = Some c'.
Proof.
  destruct (round_known_dec (last_round c)) as [Hu | Hk].
  - rewrite (enrich_round_unknown c round_map Hu).
    destruct (round_map !! lower (name c)) as [e |]; [by eexists |].
    destruct (hash_round_stage_total (name c)) as (r & -> & _). by eexists.
  - rewrite (enrich_round_known c round_map Hk). by eexists.
Qed.

Lemma enrich_round_fields (c c' : Company) (round_map : gmap string RoundStage) :
  enrich_round c round_map = Some c' ->
  name c' = name c /\ website c' = website c /\ description c' = description c /\
  source c' = source c /\ profile_url c' = profile_url c /\
  (last_round c <> UNKNOWN -> last_round c' = last_round c).
Proof.
  intros H.
  destruct (round_known_dec (last_round c)) as [Hu | Hk].
  - rewrite (enrich_round_unknown c round_map Hu) in H.
    destruct (round_map !! lower (name c)) as [e |].
    + injection H as <-. cbn. repeat (split; [reflexivity |]). congruence.
    + destruct (_hash_round_stage (name c)) as [r |]; [| discriminate H].
      injection H as <-. cbn. repeat (split; [reflexivity |]). congruence.
  - rewrite (enrich_round_known c round_map Hk) in H. injection H as <-. auto 10.
Qed.

Lemma fill_fields (c : Company) (mock_map : gmap string Company) :
  let c' := fill_missing_fields c mock_map in
  name c' = name c /\ description c' = description c /\ source c' = source c /\
  profile_url c' = profile_url c.
Proof.
  cbv zeta. unfold fill_missing_fields. cbv zeta.
  destruct (mock_map !! lower (name c)); [| auto].
  by case_ifs.
Qed.

Lemma mock_companies_complete :
  Forall (fun c => description c <> "" /\ website c <> "" /\ last_round c <> UNKNOWN)
         mock_companies.
Proof. repeat constructor; discriminate. Qed.


Lemma selected_survive (cs : list Company) (bs : list bool) :
  Forall (fun c => survivor c = true)
         (map fst (List.filter snd (zip (List.filter survivor cs) bs))).
Proof.
  apply (Forall_of_sublist _ _ _ (selected_sublist _ bs)). apply filter_all.
Qed.

Section WithLibrary.

Variable html_events : string -> option (list Html.Event).
Variable urlparse_hostname : string -> string.
Variable file_url_path : string -> option string.
Variable request_accepts : string -> bool.
Variable json_loads : string -> Py.JsonResult.

Abbreviation scrape_one :=
  (scrape_portfolio html_events urlparse_hostname file_url_path request_accepts).
Abbreviation scrape_all :=
  (scrape_portfolios html_events urlparse_hostname file_url_path request_accepts).
Abbreviation profile_step :=
  (enrich_from_vc_profile html_events request_accepts).
Abbreviation enrich :=
  (enrich_company html_events request_accepts).
Abbreviation run :=
  (main html_events urlparse_hostname file_url_path request_accepts json_loads).
Abbreviation gather :=
  (gathered html_events urlparse_hostname file_url_path request_accepts).

Lemma bulk_no_client (env : Env) (st : State) (descriptions keywords : list string) :
  fst (_get_client env st) = None ->
  llm_filter_energy_bulk json_loads env descriptions keywords st =
  (Some (replicate (length descriptions) false), st).
Proof.
  intros Hn. destruct descriptions as [| d ds]; [reflexivity |].
  unfold llm_filter_energy_bulk. unfold mbind, M_bind, mret, M_ret.
  pose proof (get_client_state env st) as Hg.
  destruct (_get_client env st) as [[client |] st1]; cbn [fst snd] in *;
    [discriminate Hn |].
  by rewrite Hg.
Qed.

Lemma filter_relevant_no_client (env : Env) (st : State) (companies : list Company) :
  fst (_get_client env st) = None ->
  filter_relevant json_loads env companies st = (Some [], st).
Proof.
  intros Hn. rewrite filter_relevant_join. rewrite bulk_no_client by exact Hn.
  cbn [fst snd fmap option_fmap option_map]. by rewrite none_selected.
Qed.

Lemma filter_relevant_unknown (env : Env) (st : State) (companies : list Company) :
  Forall (fun c => last_round c = UNKNOWN) companies ->
  filter_relevant json_loads env companies st = (Some [], st).
Proof.
  intros Hall. rewrite filter_relevant_join.
  assert (Hsv : List.filter survivor companies = []).
  { induction Hall as [| c cs Hc _ IH]; [reflexivity |].
    cbn [List.filter]. unfold survivor at 1. rewrite Hc. exact IH. }
  rewrite Hsv. reflexivity.
Qed.

Lemma scrape_rounds_unknown (w : Net.World) (url source : string)
    (found : list Company) :
  scrape_one w url source [] = Some found ->
  Forall (fun c => last_round c = UNKNOWN) found.
Proof.
  unfold scrape_portfolio.
  destruct (fetch_html file_url_path request_accepts w url) as [[html |] |];
    cbn [mbind option_bind]; [| intros <-%(inj Some); constructor | discriminate].
  destruct (negb (str_truthy html)); [intros <-%(inj Some); constructor |].
  destruct (contains "energyimpactpartners.com" url).
  { destruct (html_events html) as [events |];
      cbn [fmap option_fmap option_map mbind option_bind]; [| discriminate].
    intros <-%(inj Some).
    destruct (EIPPortfolioParser.entries _); [constructor |].
    cbn [list_or]. apply Forall_fmap, Forall_forall. by intros [ds si] _. }
  destruct (contains "setventures.com" url).
  { destruct (html_events html) as [events |];
      cbn [fmap option_fmap option_map mbind option_bind]; [| discriminate].
    intros <-%(inj Some).
    destruct (SetVenturesParser.entries _); [constructor |].
    cbn [list_or]. apply Forall_fmap, Forall_forall. by intros [nm pu] _. }
  destruct (extract_company_entries_from_html html_events html) as [[| e es] |];
    cbn [mbind option_bind]; [| | discriminate].
  - destruct (extract_company_names_from_html html_events html) as [[| n ns] |];
      cbn [mbind option_bind]; [| | discriminate];
      intros <-%(inj Some); [constructor |].
    apply Forall_fmap, Forall_forall. by intros n' _.
  - intros <-%(inj Some). apply Forall_fmap, Forall_forall. by intros e' _.
Qed.

(** X19: the records [scrape_portfolio] builds have the round Unknown, which
    the round gate rejects: [filter_relevant] applied to what a scrape
    returns with an empty fallback selects nothing and sends no request.
    Only enrichment makes a scraped record eligible. *)
Theorem unenriched_scrape_filtered_out (w : Net.World) (url source : string)
    (found : list Company) (env : Env) (st : State) :
  scrape_one w url source [] = Some found ->
  filter_relevant json_loads env found st = (Some [], st).
Proof.
  intros Hs. apply filter_relevant_unknown. by apply (scrape_rounds_unknown w url source).
Qed.

(** *** [scrape_portfolios] *)

Lemma scrape_each_app (w : Net.World) (urls : list string) (source : string)
    (companies : list Company) :
  scrape_each html_events urlparse_hostname file_url_path request_accepts
    w urls source companies =
  (fun found => companies ++ found) <$>
  scrape_each html_events urlparse_hostname file_url_path request_accepts
    w urls source [].
Proof.
  revert companies. induction urls as [| url urls IH]; intros companies.
  - cbn. by rewrite app_nil_r.
  - cbn [scrape_each]. destruct (scrape_one w url source []) as [found |];
      [| reflexivity].
    cbn [mbind option_bind]. rewrite (IH (companies ++ found)), (IH ([] ++ found)).
    cbn [app]. destruct (scrape_each _ _ _ _ _ _ _ []) as [rest |]; [| reflexivity].
    cbn. by rewrite app_assoc.
Qed.

Lemma scrape_fallback_empty (w : Net.World) (url source : string)
    (fallback : list Company) :
  scrape_one w url source fallback =
  (fun found => list_or found fallback) <$> scrape_one w url source [].
Proof.
  unfold scrape_portfolio.
  destruct (fetch_html file_url_path request_accepts w url) as [[html |] |];
    cbn [mbind option_bind]; [| reflexivity | reflexivity].
  destruct (negb (str_truthy html)); [reflexivity |].
  destruct (contains "energyimpactpartners.com" url).
  { destruct (html_events html) as [events |];
      cbn [fmap option_fmap option_map mbind option_bind]; [| reflexivity].
    by destruct (EIPPortfolioParser.entries _). }
  destruct (contains "setventures.com" url).
  { destruct (html_events html) as [events |];
      cbn [fmap option_fmap option_map mbind option_bind]; [| reflexivity].
    by destruct (SetVenturesParser.entries _). }
  destruct (extract_company_entries_from_html html_events html) as [[| e es] |];
    cbn [fmap option_fmap option_map mbind option_bind]; [| reflexivity | reflexivity].
  by destruct (extract_company_names_from_html html_events html) as [[| n ns] |].
Qed.

Lemma scrape_all_one (w : Net.World) (url source : string)
    (fallback : list Company) :
  scrape_all w [url] source fallback =
  (fun found => list_or found fallback) <$> scrape_one w url source [].
Proof.
  unfold scrape_portfolios. cbn [scrape_each].
  destruct (scrape_one w url source []) as [found |]; reflexivity.
Qed.

(** X20: [scrape_portfolios] on one reference is [scrape_portfolio] on that
    reference with the same fallback; on any list of references it is left
    by an exception when a scrape is, and otherwise returns the records of
    all the references in order, or the fallback when no reference yields
    one. *)
Theorem scrape_portfolios_single (w : Net.World) (urls : list string)
    (url source : string) (fallback : list Company) :
  scrape_all w [url] source fallback = scrape_one w url source fallback /\
  (forall founds,
     Forall2 (fun u found => scrape_one w u source [] = Some found) urls founds ->
     scrape_all w urls source fallback = Some (list_or (concat founds) fallback)) /\
  (Exists (fun u => scrape_one w u source [] = None) urls ->
   scrape_all w urls source fallback = None).
Proof.
  split; [| split].
  - by rewrite scrape_all_one, (scrape_fallback_empty w url source fallback).
  - intros founds Hall. unfold scrape_portfolios.
    assert (He : scrape_each html_events urlparse_hostname file_url_path
                   request_accepts w urls source [] = Some (concat founds)).
    { induction Hall as [| u found us founds Hu _ IH]; [reflexivity |].
      cbn [scrape_each concat]. rewrite Hu.
      cbn [mbind option_bind app]. rewrite scrape_each_app, IH. reflexivity. }
    by rewrite He.
  - intros Hex. unfold scrape_portfolios.
    assert (He : scrape_each html_events urlparse_hostname file_url_path
                   request_accepts w urls source [] = None).
    { induction Hex as [u us Hu | u us _ IH].
      - cbn [scrape_each]. by rewrite Hu.
      - cbn [scrape_each]. destruct (scrape_one w u source []); [| reflexivity].
        cbn [mbind option_bind]. rewrite scrape_each_app, IH. reflexivity. }
    by rewrite He.
Qed.

(** *** The enrichment loop *)

Lemma profile_step_described (w : Net.World) (c : Company) :
  description c <> "" -> profile_step w c = Some c.
Proof.
  intros Hd%str_truthy_true. unfold enrich_from_vc_profile. by rewrite Hd.
Qed.

Lemma enrich_complete (w : Net.World) (mock_map : gmap string Company)
    (round_map : gmap string RoundStage) (c : Company) :
  description c <> "" -> website c <> "" -> last_round c <> UNKNOWN ->
  enrich w mock_map round_map c = Some c.
Proof.
  intros Hd Hw Hr. unfold enrich_company.
  rewrite (profile_step_described w c Hd). cbn [mbind option_bind].
  rewrite (fill_complete c mock_map Hw Hr).
  by apply enrich_round_known.
Qed.

Lemma enrich_ends_with_round (w : Net.World) (mock_map : gmap string Company)
    (round_map : gmap string RoundStage) (c c' : Company) :
  enrich w mock_map round_map c = Some c' ->
  exists c1,
    profile_step w c = Some c1 /\
    enrich_round (fill_missing_fields c1 mock_map) round_map = Some c'.
Proof.
  unfold enrich_company.
  destruct (profile_step w c) as [c1 |]; [| discriminate].
  cbn [mbind option_bind]. intros H. by exists c1.
Qed.

(** The fields the body of the loop keeps, and the round it ends with. *)
Lemma enrich_fields (w : Net.World) (mock_map : gmap string Company)
    (round_map : gmap string RoundStage) (c c' : Company) :
  (forall k r, round_map !! k = Some r -> r <> UNKNOWN) ->
  enrich w mock_map round_map c = Some c' ->
  name c' = name c /\ source c' = source c /\ profile_url c' = profile_url c /\
  last_round c' <> UNKNOWN.
Proof.
  intros Hmap He. apply enrich_ends_with_round in He as (c1 & Hc1 & He).
  pose proof (enrich_round_not_unknown _ _ _ Hmap He) as Hr.
  pose proof (enrich_round_fields _ _ _ He) as (Hf1 & _ & _ & Hf4 & Hf5 & _).
  pose proof (fill_fields c1 mock_map) as Hm. cbv zeta in Hm.
  destruct Hm as (Hm1 & _ & Hm3 & Hm4).
  pose proof (enrich_from_vc_profile_fields html_events request_accepts w c c1 Hc1)
    as (Hp1 & _ & Hp3 & _ & _ & Hp6).
  split; [congruence |]. split; [congruence |]. split; [congruence | exact Hr].
Qed.

(** The body of the loop is left by an exception exactly when the profile
    step is. *)
Lemma enrich_raises (w : Net.World) (mock_map : gmap string Company)
    (round_map : gmap string RoundStage) (c : Company) :
  enrich w mock_map round_map c = None <-> profile_step w c = None.
Proof.
  unfold enrich_company.
  destruct (profile_step w c) as [c1 |]; cbn [mbind option_bind]; [| done].
  destruct (enrich_round_total_cases (fill_missing_fields c1 mock_map) round_map)
    as [c' ->].
  split; discriminate.
Qed.

Lemma fetch_vc_raises (w : Net.World) (url : string) :
  _fetch_vc_html request_accepts w url = None <->
  request_accepts url = false \/ Net.urlopen w url = Net.UrlOtherError.
Proof.
  unfold _fetch_vc_html. destruct (request_accepts url); cbn [negb].
  - destruct (Net.urlopen w url); split; try discriminate;
      first [by intros [[=] | [=]] | by right].
  - split; [by left | done].
Qed.

Lemma fetch_vc_body (w : Net.World) (url html : string) :
  _fetch_vc_html request_accepts w url = Some (Some html) <->
  request_accepts url = true /\ Net.urlopen w url = Net.UrlBody html.
Proof.
  unfold _fetch_vc_html. destruct (request_accepts url); cbn [negb].
  - destruct (Net.urlopen w url); split; try discriminate;
      first [by intros [_ [=]] | by intros [= ->] | by intros [_ [= ->]]].
  - split; [discriminate | by intros [[=] _]].
Qed.

(** X21: a record that has a description, a website and a known round goes
    through the enrichment loop of [main] as it is, in every world and with
    any two maps: no step writes to it and no page is requested for it.
    The records of the mock data are such records. *)
Theorem complete_record_unchanged (w : Net.World) (mock_map : gmap string Company)
    (round_map : gmap string RoundStage) (c : Company) :
  (description c <> "" -> website c <> "" -> last_round c <> UNKNOWN ->
   profile_step w c = Some c /\
   fill_missing_fields c mock_map = c /\
   enrich_round c round_map = Some c /\
   enrich w mock_map round_map c = Some c) /\
  Forall (fun m => enrich w mock_map round_map m = Some m) mock_companies.
Proof.
  split.
  - intros Hd Hw Hr. split; [| split; [| split]].
    + by apply profile_step_described.
    + by apply fill_complete.
    + by apply enrich_round_known.
    + by apply enrich_complete.
  - apply (Forall_impl _ _ _ mock_companies_complete).
    intros m (Hmd & Hmw & Hmr). by apply enrich_complete.
Qed.

(** X22: the enrichment of one record in [main] is left by an exception
    exactly when the record has no description and has a profile URL whose
    fetch is (the request constructor rejects the URL, or [urlopen] raises
    an exception that is neither [URLError] nor [TimeoutError]) or whose
    page, fetched and not empty, the parser is left by an exception on.
    Otherwise it returns a record with the same name, source and profile URL
    whose round is not Unknown, given a round map that holds no Unknown, as
    the one [main] loads. *)
Theorem enrich_company_result (w : Net.World) (mock_map : gmap string Company)
    (round_map : gmap string RoundStage) (c : Company) :
  (forall k r, round_map !! k = Some r -> r <> UNKNOWN) ->
  (forall k r, load_enrichment_map !! k = Some r -> r <> UNKNOWN) /\
  (enrich w mock_map round_map c = None <->
   description c = "" /\ profile_url c <> "" /\
   ((request_accepts (profile_url c) = false \/
     Net.urlopen w (profile_url c) = Net.UrlOtherError) \/
    exists html,
      request_accepts (profile_url c) = true /\
      Net.urlopen w (profile_url c) = Net.UrlBody html /\
      html <> "" /\ html_events html = None)) /\
  (forall c',
     enrich w mock_map round_map c = Some c' ->
     name c' = name c /\ source c' = source c /\ profile_url c' = profile_url c /\
     last_round c' <> UNKNOWN).
Proof.
  intros Hmap. split; [apply load_enrichment_map_known |]. split.
  - rewrite enrich_raises, enrich_from_vc_profile_raises, fetch_vc_raises.
    setoid_rewrite fetch_vc_body.
    split; intros (Hd & Hp & H); (split; [exact Hd |]; split; [exact Hp |]).
    + destruct H as [H | (html & [Ha Hb] & Hne & Hev)]; [by left |].
      right. by exists html.
    + destruct H as [H | (html & Ha & Hb & Hne & Hev)]; [by left |].
      right. by exists html.
  - intros c' He. by apply (enrich_fields w mock_map round_map).
Qed.

(** *** [main] *)

Lemma mock_data_items :
  exists eip set,
    getitem mock_portfolio_data "EIP" = Some eip /\
    getitem mock_portfolio_data "SET" = Some set /\
    eip ++ set = mock_companies.
Proof. do 2 eexists. split; [reflexivity |]. split; reflexivity. Qed.



Lemma bind_both {A B : Type} (g h : option (list A)) (k : list A -> option B) :
  (g ≫= fun x => h ≫= fun y => k (x ++ y)) =
  (g ≫= fun x => h ≫= fun y => Some (x ++ y)) ≫= k.
Proof. by destruct g, h. Qed.

(** [main] up to the enrichment loop, and what it does with the enriched
    records. *)
Lemma main_cases (argv : list string) (w : Net.World) (env : Env) (st : State) :
  run argv w env st =
  match gather argv w ≫= mapM (enrich w mock_lookup load_enrichment_map) with
  | Some enriched =>
      if bool_decide ("--no-filter" ∈ argv)
      then (Some (protfolio_csv_exporter enriched), st)
      else (protfolio_csv_exporter <$>
              fst (filter_relevant json_loads env enriched st),
            snd (filter_relevant json_loads env enriched st))
  | None => (None, st)
  end.
Proof.
  unfold main, gathered. cbv zeta. fold mock_lookup.
  rewrite (bind_both _ _ (mapM (enrich w mock_lookup load_enrichment_map))).
  match goal with
  | |- context [mbind (mapM _) ?G] => destruct (mbind (mapM _) G)
  end; [| reflexivity].
  destruct (bool_decide ("--no-filter" ∈ argv)); [reflexivity |].
  by destruct (filter_relevant json_loads env _ st).
Qed.

Lemma value_early (r : RoundStage) :
  r ∈ [SEED; SERIES_A; SERIES_B; SERIES_C] ->
  value r ∈ ["Seed"; "Series A"; "Series B"; "Series C"].
Proof.
  intros H. repeat (apply elem_of_cons in H as [-> | H];
    [cbn; repeat (first [apply list_elem_of_here | apply list_elem_of_further]) |]).
  by apply elem_of_nil in H.
Qed.

(** X24: when [main] filters, every row it writes after the header is the
    row of a record with a description and with the round Seed, Series A,
    Series B or Series C, in every world and whatever the model replies: no
    later round, and no Unknown, reaches the file. *)
Theorem main_rows_eligible (argv : list string) (w : Net.World) (env : Env)
    (st st' : State) (rows : list (list string)) :
  "--no-filter" ∉ argv ->
  run argv w env st = (Some rows, st') ->
  exists body,
    rows = header :: body /\
    Forall (csv_row (fun d rd =>
              d <> "" /\ rd ∈ ["Seed"; "Series A"; "Series B"; "Series C"])) body.
Proof.
  intros Hnf Hrun. rewrite main_cases in Hrun.
  rewrite (bool_decide_eq_false_2 _ Hnf) in Hrun.
  destruct (gather argv w ≫= mapM _) as [enriched |]; [| discriminate Hrun].
  rewrite filter_relevant_join in Hrun. cbn [fst snd] in Hrun.
  destruct (fst (llm_filter_energy_bulk _ _ _ _ _)) as [matches |];
    cbn [fmap option_fmap option_map] in Hrun; [| discriminate Hrun].
  apply (f_equal fst) in Hrun. cbn [fst] in Hrun. apply (inj Some) in Hrun.
  subst rows.
  unfold protfolio_csv_exporter. eexists. split; [reflexivity |].
  apply Forall_fmap.
  apply (Forall_impl _ _ _ (selected_survive enriched _)).
  intros c [Hr Hd]%survivor_spec. cbn. unfold csv_row, row.
  eexists _, _, _, _, _. split; [reflexivity |].
  split; [exact Hd | by apply value_early].
Qed.

(** X25: when no client can be made (the package is missing, or the API key
    is missing or empty) and [main] filters, a run that ends writes the
    header alone and sends nothing: with no model nothing is relevant. *)
Theorem main_without_client (argv : list string) (w : Net.World) (env : Env)
    (st st' : State) (rows : list (list string)) :
  "--no-filter" ∉ argv ->
  _client st = None ->
  genai_importable env = false \/ api_key env = None \/ api_key env = Some "" ->
  run argv w env st = (Some rows, st') ->
  rows = [header] /\ st' = st.
Proof.
  intros Hnf Hcl Henv Hrun. rewrite main_cases in Hrun.
  rewrite (bool_decide_eq_false_2 _ Hnf) in Hrun.
  destruct (gather argv w ≫= mapM _) as [enriched |]; [| discriminate Hrun].
  rewrite filter_relevant_no_client in Hrun.
  - injection Hrun as <- <-. done.
  - unfold _get_client. rewrite Hcl.
    destruct Henv as [-> | [-> | ->]]; [reflexivity | |];
      by destruct (genai_importable env).
Qed.

(** X26: with [--no-filter], a run that ends makes no request to the model
    and writes, after the header, one row for each record it gathered, in
    order, with the name and the source of that record, none of them with
    the round Unknown: the enrichment loop has given every record a
    round. *)
Theorem main_no_filter_rounds (argv : list string) (w : Net.World) (env : Env)
    (st st' : State) (rows : list (list string)) :
  "--no-filter" ∈ argv ->
  run argv w env st = (Some rows, st') ->
  st' = st /\
  exists all body,
    gather argv w = Some all /\
    rows = header :: body /\
    Forall2 (fun c r =>
               exists site d rd,
                 r = [name c; site; d; source c; rd] /\ rd <> "Unknown")
            all body.
Proof.
  intros Hnf Hrun. rewrite main_cases in Hrun.
  rewrite (bool_decide_eq_true_2 _ Hnf) in Hrun.
  destruct (gather argv w) as [all |]; [| discriminate Hrun].
  cbn [mbind option_bind] in Hrun.
  destruct (mapM _ all) as [enriched |] eqn:Hm; [| discriminate Hrun].
  injection Hrun as <- <-. split; [reflexivity |].
  exists all, (map row enriched). split; [reflexivity |]. split; [reflexivity |].
  apply mapM_Some_1 in Hm. apply Forall2_fmap_r.
  apply (Forall2_impl _ _ _ _ Hm). intros c c' Hcc'.
  destruct (enrich_fields _ _ _ _ _ load_enrichment_map_known Hcc')
    as (Hn & Hs & _ & Hr).
  unfold row. eexists _, _, _. rewrite Hn, Hs. split; [reflexivity |].
  intros Hv. apply Hr. by apply value_inj.
Qed.

(** The records [main] takes for one investor when it scrapes. *)
Lemma portfolio_block (w : Net.World) (live local_html source : string)
    (mock : option (list Company)) :
  str_truthy local_html = true ->
  (companies ← scrape_all w [live] source [];
   if list_empty companies && str_truthy local_html then
     fallback ← mock; scrape_all w [local_html] source fallback
   else if list_empty companies then mock
   else Some companies) =
  match scrape_one w live source [] with
  | None => None
  | Some [] => fallback ← mock; scrape_one w local_html source fallback
  | Some (c :: cs) => Some (c :: cs)
  end.
Proof.
  intros ->. rewrite scrape_all_one.
  destruct (scrape_one w live source []) as [[| c cs] |];
    cbn [fmap option_fmap option_map mbind option_bind list_or list_empty andb];
    try reflexivity.
  destruct mock as [fallback |]; cbn [mbind option_bind]; [| reflexivity].
  by rewrite scrape_all_one, (scrape_fallback_empty w local_html source fallback).
Qed.

Lemma gather_scraping (argv : list string) (w : Net.World) :
  "--use-mock" ∉ argv ->
  gather argv w =
  (eip_companies ←
     match scrape_one w "https://www.energyimpactpartners.com/_portfolio/" "EIP" [] with
     | None => None
     | Some [] =>
         fallback ← getitem mock_portfolio_data "EIP";
         scrape_one w EIP_LOCAL_HTML "EIP" fallback
     | Some (c :: cs) => Some (c :: cs)
     end;
   set_companies ←
     match scrape_one w "https://www.setventures.com/portfolio/" "SET" [] with
     | None => None
     | Some [] =>
         fallback ← getitem mock_portfolio_data "SET";
         scrape_one w SET_LOCAL_HTML "SET" fallback
     | Some (c :: cs) => Some (c :: cs)
     end;
   Some (eip_companies ++ set_companies)).
Proof.
  intros Hm. unfold gathered. cbv zeta.
  rewrite (bool_decide_eq_false_2 _ Hm).
  unfold EIP_PORTFOLIO_URLS, SET_PORTFOLIO_URLS.
  by rewrite !portfolio_block by reflexivity.
Qed.

Lemma gather_mock (argv : list string) (w : Net.World) :
  "--use-mock" ∈ argv -> gather argv w = Some mock_companies.
Proof.
  intros Hm. unfold gathered. cbv zeta. rewrite (bool_decide_eq_true_2 _ Hm).
  reflexivity.
Qed.

Lemma scrape_one_raises (w : Net.World) (url source : string)
    (fallback : list Company) :
  startswith url "file://" = false -> Net.path_exists w url = Some false ->
  request_accepts url = false ->
  scrape_one w url source fallback = None.
Proof.
  intros Hf Hp Ha. unfold scrape_portfolio, fetch_html.
  by rewrite Hf, Hp, Ha.
Qed.

(** X27: without [--use-mock], when the live page of an investor yields no
    record and the local snapshot of that investor does not exist, [main]
    does not fall back to the mock data: the snapshot path has no URL type,
    the request constructor raises for it, and the run ends with that
    exception before anything is written. *)
Theorem main_missing_snapshot_raises (argv : list string) (w : Net.World)
    (env : Env) (st : State) :
  "--use-mock" ∉ argv ->
  request_accepts EIP_LOCAL_HTML = false ->
  request_accepts SET_LOCAL_HTML = false ->
  (scrape_one w "https://www.energyimpactpartners.com/_portfolio/" "EIP" [] = Some [] /\
   Net.path_exists w EIP_LOCAL_HTML = Some false) \/
  (scrape_one w "https://www.setventures.com/portfolio/" "SET" [] = Some [] /\
   Net.path_exists w SET_LOCAL_HTML = Some false) ->
  run argv w env st = (None, st).
Proof.
  intros Hm Ha1 Ha2 Hcase. rewrite main_cases, gather_scraping by exact Hm.
  destruct mock_data_items as (eip & set & -> & -> & _).
  cbn [mbind option_bind].
  destruct Hcase as [[Hs Hp] | [Hs Hp]].
  - rewrite Hs.
    by rewrite (scrape_one_raises w EIP_LOCAL_HTML "EIP" eip eq_refl Hp Ha1).
  - rewrite Hs.
    rewrite (scrape_one_raises w SET_LOCAL_HTML "SET" set eq_refl Hp Ha2).
    destruct (scrape_one w "https://www.energyimpactpartners.com/_portfolio/" "EIP" [])
      as [[| c cs] |]; cbn [mbind option_bind]; try reflexivity.
    by destruct (scrape_one w EIP_LOCAL_HTML "EIP" eip).
Qed.

(** X28: without [--use-mock], when none of the four references, the two live
    pages and the two local snapshots, yields a record and no request
    raises, [main] runs on the mock data: its result is the one of the same
    run with [--use-mock]. *)
Theorem main_falls_back_to_mock (argv : list string) (w : Net.World)
    (env : Env) (st : State) :
  scrape_one w "https://www.energyimpactpartners.com/_portfolio/" "EIP" [] = Some [] ->
  scrape_one w EIP_LOCAL_HTML "EIP" [] = Some [] ->
  scrape_one w "https://www.setventures.com/portfolio/" "SET" [] = Some [] ->
  scrape_one w SET_LOCAL_HTML "SET" [] = Some [] ->
  run argv w env st = run ("--use-mock" :: argv) w env st.
Proof.
  intros H1 H2 H3 H4.
  assert (Hsame : bool_decide ("--no-filter" ∈ "--use-mock" :: argv) =
                  bool_decide ("--no-filter" ∈ argv)).
  { apply bool_decide_ext. rewrite elem_of_cons. split; [| by right].
    by intros [[=] | H]. }
  rewrite !main_cases, Hsame.
  rewrite (gather_mock ("--use-mock" :: argv)) by apply list_elem_of_here.
  destruct (decide ("--use-mock" ∈ argv)) as [Hin | Hnin];
    [by rewrite (gather_mock argv w Hin) |].
  rewrite gather_scraping by exact Hnin.
  destruct mock_data_items as (eip & set & -> & -> & Hall).
  rewrite H1, H3. cbn [mbind option_bind].
  rewrite (scrape_fallback_empty w EIP_LOCAL_HTML "EIP" eip), H2.
  cbn [fmap option_fmap option_map list_or mbind option_bind].
  rewrite (scrape_fallback_empty w SET_LOCAL_HTML "SET" set), H4.
  cbn [fmap option_fmap option_map list_or mbind option_bind].
  assert (Heip : list_or [] eip = eip) by reflexivity.
  assert (Hset : list_or [] set = set) by reflexivity.
  by rewrite Hall.
Qed.

Lemma fold_insert_lookup (l : list Company) (m : gmap string Company)
    (k : string) (v : Company) :
  fold_left (fun m c => <[lower (name c) := c]> m) l m !! k = Some v ->
  (v ∈ l /\ k = lower (name v)) \/ m !! k = Some v.
Proof.
  revert m. induction l as [| c l IH]; intros m H; [by right |].
  cbn [fold_left] in H. destruct (IH _ H) as [[Hin Hk] | Hm].
  - left. split; [by apply list_elem_of_further | exact Hk].
  - apply lookup_insert_Some in Hm as [[<- <-] | [_ Hm]].
    + left. split; [apply list_elem_of_here | reflexivity].
    + by right.
Qed.

Lemma mock_lookup_agrees (k : string) (m : Company) :
  mock_lookup !! k = Some m ->
  load_enrichment_map !! k = Some (last_round m) /\ last_round m <> UNKNOWN.
Proof.
  intros H. apply fold_insert_lookup in H as [[Hin ->] | H].
  - change (m ∈ mock_companies) in Hin. unfold mock_companies in Hin.
    cbn [mock_portfolio_data map snd concat app] in Hin.
    repeat (apply elem_of_cons in Hin as [-> | Hin];
            [split; [vm_compute; reflexivity | discriminate] |]).
    by apply elem_of_nil in Hin.
  - by rewrite lookup_empty in H.
Qed.

(** X29: the round a record of unknown round leaves the enrichment loop of
    [main] with is the one [load_enrichment_map] holds for its lowercased
    name, and the hashed round when the map has no such key: the mock
    records, which are looked up first, carry the rounds of the map, so the
    two tables never disagree. *)
Theorem main_round_assignment (w : Net.World) (c c' : Company) :
  last_round c = UNKNOWN ->
  enrich w mock_lookup load_enrichment_map c = Some c' ->
  match load_enrichment_map !! lower (name c) with
  | Some r => last_round c' = r
  | None => _hash_round_stage (name c) = Some (last_round c')
  end.
Proof.
  intros Hu He. apply enrich_ends_with_round in He as (c1 & Hc1 & He).
  pose proof (enrich_from_vc_profile_fields html_events request_accepts w c c1 Hc1)
    as (Hn & Hr & _).
  rewrite <- Hn. rewrite Hu in Hr. clear Hc1 Hn Hu c.
  unfold fill_missing_fields in He. cbv zeta in He.
  destruct (mock_lookup !! lower (name c1)) as [m |] eqn:Hm.
  - apply mock_lookup_agrees in Hm as [-> Hk].
    assert (Hfill : forall x : Company,
              name x = name c1 -> last_round x = UNKNOWN ->
              enrich_round
                (if round_eq (last_round x) UNKNOWN
                 then set_last_round (last_round m) x else x)
                load_enrichment_map = Some c' ->
              last_round c' = last_round m).
    { intros x _ Hx. rewrite Hx. change (round_eq UNKNOWN UNKNOWN) with true.
      cbv iota. rewrite enrich_round_known by exact Hk.
      by intros [= <-]. }
    destruct (negb (str_truthy (website c1))).
    + exact (Hfill (set_website (website m) c1) eq_refl Hr He).
    + exact (Hfill c1 eq_refl Hr He).
  - rewrite (enrich_round_unknown c1 _ Hr) in He.
    destruct (load_enrichment_map !! lower (name c1)) as [e |].
    + by injection He as <-.
    + destruct (_hash_round_stage (name c1)) as [r |]; [| discriminate He].
      by injection He as <-.
Qed.

(** X30: filtering only takes rows away: the rows [main] writes when it
    filters are, in the same world, a sublist of the rows it writes with
    [--no-filter], in the same order, and the run with [--no-filter] ends
    whenever the filtering run does. *)
Theorem main_filter_removes_rows (argv : list string) (w : Net.World) (env : Env)
    (st st' : State) (rows : list (list string)) :
  "--no-filter" ∉ argv ->
  run argv w env st = (Some rows, st') ->
  exists all_rows,
    run ("--no-filter" :: argv) w env st = (Some all_rows, st) /\
    sublist rows all_rows.
Proof.
  intros Hnf Hrun.
  assert (Hgather : gather ("--no-filter" :: argv) w = gather argv w).
  { unfold gathered. cbv zeta.
    assert (Hflag : bool_decide ("--use-mock" ∈ "--no-filter" :: argv) =
                    bool_decide ("--use-mock" ∈ argv)).
    { apply bool_decide_ext. rewrite elem_of_cons. split; [| by right].
      by intros [[=] | H]. }
    by rewrite Hflag. }
  revert Hrun. rewrite !main_cases, Hgather.
  rewrite (bool_decide_eq_false_2 _ Hnf).
  rewrite (bool_decide_eq_true_2 ("--no-filter" ∈ "--no-filter" :: argv))
    by apply list_elem_of_here.
  destruct (gather argv w ≫= mapM _) as [enriched |]; [| discriminate].
  rewrite filter_relevant_join. cbn [fst snd].
  destruct (fst (llm_filter_energy_bulk _ _ _ _ _)) as [matches |];
    cbn [fmap option_fmap option_map]; [| discriminate].
  intros Hrun. apply (f_equal fst) in Hrun. cbn [fst] in Hrun.
  apply (inj Some) in Hrun. subst rows.
  eexists. split; [reflexivity |].
  unfold protfolio_csv_exporter.
  apply sublist_skip. apply (fmap_sublist row).
  etrans; [apply selected_sublist | apply filter_sublist].
Qed.

End WithLibrary.

Lemma unenriched_scrape_filtered_out_witness :
  filter_relevant json_loads_four approving
    [build_company_from_name "AeroGrid" "EIP" "https://aerogrid.example.com"
       "AeroGrid provides smart grid optimization." ""] fresh = (Some [], fresh).
Proof.
  apply (unenriched_scrape_filtered_out (fun _ => Some ExampleData.eip_events)
           InferSpec.hostname_simple Some has_url_type json_loads_four
           (ScraperSpec.serving "<html>")
           "https://www.energyimpactpartners.com/_portfolio/" "EIP").
  vm_compute. reflexivity.
Defined.

Lemma complete_record_unchanged_witness :
  let c := mock_company "GridPulse" "https://gridpulse.example.com"
             "Smart grid analytics for utility operators." SERIES_A "EIP" in
  enrich_company (fun _ => Some []) has_url_type offline mock_lookup load_enrichment_map c
  = Some c.
Proof.
  cbv zeta.
  apply (proj1 (complete_record_unchanged (fun _ => Some []) has_url_type offline
                  mock_lookup load_enrichment_map
                  (mock_company "GridPulse" "https://gridpulse.example.com"
                     "Smart grid analytics for utility operators." SERIES_A "EIP")));
    discriminate.
Defined.

Lemma enrich_company_result_witness :
  let c' := mkCompany "Fluxcharge" "https://fluxcharge.example.com" "" SEED "SET"
              None "" "https://www.setventures.com/portfolio/fluxcharge/" in
  enrich_company (fun _ => Some []) has_url_type offline mock_lookup load_enrichment_map
    (build_profile_stub "/portfolio/fluxcharge/") = None /\
  enrich_company (fun _ => Some []) has_url_type ScraperSpec.resetting mock_lookup
    load_enrichment_map
    (build_profile_stub "https://www.setventures.com/portfolio/fluxcharge/") = None /\
  enrich_company (fun _ => Some []) has_url_type offline mock_lookup load_enrichment_map
    (build_profile_stub "https://www.setventures.com/portfolio/fluxcharge/") = Some c' /\
  last_round c' <> UNKNOWN.
Proof.
  cbv zeta.
  split.
  { apply (proj1 (proj2 (enrich_company_result (fun _ => Some []) has_url_type offline
                           mock_lookup load_enrichment_map
                           (build_profile_stub "/portfolio/fluxcharge/")
                           load_enrichment_map_known))).
    split; [reflexivity |]. split; [discriminate | left; by left]. }
  split.
  { apply (proj1 (proj2 (enrich_company_result (fun _ => Some []) has_url_type
                           ScraperSpec.resetting mock_lookup load_enrichment_map
                           (build_profile_stub
                              "https://www.setventures.com/portfolio/fluxcharge/")
                           load_enrichment_map_known))).
    split; [reflexivity |]. split; [discriminate | left; by right]. }
  assert (E : enrich_company (fun _ => Some []) has_url_type offline mock_lookup
                load_enrichment_map
                (build_profile_stub "https://www.setventures.com/portfolio/fluxcharge/") =
              Some (mkCompany "Fluxcharge" "https://fluxcharge.example.com" "" SEED
                      "SET" None "" "https://www.setventures.com/portfolio/fluxcharge/"))
    by (vm_compute; reflexivity).
  split; [exact E |].
  exact (proj2 (proj2 (proj2
           (proj2 (proj2 (enrich_company_result (fun _ => Some []) has_url_type offline
                            mock_lookup load_enrichment_map
                            (build_profile_stub
                               "https://www.setventures.com/portfolio/fluxcharge/")
                            load_enrichment_map_known)) _ E)))).
Defined.

Lemma main_round_assignment_witness :
  let acme := mkCompany "Acme" "" "Storage systems." UNKNOWN "EIP" None "" "" in
  let grid := mkCompany "GRIDPULSE" "" "Grid analytics." UNKNOWN "EIP" None "" "" in
  (last_round <$> enrich_company (fun _ => Some []) has_url_type offline mock_lookup
                    load_enrichment_map acme) = _hash_round_stage "Acme" /\
  (last_round <$> enrich_company (fun _ => Some []) has_url_type offline mock_lookup
                    load_enrichment_map grid) = Some SERIES_A.
Proof.
  cbv zeta. split.
  - pose proof (main_round_assignment (fun _ => Some []) has_url_type offline
                  (mkCompany "Acme" "" "Storage systems." UNKNOWN "EIP" None "" "")
                  (mkCompany "Acme" "" "Storage systems." SERIES_D "EIP" None "" "")
                  eq_refl) as H.
    assert (E : enrich_company (fun _ => Some []) has_url_type offline mock_lookup
                  load_enrichment_map
                  (mkCompany "Acme" "" "Storage systems." UNKNOWN "EIP" None "" "") =
                Some (mkCompany "Acme" "" "Storage systems." SERIES_D "EIP" None "" ""))
      by (vm_compute; reflexivity).
    rewrite E. cbn [fmap option_fmap option_map last_round]. symmetry. exact (H E).
  - pose proof (main_round_assignment (fun _ => Some []) has_url_type offline
                  (mkCompany "GRIDPULSE" "" "Grid analytics." UNKNOWN "EIP" None "" "")
                  (mkCompany "GRIDPULSE" "https://gridpulse.example.com"
                     "Grid analytics." SERIES_A "EIP" None "" "")
                  eq_refl) as H.
    assert (E : enrich_company (fun _ => Some []) has_url_type offline mock_lookup
                  load_enrichment_map
                  (mkCompany "GRIDPULSE" "" "Grid analytics." UNKNOWN "EIP" None "" "") =
                Some (mkCompany "GRIDPULSE" "https://gridpulse.example.com"
                        "Grid analytics." SERIES_A "EIP" None "" ""))
      by (vm_compute; reflexivity).
    rewrite E. exact (f_equal Some (H E)).
Defined.

Lemma main_filter_removes_rows_witness :
  let r := main (fun _ => Some []) (fun h => h) Some has_url_type json_loads_four
             ["hitachi_energy_portfolio.py"; "--use-mock"] offline approving fresh in
  exists all_rows,
    main (fun _ => Some []) (fun h => h) Some has_url_type json_loads_four
      ["--no-filter"; "hitachi_energy_portfolio.py"; "--use-mock"]
      offline approving fresh = (Some all_rows, fresh) /\
    sublist (default [] (fst r)) all_rows.
Proof.
  cbv zeta.
  apply (main_filter_removes_rows (fun _ => Some []) (fun h => h) Some
           has_url_type json_loads_four
           ["hitachi_energy_portfolio.py"; "--use-mock"] offline approving fresh
           (snd (main (fun _ => Some []) (fun h => h) Some has_url_type json_loads_four
                   ["hitachi_energy_portfolio.py"; "--use-mock"]
                   offline approving fresh))).
  - intros [[=] | [[=] | []%elem_of_nil]%elem_of_cons]%elem_of_cons.
  - vm_compute. reflexivity.
Defined.


Lemma main_missing_snapshot_raises_witness :
  main (fun _ => Some []) (fun h => h) Some has_url_type json_loads_four
    ["hitachi_energy_portfolio.py"] offline approving fresh = (None, fresh).
Proof.
  apply (main_missing_snapshot_raises (fun _ => Some []) (fun h => h) Some
           has_url_type json_loads_four ["hitachi_energy_portfolio.py"]
           offline approving fresh).
  - intros [[=] | []%elem_of_nil]%elem_of_cons.
  - reflexivity.
  - reflexivity.
  - left. split; reflexivity.
Defined.

Lemma main_rows_eligible_witness :
  let r := main (fun _ => Some []) (fun h => h) Some has_url_type json_loads_four
             ["hitachi_energy_portfolio.py"; "--use-mock"] offline approving fresh in
  exists body,
    default [] (fst r) = header :: body /\
    Forall (csv_row (fun d rd =>
              d <> "" /\ rd ∈ ["Seed"; "Series A"; "Series B"; "Series C"])) body.
Proof.
  cbv zeta.
  apply (main_rows_eligible (fun _ => Some []) (fun h => h) Some
           has_url_type json_loads_four
           ["hitachi_energy_portfolio.py"; "--use-mock"] offline approving fresh
           (snd (main (fun _ => Some []) (fun h => h) Some has_url_type json_loads_four
                   ["hitachi_energy_portfolio.py"; "--use-mock"]
                   offline approving fresh))).
  - intros [[=] | [[=] | []%elem_of_nil]%elem_of_cons]%elem_of_cons.
  - vm_compute. reflexivity.
Defined.

Lemma main_without_client_witness :
  let r := main (fun _ => Some []) (fun h => h) Some has_url_type json_loads_four
             ["hitachi_energy_portfolio.py"; "--use-mock"] offline no_key fresh in
  default [] (fst r) = [header] /\ snd r = fresh.
Proof.
  cbv zeta.
  apply (main_without_client (fun _ => Some []) (fun h => h) Some
           has_url_type json_loads_four
           ["hitachi_energy_portfolio.py"; "--use-mock"] offline no_key fresh).
  - intros [[=] | [[=] | []%elem_of_nil]%elem_of_cons]%elem_of_cons.
  - reflexivity.
  - right. left. reflexivity.
  - vm_compute. reflexivity.
Defined.

Lemma main_no_filter_rounds_witness :
  let r := main (fun _ => Some []) (fun h => h) Some has_url_type json_loads_four
             ["hitachi_energy_portfolio.py"; "--use-mock"; "--no-filter"]
             offline approving fresh in
  snd r = fresh /\
  exists all body,
    gathered (fun _ => Some []) (fun h => h) Some has_url_type
      ["hitachi_energy_portfolio.py"; "--use-mock"; "--no-filter"] offline = Some all /\
    default [] (fst r) = header :: body /\
    Forall2 (fun c r =>
               exists site d rd,
                 r = [name c; site; d; source c; rd] /\ rd <> "Unknown")
            all body.
Proof.
  cbv zeta.
  apply (main_no_filter_rounds (fun _ => Some []) (fun h => h) Some
           has_url_type json_loads_four
           ["hitachi_energy_portfolio.py"; "--use-mock"; "--no-filter"]
           offline approving fresh).
  - apply list_elem_of_further, list_elem_of_further, list_elem_of_here.
  - vm_compute. reflexivity.
Defined.

Lemma main_falls_back_to_mock_witness :
  main (fun _ => Some []) (fun h => h) Some has_url_type json_loads_four
    ["hitachi_energy_portfolio.py"] unreadable approving fresh =
  main (fun _ => Some []) (fun h => h) Some has_url_type json_loads_four
    ["--use-mock"; "hitachi_energy_portfolio.py"] unreadable approving fresh.
Proof.
  apply (main_falls_back_to_mock (fun _ => Some []) (fun h => h) Some
           has_url_type json_loads_four ["hitachi_energy_portfolio.py"]
           unreadable approving fresh); reflexivity.
Defined.

End PipelineTheory.

Module PipelineExamples.
Import Py Config LLM LLMRequests Filtering Relevance Enrichment Scraper Exporter.
Import Pipeline ScraperSpec FilteringSpec RequestSpec ParserSpec PipelineSpec.

Example keyword_check :
  matches_energy_keywords "Long-duration ENERGY storage." = true /\
  matches_energy_keywords "Smart Grid analytics" = true /\
  matches_energy_keywords "Residential solar financing platform." = false.
Proof. vm_compute. repeat split. Qed.

Example single_check :
  fst (is_relevant json_loads_small (constant_env "```json true ```")
         (mock_company "GridPulse" "" "Smart grid analytics." SERIES_A "EIP") fresh)
    = Some true /\
  is_relevant json_loads_small (constant_env "true")
    (mock_company "VoltStor" "" "Energy storage." SERIES_D "EIP") fresh
    = (Some false, fresh) /\
  fst (is_relevant json_loads_small (constant_env "[1, 2]")
         (mock_company "GridPulse" "" "Smart grid analytics." SERIES_A "EIP") fresh)
    = Some false /\
  fst (is_relevant json_loads_table (constant_env long_integer_reply)
         (mock_company "GridPulse" "" "Smart grid analytics." SERIES_A "EIP") fresh)
    = None.
Proof. vm_compute. repeat split. Qed.

Example model_names :
  let json_loads := fun _ : string =>
    JsonValue (PyList [PyStr "  Acme   Grid "; PyInt 7; PyStr "ACME GRID";
                       PyStr "X"; PyStr "VoltStor"]) in
  fst (extract_company_names_with_gemini json_loads (constant_env "[]")
         "<html></html>" fresh) = Some ["Acme Grid"; "VoltStor"].
Proof. vm_compute. reflexivity. Qed.

(** The batch request, spelled out: the fixed text, then [json.dumps] of the
    descriptions, with its escapes. *)
Example request_text :
  let quote := String "034" EmptyString in
  let backslash := String "092" EmptyString in
  bulk_prompt
    [ "Smart grid.";
      "Caf" +:+ String "233" " 50%";
      "a" +:+ quote +:+ "b" +:+ backslash +:+ "c" +:+ nl +:+ "d" +:+
        String "007" EmptyString ]
    ["energy"; "smart grid"] =
  "You will receive a JSON array of company descriptions. " +:+
  "For each description, decide if it is relevant to energy investing. " +:+
  "Keywords: energy, smart grid. " +:+
  "Return a JSON array of booleans with the same length and order, no extra text." +:+
  nl +:+ nl +:+ "Descriptions:" +:+ nl +:+
  "[" +:+ quote +:+ "Smart grid." +:+ quote +:+ ", " +:+
  quote +:+ "Caf" +:+ backslash +:+ "u00e9 50%" +:+ quote +:+ ", " +:+
  quote +:+ "a" +:+ backslash +:+ quote +:+ "b" +:+ backslash +:+ backslash +:+
    "c" +:+ backslash +:+ "nd" +:+ backslash +:+ "u0007" +:+ quote +:+ "]".
Proof. vm_compute. reflexivity. Qed.

Example profile_page_run :
  description <$>
    enrich_from_vc_profile (fun _ => Some profile_page) has_url_type
      (serving "<html></html>")
      (EnrichmentSpec.build_profile_stub "https://www.setventures.com/portfolio/x/") =
    Some "Flexible grid software." /\
  website <$>
    enrich_from_vc_profile (fun _ => Some profile_page) has_url_type
      (serving "<html></html>")
      (EnrichmentSpec.build_profile_stub "https://www.setventures.com/portfolio/x/") =
    Some "https://fluxcharge.example.com".
Proof. vm_compute. split; reflexivity. Qed.

Example url_types :
  map has_url_type
    ["data/energyimpacters.html"; "data/setventures.html"; "/portfolio/x/";
     "https://www.setventures.com/portfolio/"; "file:///tmp/page.html"] =
  [false; false; false; true; true].
Proof. reflexivity. Qed.

Example fetch_outcomes :
  fetch_html Some has_url_type offline "https://www.setventures.com/portfolio/" =
    Some None /\
  fetch_html Some has_url_type resetting "https://www.setventures.com/portfolio/" = None /\
  fetch_html Some has_url_type offline "data/setventures.html" = None /\
  fetch_html Some has_url_type unreadable "data/setventures.html" = Some None /\
  fetch_html (fun _ => None) has_url_type offline "file://[" = None /\
  fetch_html Some has_url_type (serving "<html>") "https://www.setventures.com/portfolio/" =
    Some (Some "<html>").
Proof. vm_compute. repeat split. Qed.

(** A document on which the parser is left by an exception: so are the
    extractor, the scrape and the profile step. *)
Example unread_document :
  extract_company_names_from_html (fun _ => None) "<![x[" = None /\
  scrape_portfolio (fun _ => None) (fun h => h) Some has_url_type (serving "<![x[")
    "https://www.setventures.com/portfolio/" "SET"
    [mock_company "FluxCharge" "" "" SEED "SET"] = None /\
  enrich_from_vc_profile (fun _ => None) has_url_type (serving "<![x[")
    (EnrichmentSpec.build_profile_stub "https://www.setventures.com/portfolio/x/") =
    None.
Proof. vm_compute. repeat split. Qed.

Example mock_run :
  fst (main (fun _ => Some []) (fun h => h) Some has_url_type json_loads_four
         ["hitachi_energy_portfolio.py"; "--use-mock"] offline approving fresh) =
  Some
    [ header;
      ["GridPulse"; "https://gridpulse.example.com";
       "Smart grid analytics for utility operators."; "EIP"; "Series A"];
      ["ThermaLoop"; "https://thermaloop.example.com";
       "Industrial efficiency platform reducing heat loss."; "EIP"; "Series C"];
      ["FluxCharge"; "https://fluxcharge.example.com";
       "Energy management software for commercial buildings."; "SET"; "Seed"];
      ["AeroGrid"; "https://aerogrid.example.com";
       "Smart grid optimization for distributed resources."; "SET"; "Series B"] ].
Proof. vm_compute. reflexivity. Qed.

Example offline_run :
  fst (main (fun _ => Some []) (fun h => h) Some has_url_type json_loads_four
         ["hitachi_energy_portfolio.py"] offline approving fresh) = None /\
  length <$> fst (main (fun _ => Some []) (fun h => h) Some has_url_type json_loads_four
                    ["hitachi_energy_portfolio.py"; "--no-filter"]
                    unreadable approving fresh) = Some 7%nat.
Proof. vm_compute. split; reflexivity. Qed.

End PipelineExamples.

Module Examples.
Import Py Html Enrichment EnrichmentSpec Filtering FilteringSpec Scraper ScraperSpec InferSpec
  ExampleData.

Example infer_voltstor :
  infer_company_name hostname_simple
    "VoltStor's battery systems extend grid storage." "" = "VoltStor".
Proof. vm_compute. reflexivity. Qed.

Example infer_aerogrid :
  infer_company_name hostname_simple
    "AeroGrid provides smart grid optimization." "" = "AeroGrid".
Proof. vm_compute. reflexivity. Qed.

Example infer_leftmost_phrase :
  infer_company_name hostname_simple "Since 2019 Big Grid Co builds meters." "" =
  "Big Grid Co".
Proof. vm_compute. reflexivity. Qed.

Example infer_five_tokens :
  infer_company_name hostname_simple "A B C D E is here" "" = "B C D E".
Proof. vm_compute. reflexivity. Qed.

Example infer_unknown : infer_company_name hostname_simple "" "" = "Unknown".
Proof. vm_compute. reflexivity. Qed.

Example hostname_examples :
  map hostname_simple
    ["https://www.sunpeak.example.com"; "HTTP://User@Grid-Pulse.Example.com:8080/a?b#c";
     "sunpeak.example.com"; "//cdn.example.org/x"; "mailto:info@example.com"] =
  ["www.sunpeak.example.com"; "grid-pulse.example.com"; ""; "cdn.example.org"; ""].
Proof. vm_compute. reflexivity. Qed.

Example sha256_abc :
  Sha256.hexdigest (encode_utf8 "abc") =
  "ba7816bf8f01cfea414140de5dae2223b00361a396177a9cb410ff61f20015ad".
Proof. vm_compute. reflexivity. Qed.

Example hash_round_examples :
  map _hash_round_stage ["gridpulse"; "GridPulse"; "acme"; "x"] =
  [Some SERIES_C; Some SERIES_C; Some SERIES_D; Some SEED].
Proof. vm_compute. reflexivity. Qed.

(** The empty name is a case of its own: its digest reduces to 4. *)
Example empty_name_digest :
  hashed_round "" = Some SERIES_D /\ _hash_round_stage "" = Some SEED.
Proof. vm_compute. split; reflexivity. Qed.

Example mock_round_gate :
  map name (List.filter survivor (concat (map snd mock_portfolio_data))) =
  ["GridPulse"; "ThermaLoop"; "FluxCharge"; "AeroGrid"].
Proof. vm_compute. reflexivity. Qed.

Example eip_parser_run :
  EIPPortfolioParser.entries (EIPPortfolioParser.feed eip_events) =
  [("AeroGrid provides smart grid optimization.", "https://aerogrid.example.com")].
Proof. vm_compute. reflexivity. Qed.

Example eip_scrape :
  map (fun c => (name c, website c, last_round c)) <$>
      scrape_portfolio (fun _ => Some eip_events) hostname_simple Some (fun _ => true)
        (serving "<html>") "https://www.energyimpactpartners.com/_portfolio/" "EIP" [] =
  Some [("AeroGrid", "https://aerogrid.example.com", UNKNOWN)].
Proof. vm_compute. reflexivity. Qed.

Example set_scrape :
  map (fun c => (name c, profile_url c)) <$>
      scrape_portfolio (fun _ => Some set_events) hostname_simple Some (fun _ => true)
        (serving "<html>") "https://www.setventures.com/portfolio/" "SET" [] =
  Some [("Fluxcharge", "https://www.setventures.com/portfolio/fluxcharge/")].
Proof. vm_compute. reflexivity. Qed.

Example profile_enrichment_run :
  let c := build_company_from_name "Fluxcharge" "SET" "" ""
             "https://www.setventures.com/portfolio/fluxcharge/" in
  (fun c' => (description c', website c', last_round c')) <$>
    enrich_from_vc_profile (fun _ => Some profile_events) (fun _ => true)
      (serving "<html>") c =
  Some ("Energy management software.", "https://fluxcharge.example.com", UNKNOWN).
Proof. vm_compute. reflexivity. Qed.

Example enrichment_sequence :
  let c := build_company_from_name "Fluxcharge" "SET" "" ""
             "https://www.setventures.com/portfolio/fluxcharge/" in
  (c1 ← enrich_from_vc_profile (fun _ => Some profile_events) (fun _ => true)
          (serving "<html>") c;
   last_round <$> enrich_round (fill_missing_fields c1 mock_lookup) load_enrichment_map) =
  Some SEED.
Proof. vm_compute. reflexivity. Qed.

End Examples.
